(** * Headlamp frontend transport layer: streaming reconciliation and the
      WebSocket multiplexer

    A shallow embedding of
    - [frontend/src/lib/k8s/apiProxy.ts]: [streamResults], [stream],
      [connectStream] and [repeatStreamFunc];
    - [frontend/src/lib/k8s/api/v2/webSocket.ts]: [WebSocketManager].

    The code is single-threaded and event driven.  Every closure of the
    source becomes a function from the captured variables (a record) to the
    new variables and the list of effects it performed, in program order.
    Debug output guarded by [isDebugVerbose] is diagnostic only and is left
    out.  The callbacks of the caller of [apiProxy.ts] ([cb], [errCb]) are
    taken to return normally and not to call back into the code while they
    run; for the listeners of the multiplexer, throwing is part of the
    model. *)

From Stdlib Require Import ZArith Ascii String List Bool Lia.
From stdpp Require Import base option list gmap strings fin_maps fin_sets.

Open Scope Z_scope.
Open Scope string_scope.
Open Scope list_scope.

(** ** JavaScript values used by the code *)

Module JS.

(** A string is a sequence of code units; the model keeps to code units
    below 256.  A property that may be absent ([undefined]) is an
    [option]. *)

(** [ToBoolean] on a string-or-undefined: [undefined] and the empty string
    are falsy. *)
Definition truthy (v : option string) : bool :=
  match v with
  | None => false
  | Some s => negb (String.eqb s "")
  end.

(** [v || ''] *)
Definition or_empty (v : option string) : string :=
  match v with
  | None => ""
  | Some s => s
  end.

(** [s.slice(0, -k)]: the end index is [max (length s - k) 0]. *)
Definition slice_to_minus (k : nat) (s : string) : string :=
  String.substring 0 (String.length s - k) s.

(** [StrWhiteSpaceChar] among the code units below 256: TAB, LF, VT, FF,
    CR, SP and NBSP. *)
Definition is_white_space (c : ascii) : bool :=
  let n := nat_of_ascii c in
  ((9 <=? n)%nat && (n <=? 13)%nat) || (n =? 32)%nat || (n =? 160)%nat.

Fixpoint trim_start (s : string) : string :=
  match s with
  | String c s' => if is_white_space c then trim_start s' else s
  | EmptyString => s
  end.

Definition digit_value (c : ascii) : option Z :=
  let n := nat_of_ascii c in
  if ((48 <=? n)%nat && (n <=? 57)%nat)%bool then Some (Z.of_nat n - 48) else None.

(** The longest prefix of decimal digits, read as a number; [acc] is the
    value of the digits already read and [seen] tells whether there was
    one. *)
Fixpoint read_digits (acc : Z) (seen : bool) (s : string) : option Z :=
  match s with
  | String c s' =>
      match digit_value c with
      | Some d => read_digits (10 * acc + d) true s'
      | None => if seen then Some acc else None
      end
  | EmptyString => if seen then Some acc else None
  end.

(** [parseInt(s, 10)]: leading white space is skipped, one sign is read,
    then the longest run of digits; what follows is ignored.  The result
    is the mathematical integer, or [None] for [NaN] (no digit).  The
    Number that the program compares is this integer rounded to a double,
    see [StreamResults.to_number]. *)
Definition parseInt (s : string) : option Z :=
  match trim_start s with
  | String "-" s' => Z.opp <$> read_digits 0 false s'
  | String "+" s' => read_digits 0 false s'
  | s' => read_digits 0 false s'
  end.

(** [parseInt(v, 10)] on a property: [undefined] reads as the string
    "undefined", which has no digit. *)
Definition parseInt_of (v : option string) : option Z :=
  match v with
  | Some s => parseInt s
  | None => None
  end.

(** [key.split(':')[0]]: the part before the first colon, the whole string
    when there is none. *)
Fixpoint split_colon_first (s : string) : string :=
  match s with
  | String c s' => if Ascii.eqb c ":" then "" else String c (split_colon_first s')
  | EmptyString => ""
  end.

End JS.

(** ** The Snapshot+Watch Reconciler: [streamResults] *)

(** [KubeObjectInterface], as far as the reconciler reads it.  [kind] is
    absent on the items of a list response; [actionType] is set by the
    reconciler; [props] holds the remaining own properties ([spec],
    [status], ...) by name, their values kept as text. *)
Record KubeMetadata := mkMeta
  { uid : string;
    resourceVersion : option string }.

Record KubeObject := mkObj
  { kind : option string;
    metadata : KubeMetadata;
    actionType : option string;
    props : gmap string string }.

#[export] Instance KubeMetadata_eq_dec : EqDecision KubeMetadata.
Proof. solve_decision. Defined.

#[export] Instance KubeObject_eq_dec : EqDecision KubeObject.
Proof. solve_decision. Defined.

Definition set_kind (k : string) (o : KubeObject) : KubeObject :=
  mkObj (Some k) (metadata o) (actionType o) (props o).

Definition set_actionType (t : string) (o : KubeObject) : KubeObject :=
  mkObj (kind o) (metadata o) (Some t) (props o).

(** The own properties of [source] that [Object.assign(target, source)]
    writes as properties of [target].  It assigns with [target[key] =
    source[key]]: for the key "__proto__" that is the setter inherited from
    [Object.prototype], which stores no property, unless [target] has an
    own property of that name (an object from [JSON.parse] can).  The
    setter may replace the prototype of [target]; the prototype of an item
    is not part of the model, and [target] is taken to inherit the
    accessor still. *)
Definition assigned_props (target source : gmap string string) : gmap string string :=
  if bool_decide (is_Some (target !! "__proto__")) then source
  else delete "__proto__" source.

(** [Object.assign(target, source)]: every own property of [source] is
    assigned to [target]; the properties only [target] has stay.
    [metadata] is always an own property of the objects the reconciler
    handles (it reads [object.metadata.uid] first). *)
Definition Object_assign (target source : KubeObject) : KubeObject :=
  mkObj (match kind source with Some k => Some k | None => kind target end)
        (metadata source)
        (match actionType source with Some t => Some t | None => actionType target end)
        (assigned_props (props target) (props source) ∪ props target).

(** The names of the properties of [Object.prototype]: methods, and the
    accessor [__proto__]. *)
Definition Object_prototype_names : list string :=
  [ "constructor"; "hasOwnProperty"; "isPrototypeOf"; "propertyIsEnumerable";
    "toLocaleString"; "toString"; "valueOf"; "__proto__";
    "__defineGetter__"; "__defineSetter__"; "__lookupGetter__"; "__lookupSetter__" ].

(** [results] is a plain object, [{}], used as a map from UID to item.  It
    is represented by a finite map: under a name other than "__proto__",
    the own property of that name; under "__proto__", the item that
    [results['__proto__'] = item] has made the prototype of [results] (the
    assignment runs the setter of [Object.prototype] and stores no own
    property), and nothing while the prototype is [Object.prototype].
    The own properties of an item that has become the prototype are
    inherited by [results] too, and one named "__proto__" would shadow the
    accessor; [get_property] does not follow them, and the statements
    about one event read from [results] are made for a prototype that has
    not been replaced.

    [Got] is what [results[name]] gives. *)
Inductive Got :=
  | GotItem (item : KubeObject)   (* an own property, or the prototype item for "__proto__" *)
  | GotInherited                  (* a method of [Object.prototype], or [Object.prototype]
                                     itself: truthy, and without a [metadata] property *)
  | GotUndefined.

Definition get_property (results : gmap string KubeObject) (name : string) : Got :=
  match results !! name with
  | Some item => GotItem item
  | None =>
      if bool_decide (name ∈ Object_prototype_names) then GotInherited else GotUndefined
  end.

(** [delete results[name]] removes an own property; there is none named
    "__proto__", and the prototype stays. *)
Definition delete_property (name : string) (results : gmap string KubeObject)
  : gmap string KubeObject :=
  if bool_decide (name = "__proto__") then results else delete name results.

(** [Object.values(results)]: the values of the own properties, so not the
    prototype.  The order of the array is not part of the model. *)
Definition Object_values (results : gmap string KubeObject) : list KubeObject :=
  (map_to_list (delete "__proto__" results)).*2.

(** The list response of the snapshot request. *)
Record ListResponse := mkList
  { list_kind : string;
    items : list KubeObject;
    list_resourceVersion : option string }.

(** [ApiError]: [status] is absent on errors that are not HTTP errors. *)
Record ApiError := mkErr
  { status : option Z;
    message : string }.

(** What the code does to the outside, in program order. *)
Inductive Effect :=
  | Push (values : list KubeObject)   (* streamResults: [cb(values)] *)
  | ErrCb (err : ApiError)            (* [errCb(err, cancel)] *)
  | HttpRequest                       (* [request(url + asQuery(queryParams))] *)
  | ConsoleError (what : string)
  | ConsoleWarn (what : string)
  | ConnectCb                         (* stream: [connectCb()] *)
  | FailCb                            (* stream: [failCb()] *)
  | NewWebSocket (url : string) (created : bool)
  | SocketClose                       (* [socket.close()] *)
  | SetTimeoutConnect (ms : Z)        (* [setTimeout(connect, ms)] *)
  | LoggedException                   (* connectStream: [console.error(error)] *)
  | Uncaught.                         (* an exception leaves an event handler *)

#[export] Instance ApiError_eq_dec : EqDecision ApiError.
Proof. solve_decision. Defined.

#[export] Instance Effect_eq_dec : EqDecision Effect.
Proof. solve_decision. Defined.

Definition is_Push (e : Effect) : bool :=
  match e with Push _ => true | _ => false end.

(** ** The Framed Socket Wrapper: [connectStream] *)

Module ConnectStream.

(** The variables of one [connectStream] call.  [has_socket] is false
    when [new WebSocket] threw (the exception is caught and [socket]
    stays [null]); [listening] tells whether the three event listeners
    are attached. *)
Record Connection := mkConn
  { isClosing : bool;
    has_socket : bool;
    listening : bool }.

Definition create (created : bool) : Connection :=
  mkConn false created created.

(** [close()] *)
Definition close (c : Connection) : Connection * list Effect :=
  (mkConn true (has_socket c) (listening c),
   if has_socket c then [SocketClose] else []).

Section Handlers.
Context {Item Own : Type}.
(** [cb], acting on the variables [Own] of its owner. *)
Variable cb : Item -> Own -> Own * list Effect.
(** [onFail], acting on the variables [T] of the stream that owns the
    connection. *)
Context {T : Type}.
Variable onFail : T -> T * list Effect.

(** [onMessage(body)]; [body] is the item the message decodes to, [None]
    when [JSON.parse] throws. *)
Definition onMessage (body : option Item) (c : Connection) (s : Own)
  : Own * list Effect :=
  if isClosing c then (s, [])
  else match body with
       | Some item => cb item s
       | None => (s, [Uncaught])
       end.

(** [onClose(...args)] *)
Definition onClose (c : Connection) (t : T) : Connection * T * list Effect :=
  if isClosing c then (c, t, [])
  else if negb (has_socket c) then (mkConn true (has_socket c) (listening c), t, [])
  else
    let '(t', out) := onFail t in
    (mkConn true (has_socket c) false, t',
     ConsoleWarn "Socket closed unexpectedly" :: out).
End Handlers.

End ConnectStream.

(** ** The Retrying Stream: [stream] *)

Module Stream.
Import ConnectStream.

(** [StreamArgs], as far as [stream] reads them: which callbacks are
    given, and [reconnectOnFailure] when it is. *)
Record Args := mkArgs
  { isJson : bool;
    has_connectCb : bool;
    reconnectOnFailure_arg : option bool;
    has_failCb : bool }.

(** [const { ..., reconnectOnFailure = !failCb } = args] *)
Definition reconnectOnFailure (a : Args) : bool :=
  match reconnectOnFailure_arg a with
  | Some b => b
  | None => negb (has_failCb a)
  end.

(** The parameter [url] and the variables of one [stream] call.  [timers]
    counts the
    [setTimeout(connect, 3000)] calls that have not fired yet.
    [connection] is the latest connection: an earlier one is replaced only
    by [connect] run from a timer, which its own [onClose] started after
    setting [isClosing] and detaching its listeners, so it handles no
    event any more. *)
Record State := mkState
  { url : string;
    connection : option Connection;
    isCancelled : bool;
    timers : nat }.

(** Events of the host on the stream. *)
Inductive Event (Item : Type) :=
  | EvMessage (body : option Item)   (* 'message' on the current socket *)
  | EvClose                          (* 'close' on the current socket *)
  | EvTimer (created : bool).        (* a pending [connect] timer fires *)
Arguments EvMessage {Item} body.
Arguments EvClose {Item}.
Arguments EvTimer {Item} created.

Section Stream.
Context {Item Own : Type}.
Variable cb : Item -> Own -> Own * list Effect.
Variable args : Args.

(** [connect()]; when [new WebSocket] throws, [connectStream] catches the
    exception and logs it. *)
Definition connect (created : bool) (st : State) : State * list Effect :=
  (mkState (url st) (Some (create created)) (isCancelled st) (timers st),
   (if has_connectCb args then [ConnectCb] else [])
     ++ [NewWebSocket (url st) created]
     ++ (if created then [] else [LoggedException])).

(** [retryOnFail()] *)
Definition retryOnFail (st : State) : State * list Effect :=
  if isCancelled st then (st, [])
  else if reconnectOnFailure args
       then (mkState (url st) (connection st) (isCancelled st) (S (timers st)),
             [SetTimeoutConnect 3000])
       else (st, []).

(** [onFail()] *)
Definition onFail (st : State) : State * list Effect :=
  let out := if has_failCb args then [FailCb] else [] in
  if reconnectOnFailure args
  then let '(st', out') := retryOnFail st in (st', out ++ out')
  else (st, out).

(** [cancel()] *)
Definition cancel (st : State) : State * list Effect :=
  match connection st with
  | Some c =>
      let '(c', out) := close c in
      (mkState (url st) (Some c') true (timers st), out)
  | None => (mkState (url st) None true (timers st), [])
  end.

(** The body of [stream]: the variables are initialised and [connect]
    runs once. *)
Definition start (url : string) (created : bool) : State * list Effect :=
  connect created (mkState url None false 0).

(** One event of the host. *)
Definition step (ev : Event Item) (st : State) (s : Own)
  : State * Own * list Effect :=
  match ev with
  | EvMessage body =>
      match connection st with
      | Some c =>
          if listening c
          then let '(s', out) := onMessage cb body c s in (st, s', out)
          else (st, s, [])
      | None => (st, s, [])
      end
  | EvClose =>
      match connection st with
      | Some c =>
          if listening c
          then
            let '(c', st', out) := onClose onFail c st in
            (mkState (url st') (Some c') (isCancelled st') (timers st'), s, out)
          else (st, s, [])
      | None => (st, s, [])
      end
  | EvTimer created =>
      match timers st with
      | O => (st, s, [])
      | S n =>
          let '(st', out) :=
            connect created (mkState (url st) (connection st) (isCancelled st) n) in
          (st', s, out)
      end
  end.
End Stream.

End Stream.

(** ** The Snapshot+Watch Reconciler: [streamResults] *)

Module StreamResults.

(** A frame of the watch stream: [{ type, object }]. *)
Record WatchEvent := mkEvent
  { ev_type : string;
    ev_object : KubeObject }.

(** The variables of one [streamResults] call.  [requestPending] tells
    whether the promise of the snapshot request is still to settle. *)
Record State := mkState
  { results : gmap string KubeObject;
    isCancelled : bool;
    socket : option Stream.State;
    requestPending : bool }.

(** [stream(watchUrl, update, { isJson: true })] *)
Definition stream_args : Stream.Args := Stream.mkArgs true false None false.

Section Reconciler.
(** The Number a mathematical integer becomes: [parseInt] returns a
    double, so an integer beyond 2^53 is rounded.  Numbers are
    represented by the integer they denote. *)
Variable to_number : Z -> Z.
(** [url + asQuery({ ...queryParams, watch: '1', resourceVersion })] *)
Variable watchUrl : option string -> string.
(** [errCb && typeof errCb === 'function'] *)
Variable has_errCb : bool.

(** [a < b] on the results of [parseInt]: false when either is [NaN]. *)
Definition less_than (a b : option Z) : bool :=
  match a, b with
  | Some x, Some y => Z.ltb (to_number x) (to_number y)
  | _, _ => false
  end.

(** [push()] *)
Definition push (results : gmap string KubeObject) : list Effect :=
  [Push (Object_values results)].

(** The loop of [add]: [item.kind = fixedKind; results[item.metadata.uid] = item].
    The assignment stores an own property, also under a name that
    [results] inherits from [Object.prototype] (those are writable), and
    under "__proto__" it replaces the prototype. *)
Fixpoint add_items (fixedKind : string) (items : list KubeObject)
         (results : gmap string KubeObject) : gmap string KubeObject :=
  match items with
  | [] => results
  | item :: rest =>
      add_items fixedKind rest
                (<[uid (metadata item) := set_kind fixedKind item]> results)
  end.

(** [add(items, kind)] *)
Definition add (items : list KubeObject) (kind : string)
           (results : gmap string KubeObject)
  : gmap string KubeObject * list Effect :=
  let fixedKind := JS.slice_to_minus 4 kind in
  let results' := add_items fixedKind items results in
  (results', push results').

(** The [switch] of [update], on the object already tagged: the
    collection it leaves and the console output, or [None] when it throws.
    That is the MODIFIED case where [results[uid]] is inherited from
    [Object.prototype]: [existing] is truthy, [existing.metadata] is
    [undefined], and reading [resourceVersion] of it is a TypeError. *)
Definition switch (type : string) (object : KubeObject)
           (results : gmap string KubeObject)
  : option (gmap string KubeObject * list Effect) :=
  let key := uid (metadata object) in
  if String.eqb type "ADDED" then Some (<[key := object]> results, [])
  else if String.eqb type "MODIFIED" then
    match get_property results key with
    | GotItem existing =>
        if negb (JS.truthy (resourceVersion (metadata existing)))
           || negb (JS.truthy (resourceVersion (metadata object)))
        then Some (results, [ConsoleError "Missing resourceVersion in object"])
        else
          let currentVersion := JS.parseInt_of (resourceVersion (metadata existing)) in
          let newVersion := JS.parseInt_of (resourceVersion (metadata object)) in
          if less_than currentVersion newVersion
          then Some (<[key := Object_assign existing object]> results, [])
          else Some (results, [])
    | GotInherited => None
    | GotUndefined => Some (<[key := object]> results, [])
    end
  else if String.eqb type "DELETED" then Some (delete_property key results, [])
  else if String.eqb type "ERROR" then Some (results, [ConsoleError "Error in update"])
  else Some (results, [ConsoleError "Unknown update type"]).

(** [update({ type, object })]: the tag, the [switch], and [push()] when
    the [switch] has not thrown; an exception leaves [update] and the
    message handler that called it. *)
Definition update (type : string) (object : KubeObject)
           (results : gmap string KubeObject)
  : gmap string KubeObject * list Effect :=
  match switch type (set_actionType type object) results with
  | Some (results', out) => (results', out ++ push results')
  | None => (results, [Uncaught])
  end.

(** [update] as the callback of the watch stream. *)
Definition on_frame (e : WatchEvent) (results : gmap string KubeObject) :=
  update (ev_type e) (ev_object e) results.

(** The body of [streamResults] up to the first [await] of [run]: the
    variables are initialised and the snapshot is requested. *)
Definition start : State * list Effect :=
  (mkState ∅ false None true, [HttpRequest]).

(** [run] from the point where the request has resolved with
    [{ kind, items, metadata }]; [created] tells whether
    [new WebSocket] succeeds. *)
Definition run_resolved (response : ListResponse) (created : bool) (st : State)
  : State * list Effect :=
  if negb (requestPending st) then (st, [])
  else if isCancelled st
  then (mkState (results st) true (socket st) false, [])
  else
    let '(results', out1) := add (items response) (list_kind response) (results st) in
    let '(sock, out2) :=
      Stream.start stream_args (watchUrl (list_resourceVersion response)) created in
    (mkState results' false (Some sock) false, out1 ++ out2).

(** [run] from the point where the request has rejected with [err]: the
    [catch] block. *)
Definition run_rejected (err : ApiError) (st : State) : State * list Effect :=
  if negb (requestPending st) then (st, [])
  else
    (mkState (results st) (isCancelled st) (socket st) false,
     ConsoleError "Error in api request"
       :: (if has_errCb then [ErrCb err] else [])).

(** [cancel()] *)
Definition cancel (st : State) : State * list Effect :=
  if isCancelled st then (st, [])
  else
    match socket st with
    | Some sock =>
        let '(sock', out) := Stream.cancel sock in
        (mkState (results st) true (Some sock') (requestPending st), out)
    | None => (mkState (results st) true None (requestPending st), [])
    end.

(** An event of the host on the watch stream, once it exists. *)
Definition stream_event (ev : Stream.Event WatchEvent) (st : State)
  : State * list Effect :=
  match socket st with
  | Some sock =>
      let '(sock', results', out) :=
        Stream.step on_frame stream_args ev sock (results st) in
      (mkState results' (isCancelled st) (Some sock') (requestPending st), out)
  | None => (st, [])
  end.

(** What can happen to a [streamResults] call after it has started. *)
Inductive Event :=
  | Resolved (response : ListResponse) (created : bool)
  | Rejected (err : ApiError)
  | Cancel
  | OnStream (ev : Stream.Event WatchEvent).

Definition step (ev : Event) (st : State) : State * list Effect :=
  match ev with
  | Resolved response created => run_resolved response created st
  | Rejected err => run_rejected err st
  | Cancel => cancel st
  | OnStream e => stream_event e st
  end.

(** The events in order; the effects of each are kept apart. *)
Fixpoint run_events (evs : list Event) (st : State) : State * list (list Effect) :=
  match evs with
  | [] => (st, [])
  | ev :: rest =>
      let '(st', out) := step ev st in
      let '(st'', outs) := run_events rest st' in
      (st'', out :: outs)
  end.
End Reconciler.

End StreamResults.

(** ** The Multi-Endpoint Failover Router: [repeatStreamFunc] *)

Module RepeatStreamFunc.

(** What the router does: it starts the stream function of an endpoint,
    calls the cancel handle of a started stream, or calls the caller's
    [errCb] with the current value of [streamCancel] ([None]: the initial
    [() => {}]). *)
Inductive Effect :=
  | StartStream (index : nat)        (* [endpoint[funcName](...args, cancel)] *)
  | CancelStream (index : nat)       (* the handle of that stream is called *)
  | CallErrCb (err : ApiError) (streamCancel : option nat)
  | Reject.                          (* [endpoint] is undefined: TypeError *)

(** The variables of one [repeatStreamFunc] call.  A cancel handle is the
    index of the endpoint whose stream it cancels.  [awaiting] lists the
    streams started whose [await] has not resumed yet, oldest first. *)
Record State := mkState
  { isCancelled : bool;
    streamCancel : option nat;
    endpointIndex : nat;
    awaiting : list nat }.

Section Router.
(** [apiEndpoints.length] *)
Variable endpoints : nat.
(** [!!errCb] *)
Variable has_errCb : bool.

(** [runStreamFunc(endpointIndex, funcName, cancel, ...args)] *)
Definition runStreamFunc (index : nat) : Effect :=
  if (index <? endpoints)%nat then StartStream index else Reject.

(** The body of [repeatStreamFunc] up to its [await]. *)
Definition start : State * list Effect :=
  (mkState false None 1 (if (0 <? endpoints)%nat then [0%nat] else []),
   [runStreamFunc 0]).

(** An [await] resumes: [streamCancel = <the handle>]. *)
Definition resume (st : State) : State :=
  match awaiting st with
  | [] => st
  | h :: rest => mkState (isCancelled st) (Some h) (endpointIndex st) rest
  end.

(** [cancel(err, cancelStream)], the error callback handed to every
    stream, up to its [await]. *)
Definition cancel (err : ApiError) (cancelStream : option nat) (st : State)
  : State * list Effect :=
  if isCancelled st then (st, [])
  else if bool_decide (status err = Some 404) && (endpointIndex st <? endpoints)%nat
  then
    (mkState false (streamCancel st) (S (endpointIndex st))
             (awaiting st ++ [endpointIndex st]),
     (match cancelStream with Some c => [CancelStream c] | None => [] end)
       ++ [runStreamFunc (endpointIndex st)])
  else if has_errCb then (st, [CallErrCb err (streamCancel st)])
  else (st, []).

(** The function [repeatStreamFunc] returns. *)
Definition returned_cancel (st : State) : State * list Effect :=
  (mkState true (streamCancel st) (endpointIndex st) (awaiting st),
   match streamCancel st with Some c => [CancelStream c] | None => [] end).
End Router.

(** *** The router together with the streams it starts

    A stream is a [streamResults] or [streamResult] call; both run
    [try { await request(..); if (isCancelled) return; cb(..); socket =
    stream(..) } catch (err) { errCb(err, cancel) }].  A stream is
    [Fetching] until the request settles, [Streaming] once the socket is
    requested and [Finished] when [run] ended without one. *)
Inductive Phase := NotStarted | Fetching | Streaming | Finished.

Record Candidate := mkCand
  { phase : Phase;
    cancelled : bool }.

Record System := mkSys
  { router : State;
    candidates : list Candidate }.

Inductive Event :=
  | RequestResolved (index : nat)
  | RequestRejected (index : nat) (err : ApiError)
  | Frame (index : nat)              (* a message on the socket of the stream *)
  | AwaitResumed
  | ReturnedCancel.

(** What an observer of the whole sees: the router's effects, and data
    that a stream hands to the caller's [cb]. *)
Inductive Observation :=
  | Router (e : Effect)
  | Deliver (index : nat).

Definition is_active (c : Candidate) : bool :=
  match phase c with
  | Fetching | Streaming => true
  | _ => false
  end.

(** The effect of a router action on the streams.  A cancelled stream that
    is [Streaming] stays so: the model does not rely on [cancel] to
    silence it. *)
Definition apply_effect (e : Effect) (cs : list Candidate) : list Candidate :=
  match e with
  | StartStream i => <[i := mkCand Fetching false]> cs
  | CancelStream i =>
      match cs !! i with
      | Some c => <[i := mkCand (phase c) true]> cs
      | None => cs
      end
  | _ => cs
  end.

Definition apply_effects (es : list Effect) (cs : list Candidate) : list Candidate :=
  foldl (fun cs e => apply_effect e cs) cs es.

Section System.
Variable endpoints : nat.
Variable has_errCb : bool.

Definition initial : System * list Observation :=
  let '(r, out) := start endpoints in
  (mkSys r (apply_effects out (replicate endpoints (mkCand NotStarted false))),
   Router <$> out).

Definition sys_step (ev : Event) (s : System) : System * list Observation :=
  match ev with
  | RequestResolved i =>
      match candidates s !! i with
      | Some (mkCand Fetching false) =>
          (mkSys (router s) (<[i := mkCand Streaming false]> (candidates s)),
           [Deliver i])
      | Some (mkCand Fetching true) =>
          (mkSys (router s) (<[i := mkCand Finished true]> (candidates s)), [])
      | _ => (s, [])
      end
  | RequestRejected i err =>
      match candidates s !! i with
      | Some (mkCand Fetching c) =>
          let cs := <[i := mkCand Finished c]> (candidates s) in
          let '(r, out) := cancel endpoints has_errCb err (Some i) (router s) in
          (mkSys r (apply_effects out cs), Router <$> out)
      | _ => (s, [])
      end
  | Frame i =>
      match candidates s !! i with
      | Some (mkCand Streaming _) => (s, [Deliver i])
      | _ => (s, [])
      end
  | AwaitResumed => (mkSys (resume (router s)) (candidates s), [])
  | ReturnedCancel =>
      let '(r, out) := returned_cancel (router s) in
      (mkSys r (apply_effects out (candidates s)), Router <$> out)
  end.

Fixpoint sys_run (evs : list Event) (s : System) : System :=
  match evs with
  | [] => s
  | ev :: rest => sys_run rest (sys_step ev s).1
  end.
End System.

End RepeatStreamFunc.

(** ** The Connection Multiplexer: [WebSocketManager] *)

Module WebSocketManager.

Inductive ReadyState := CONNECTING | OPEN | CLOSING | CLOSED.

#[export] Instance ReadyState_eq_dec : EqDecision ReadyState.
Proof. solve_decision. Defined.

Inductive MessageType := REQUEST | CLOSE | COMPLETE.

(** [WebSocketMessage], the control frame the manager sends. *)
Record WebSocketMessage := mkMsg
  { msg_clusterId : string;
    msg_path : string;
    msg_query : string;
    msg_userId : string;
    msg_type : MessageType }.

(** An inbound frame that is a JSON object: the properties the manager
    reads, each a string or absent. *)
Record Frame := mkFrame
  { clusterId : option string;
    path : option string;
    query : option string;
    userId : option string;
    type : option string;
    data : option string }.

(** [JSON.parse(event.data)]: it throws, or gives [null], a value with no
    properties to read (a number, a string, a boolean, an array), or an
    object. *)
Inductive Parsed :=
  | SyntaxError
  | JsonNull
  | JsonOther
  | JsonObject (frame : Frame).

(** What a listener receives: [JSON.parse(data.data)], named by the text
    it was parsed from, or the frame itself. *)
Inductive Update :=
  | ParsedData (text : string)
  | WholeFrame (frame : Frame).

(** A listener is named by a number: two [onMessage] functions are the
    same element of a [Set] exactly when they are the same function. *)
Definition Listener := nat.

Inductive Effect :=
  | Invoke (listener : Listener) (update : Update)
  | Send (msg : WebSocketMessage)        (* [socket.send(JSON.stringify(msg))] *)
  | LogError (what : string)             (* [console.error] *)
  | LogInfo (what : string)              (* [console.log] *)
  | CloseSocket                          (* [this.socket.close()] *)
  | OpenSocket                           (* [new WebSocket(wsUrl)] *)
  | SetInterval (ms : Z)
  | SetTimeoutConnect (ms : Z).

#[export] Instance MessageType_eq_dec : EqDecision MessageType.
Proof. solve_decision. Defined.
#[export] Instance WebSocketMessage_eq_dec : EqDecision WebSocketMessage.
Proof. solve_decision. Defined.
#[export] Instance Frame_eq_dec : EqDecision Frame.
Proof. solve_decision. Defined.
#[export] Instance Update_eq_dec : EqDecision Update.
Proof. solve_decision. Defined.
#[export] Instance Effect_eq_dec : EqDecision Effect.
Proof. solve_decision. Defined.

Definition is_Invoke (e : Effect) : bool :=
  match e with Invoke _ _ => true | _ => false end.

Definition is_Send (e : Effect) : bool :=
  match e with Send _ => true | _ => false end.

(** The fields of the manager.  [socket] is [null] or a socket, of which
    the manager reads the [readyState]; a [Set] of listeners is the list
    of its elements in insertion order. *)
Record State := mkState
  { socket : option ReadyState;
    connecting : bool;
    listeners : gmap string (list Listener);
    completedPaths : gset string }.

Definition initial : State := mkState None false ∅ ∅.

(** [set.add(l)] and [set.delete(l)] *)
Definition Set_add (l : Listener) (set : list Listener) : list Listener :=
  if bool_decide (l ∈ set) then set else set ++ [l].

Definition Set_delete (l : Listener) (set : list Listener) : list Listener :=
  filter (fun x => x ≠ l) set.

(** [this.socket?.readyState === WebSocket.OPEN] *)
Definition socket_open (st : State) : bool :=
  bool_decide (socket st = Some OPEN).

(** [createKey(clusterId, path, query)] *)
Definition createKey (clusterId path query : string) : string :=
  (clusterId +:+ ":" +:+ path +:+ ":" +:+ query)%string.

Section Manager.
(** Whether a listener throws when called with an update.  Listeners are
    taken not to call back into the manager while they run. *)
Variable throws : Listener -> Update -> bool.
(** Whether [JSON.parse] accepts the text of a nested payload. *)
Variable json_ok : string -> bool.

(** [set.forEach(listener => listener(update))]: the listeners are
    called in insertion order; the first that throws ends the loop.  The
    boolean tells whether one threw. *)
Fixpoint forEach (set : list Listener) (update : Update) : list Effect * bool :=
  match set with
  | [] => ([], false)
  | l :: rest =>
      if throws l update then ([Invoke l update], true)
      else let '(out, thrown) := forEach rest update in
           (Invoke l update :: out, thrown)
  end.

(** [handleCompletionMessage(data, key)] *)
Definition handleCompletionMessage (frame : Frame) (key : string) (st : State)
  : State * list Effect :=
  (mkState (socket st) (connecting st) (listeners st) ({[key]} ∪ completedPaths st),
   if socket_open st
   then [Send (mkMsg (JS.or_empty (clusterId frame)) (JS.or_empty (path frame))
                     (JS.or_empty (query frame)) (JS.or_empty (userId frame)) CLOSE)]
   else []).

(** The key an inbound frame is handled under, when it has a cluster and
    a path. *)
Definition frame_key (frame : Frame) : option string :=
  if JS.truthy (clusterId frame) && JS.truthy (path frame)
  then Some (createKey (JS.or_empty (clusterId frame)) (JS.or_empty (path frame))
                       (JS.or_empty (query frame)))
  else None.

(** [data.data ? JSON.parse(data.data) : data]; [None] when
    [JSON.parse] throws. *)
Definition decode_update (frame : Frame) : option Update :=
  if JS.truthy (data frame)
  then if json_ok (JS.or_empty (data frame))
       then Some (ParsedData (JS.or_empty (data frame)))
       else None
  else Some (WholeFrame frame).

(** [handleWebSocketMessage(event)]; [parsed] is what
    [JSON.parse(event.data)] gives. *)
Definition handleWebSocketMessage (parsed : Parsed) (st : State)
  : State * list Effect :=
  let failed := [LogError "Failed to parse WebSocket message:"] in
  match parsed with
  | SyntaxError => (st, failed)
  | JsonNull => (st, failed)
  | JsonOther => (st, [])
  | JsonObject frame =>
      match frame_key frame with
      | None => (st, [])
      | Some key =>
          if bool_decide (type frame = Some "COMPLETE")
          then handleCompletionMessage frame key st
          else if bool_decide (key ∈ completedPaths st) then (st, [])
          else
            match decode_update frame with
            | None => (st, failed)
            | Some update =>
                match listeners st !! key with
                | None => (st, [])
                | Some set =>
                    let '(out, thrown) := forEach set update in
                    (st, out ++ (if thrown then failed else []))
                end
            end
      end
  end.

(** [handleWebSocketClose()] *)
Definition handleWebSocketClose (st : State) : State * list Effect :=
  (mkState None false (listeners st) (completedPaths st),
   LogInfo "WebSocket closed, attempting reconnect..."
     :: (if bool_decide (size (listeners st) = 0%nat) then []
         else [SetTimeoutConnect 1000])).

(** [connect()] up to the promise it returns. *)
Definition connect (st : State) : State * list Effect :=
  if socket_open st then (st, [])
  else if connecting st then (st, [SetInterval 100])
  else (mkState (socket st) true (listeners st) (completedPaths st), [OpenSocket]).

(** [socket.onopen] and [socket.onerror] *)
Definition onopen (st : State) : State * list Effect :=
  (mkState (Some OPEN) false (listeners st) (completedPaths st), []).

Definition onerror (st : State) : State * list Effect :=
  (mkState (socket st) false (listeners st) (completedPaths st),
   [LogError "WebSocket error:"]).

(** [subscribe(clusterId, path, query, onMessage)] up to its [await]. *)
Definition subscribe (clusterId path query : string) (onMessage : Listener)
           (st : State) : State * list Effect :=
  let key := createKey clusterId path query in
  let set := match listeners st !! key with Some set => set | None => [] end in
  connect (mkState (socket st) (connecting st)
                   (<[key := Set_add onMessage set]> (listeners st))
                   (completedPaths st)).

(** [subscribe] from the point where [connect()] has resolved: the
    request is sent on the socket it resolved with. *)
Definition subscribe_connected (clusterId path query : string)
           (userId : option string) (st : State) : State * list Effect :=
  (st, [Send (mkMsg clusterId path query (JS.or_empty userId) REQUEST)]).

(** [handleUnsubscribe(key, onMessage, userId, path, query)] *)
Definition handleUnsubscribe (key : string) (onMessage : Listener)
           (userId : option string) (path query : string) (st : State)
  : State * list Effect :=
  let '(st1, out1) :=
    match listeners st !! key with
    | Some set =>
        let set' := Set_delete onMessage set in
        if bool_decide (length set' = 0%nat)
        then
          (mkState (socket st) (connecting st) (delete key (listeners st))
                   (completedPaths st ∖ {[key]}),
           if socket_open st
           then [Send (mkMsg (JS.split_colon_first key) path query
                             (JS.or_empty userId) CLOSE)]
           else [])
        else
          (mkState (socket st) (connecting st) (<[key := set']> (listeners st))
                   (completedPaths st), [])
    | None => (st, [])
    end in
  if bool_decide (size (listeners st1) = 0%nat) && bool_decide (socket st1 ≠ None)
  then (mkState None (connecting st1) (listeners st1) (completedPaths st1),
        out1 ++ [CloseSocket])
  else (st1, out1).

(** Everything that can happen to the manager. *)
Inductive Op :=
  | Subscribe (clusterId path query : string) (onMessage : Listener)
  | SubscribeConnected (clusterId path query : string) (userId : option string)
  | Unsubscribe (key : string) (onMessage : Listener) (userId : option string)
                (path query : string)
  | OnMessage (parsed : Parsed)
  | OnOpen
  | OnError
  | OnClose
  | ReconnectTimer                      (* [setTimeout(() => this.connect(), 1000)] fires *)
  | ReadyStateChanged (rs : ReadyState). (* the host moves [this.socket.readyState] *)

Definition step (op : Op) (st : State) : State * list Effect :=
  match op with
  | Subscribe c p q l => subscribe c p q l st
  | SubscribeConnected c p q u => subscribe_connected c p q u st
  | Unsubscribe k l u p q => handleUnsubscribe k l u p q st
  | OnMessage parsed => handleWebSocketMessage parsed st
  | OnOpen => onopen st
  | OnError => onerror st
  | OnClose => handleWebSocketClose st
  | ReconnectTimer => connect st
  | ReadyStateChanged rs =>
      (mkState (match socket st with Some _ => Some rs | None => None end)
               (connecting st) (listeners st) (completedPaths st), [])
  end.

Fixpoint run (ops : list Op) (st : State) : State * list (list Effect) :=
  match ops with
  | [] => (st, [])
  | op :: rest =>
      let '(st', out) := step op st in
      let '(st'', outs) := run rest st' in
      (st'', out :: outs)
  end.

(** The function [subscribe] resolves with. *)
Definition unsubscribe_of (clusterId path query : string) (onMessage : Listener)
           (userId : option string) : Op :=
  Unsubscribe (createKey clusterId path query) onMessage userId path query.
End Manager.

End WebSocketManager.

(** ** Paths: [combinePath], [getApiRoot] and the URLs built from them *)

Module Paths.

(** [s.endsWith('/')] and [s.startsWith('/')] *)
Fixpoint endsWith_slash (s : string) : bool :=
  match s with
  | EmptyString => false
  | String c EmptyString => Ascii.eqb c "/"
  | String _ s' => endsWith_slash s'
  end.

Definition startsWith_slash (s : string) : bool :=
  match s with
  | String c _ => Ascii.eqb c "/"
  | EmptyString => false
  end.

(** [s.slice(1)] *)
Definition slice_from_1 (s : string) : string :=
  match s with
  | String _ s' => s'
  | EmptyString => ""
  end.

(** [combinePath(base, path)] *)
Definition combinePath (base path : string) : string :=
  let base := if endsWith_slash base then JS.slice_to_minus 1 base else base in
  let path := if startsWith_slash path then slice_from_1 path else path in
  base +:+ "/" +:+ path.

Definition CLUSTERS_PREFIX : string := "clusters".

(** The URL [connectStream] and [clusterRequest] build before the query is
    appended: [cluster] is the current cluster, falsy when there is none. *)
Definition endpoint_url (base : string) (cluster : option string) (path : string)
  : string :=
  let fullPath :=
    if JS.truthy cluster
    then combinePath ("/" +:+ CLUSTERS_PREFIX +:+ "/" +:+ JS.or_empty cluster) path
    else path in
  combinePath base fullPath.

(** [getApiRoot(group, version)] *)
Definition getApiRoot (group version : string) : string :=
  if JS.truthy (Some group)
  then "/apis/" +:+ group +:+ "/" +:+ version
  else "api/" +:+ version.

(** [url] of [singleApiFactory], and [url(namespace)] of
    [simpleApiFactoryWithNamespace]. *)
Definition resource_url (apiRoot resource : string) : string :=
  apiRoot +:+ "/" +:+ resource.

Definition namespaced_url (apiRoot resource namespace : string) : string :=
  if JS.truthy (Some namespace)
  then apiRoot +:+ "/namespaces/" +:+ namespace +:+ "/" +:+ resource
  else apiRoot +:+ "/" +:+ resource.

End Paths.

(** ** [resourceDefToApiFactory] *)

Module ResourceDef.

(** [s.split('/')] *)
Fixpoint split_slash (s : string) : list string :=
  match s with
  | EmptyString => [""]
  | String c s' =>
      if Ascii.eqb c "/" then "" :: split_slash s'
      else match split_slash s' with
           | h :: t => String c h :: t
           | [] => [String c ""]
           end
  end.

(** [s.toLowerCase()] on code units below 256: A-Z and the capital letters
    of Latin-1 (U+00C0 to U+00DE, the multiplication sign apart) move up by
    32. *)
Definition toLowerCase_unit (c : ascii) : ascii :=
  let n := nat_of_ascii c in
  if ((65 <=? n)%nat && (n <=? 90)%nat)
     || ((192 <=? n)%nat && (n <=? 214)%nat)
     || ((216 <=? n)%nat && (n <=? 222)%nat)
  then ascii_of_nat (n + 32) else c.

Fixpoint toLowerCase (s : string) : string :=
  match s with
  | EmptyString => ""
  | String c s' => String (toLowerCase_unit c) (toLowerCase s')
  end.

(** The properties of a resource definition that the function reads. *)
Record Definition_ := mkDef
  { def_kind : option string;
    def_apiVersion : option string;
    def_namespace : option string }.   (* [metadata?.namespace] *)

(** What [factoryFunc(apiGroup, apiVersion, resourcePlural)] is called
    with, and which factory it is. *)
Record Factory := mkFactory
  { isNamespaced : bool;                (* [apiFactoryWithNamespace] or [apiFactory] *)
    apiGroup : string;
    apiVersion : string;
    resourcePlural : string }.

#[export] Instance Factory_eq_dec : EqDecision Factory.
Proof. solve_decision. Defined.

(** [`${v}`] in the error messages *)
Definition show (v : option string) : string :=
  match v with
  | Some s => s
  | None => "undefined"
  end.

Section ResourceDef.
(** [ResourceClasses[kind]?.pluralName], of the resource-class registry. *)
Variable pluralName : string -> option string.

(** [resourceDefToApiFactory(resourceDef)]: the error thrown, or the
    factory call made. *)
Definition resourceDefToApiFactory (resourceDef : Definition_) : string + Factory :=
  if negb (JS.truthy (def_kind resourceDef))
  then inl ("Cannot handle unknown resource kind: " +:+ show (def_kind resourceDef))
  else if negb (JS.truthy (def_apiVersion resourceDef))
  then inl "Definition has no apiVersion"
  else
    let parts := split_slash (JS.or_empty (def_apiVersion resourceDef)) in
    let apiGroup := parts !! 0%nat in
    let apiVersion := parts !! 1%nat in
    let '(apiGroup, apiVersion) :=
      if JS.truthy apiGroup && negb (JS.truthy apiVersion)
      then (Some "", apiGroup)
      else (apiGroup, apiVersion) in
    if negb (JS.truthy apiVersion)
    then inl ("apiVersion has no version string: " +:+ show (def_apiVersion resourceDef))
    else
      let kind := JS.or_empty (def_kind resourceDef) in
      let resourcePlural :=
        if JS.truthy (pluralName kind)
        then JS.or_empty (pluralName kind)
        else toLowerCase kind +:+ "s" in
      inr (mkFactory (JS.truthy (def_namespace resourceDef))
                     (JS.or_empty apiGroup) (JS.or_empty apiVersion) resourcePlural).
End ResourceDef.

(** The URL the factory lists under: [singleApiFactory]'s [url], or
    [simpleApiFactoryWithNamespace]'s [url(namespace)]. *)
Definition list_url (f : Factory) (namespace : string) : string :=
  let apiRoot := Paths.getApiRoot (apiGroup f) (apiVersion f) in
  if isNamespaced f
  then Paths.namespaced_url apiRoot (resourcePlural f) namespace
  else Paths.resource_url apiRoot (resourcePlural f).

End ResourceDef.

(** ** [repeatFactoryMethod] *)

Module RepeatFactoryMethod.

(** What the call of an endpoint's method gives: the promise resolves, or
    rejects with an error. *)
Inductive Outcome :=
  | Returns (value : string)
  | Throws (err : ApiError).

#[export] Instance Outcome_eq_dec : EqDecision Outcome.
Proof. solve_decision. Defined.

(** The loop over [apiEndpoints], from the endpoint at the head of the
    list: the number of endpoints called and what the returned promise does,
    [None] when it resolves with [undefined] (no endpoint at all).  The test
    [i !== apiEndpoints.length - 1] is that endpoints remain. *)
Fixpoint repeatFactoryMethod (endpoints : list Outcome) : nat * option Outcome :=
  match endpoints with
  | [] => (0%nat, None)
  | outcome :: rest =>
      match outcome with
      | Returns _ => (1%nat, Some outcome)
      | Throws err =>
          if bool_decide (status err = Some 404) && negb (bool_decide (rest = []))
          then let '(calls, result) := repeatFactoryMethod rest in (S calls, result)
          else (1%nat, Some outcome)
      end
  end.

Definition is_not_found (o : Outcome) : bool :=
  match o with
  | Throws err => bool_decide (status err = Some 404)
  | Returns _ => false
  end.

End RepeatFactoryMethod.

(** ** [clusterRequest], from the outcome of [fetch] on *)

Module ClusterRequest.

(** The body of a response, as [response.json()] reads it: not JSON (the
    promise rejects), [null], or a value with its [message] property. *)
Inductive Body :=
  | NotJson
  | JsonNull
  | JsonValue (message : option string).

Record Response := mkResponse
  { resp_status : Z;
    resp_statusText : string;
    x_reload : bool;       (* the X-Reload header is there and holds 'reload' *)
    resp_body : Body }.

(** [response.ok] *)
Definition ok (r : Response) : bool :=
  Z.leb 200 (resp_status r) && Z.leb (resp_status r) 299.

(** [fetch] resolves, is aborted by the timeout, or fails otherwise. *)
Inductive FetchOutcome :=
  | Fetched (r : Response)
  | AbortError
  | Failure.

Inductive Effect :=
  | Reload                   (* [window.location.reload()] *)
  | Logout                   (* [logout()] *)
  | LogError (what : string).

(** What the promise of [clusterRequest] does. *)
Inductive Settled :=
  | ResolvesResponse (r : Response)
  | ResolvesJson (body : Body)
  | RejectsApiError (err : ApiError)
  | RejectsSyntaxError.

(** The parameters read after the fetch. *)
Record Options := mkOptions
  { isJSON : bool;
    autoLogoutOnAuthError : bool;
    has_Authorization : bool }.   (* [opts.headers.Authorization] is truthy *)

(** The response the code goes on with. *)
Definition response_of (o : FetchOutcome) : Response :=
  match o with
  | Fetched r => r
  | AbortError => mkResponse 408 "Request timed-out" false NotJson
  | Failure => mkResponse 502 "Unreachable" false NotJson
  end.

(** [clusterRequest] from the [await fetch(url, requestData)] on. *)
Definition settle (opts : Options) (o : FetchOutcome) : Settled * list Effect :=
  let response := response_of o in
  let reload := if x_reload response then [Reload] else [] in
  if negb (ok response)
  then
    let logout :=
      if autoLogoutOnAuthError opts && bool_decide (resp_status response = 401)
         && has_Authorization opts
      then [LogError "Logging out due to auth error"; Logout] else [] in
    let '(message, log) :=
      if isJSON opts
      then match resp_body response with
           | JsonValue m =>
               (resp_statusText response +:+ " - " +:+ ResourceDef.show m, [])
           | _ => (resp_statusText response, [LogError "Unable to parse error json at url:"])
           end
      else (resp_statusText response, []) in
    (RejectsApiError (mkErr (Some (resp_status response)) message),
     reload ++ logout ++ log)
  else if negb (isJSON opts) then (ResolvesResponse response, reload)
  else match resp_body response with
       | NotJson => (RejectsSyntaxError, reload)
       | body => (ResolvesJson body, reload)
       end.

End ClusterRequest.

(** ** The Single-Resource Reconciler: [streamResult] *)

Module StreamResult.

(** The variables of one [streamResult] call; [delivered] lists what [cb]
    has been called with, in order. *)
Record State := mkState
  { isCancelled : bool;
    socket : option Stream.State;
    requestPending : bool;
    delivered : list KubeObject }.

(** [x => cb(x.object)], the callback of the watch stream. *)
Definition on_frame (x : StreamResults.WatchEvent) (delivered : list KubeObject)
  : list KubeObject * list Effect :=
  (delivered ++ [StreamResults.ev_object x], []).

Section Reconciler.
(** [url + asQuery({ ...queryParams, watch: '1', fieldSelector:
    `metadata.name=${name}` })] *)
Variable watchUrl : string.
(** [errCb && typeof errCb === 'function'] *)
Variable has_errCb : bool.

Definition start : State * list Effect :=
  (mkState false None true [], [HttpRequest]).

(** [run] from the point where the request has resolved with [item]. *)
Definition run_resolved (item : KubeObject) (created : bool) (st : State)
  : State * list Effect :=
  if negb (requestPending st) then (st, [])
  else if isCancelled st
  then (mkState true (socket st) false (delivered st), [])
  else
    let '(sock, out) := Stream.start StreamResults.stream_args watchUrl created in
    (mkState false (Some sock) false (delivered st ++ [item]), out).

(** [run] from the point where the request has rejected: the [catch]
    block. *)
Definition run_rejected (err : ApiError) (st : State) : State * list Effect :=
  if negb (requestPending st) then (st, [])
  else
    (mkState (isCancelled st) (socket st) false (delivered st),
     ConsoleError "Error in api request" :: (if has_errCb then [ErrCb err] else [])).

(** [cancel()] *)
Definition cancel (st : State) : State * list Effect :=
  if isCancelled st then (st, [])
  else
    match socket st with
    | Some sock =>
        let '(sock', out) := Stream.cancel sock in
        (mkState true (Some sock') (requestPending st) (delivered st), out)
    | None => (mkState true None (requestPending st) (delivered st), [])
    end.

Definition stream_event (ev : Stream.Event StreamResults.WatchEvent) (st : State)
  : State * list Effect :=
  match socket st with
  | Some sock =>
      let '(sock', delivered', out) :=
        Stream.step on_frame StreamResults.stream_args ev sock (delivered st) in
      (mkState (isCancelled st) (Some sock') (requestPending st) delivered', out)
  | None => (st, [])
  end.
End Reconciler.

End StreamResult.

(** ** Runs *)

(** The events of the host on a stream, in order. *)
Fixpoint stream_run {Item Own : Type} (cb : Item -> Own -> Own * list Effect)
         (args : Stream.Args) (evs : list (Stream.Event Item))
         (st : Stream.State) (own : Own) : Stream.State * Own * list (list Effect) :=
  match evs with
  | [] => (st, own, [])
  | ev :: rest =>
      let '(st', own', out) := Stream.step cb args ev st own in
      let '(st'', own'', outs) := stream_run cb args rest st' own' in
      (st'', own'', out :: outs)
  end.

(** What is observed over the events of a router and its streams. *)
Fixpoint sys_trace (endpoints : nat) (has_errCb : bool)
         (evs : list RepeatStreamFunc.Event) (s : RepeatStreamFunc.System)
  : list RepeatStreamFunc.Observation :=
  match evs with
  | [] => []
  | ev :: rest =>
      (RepeatStreamFunc.sys_step endpoints has_errCb ev s).2
        ++ sys_trace endpoints has_errCb rest
                     (RepeatStreamFunc.sys_step endpoints has_errCb ev s).1
  end.

Definition started (o : RepeatStreamFunc.Observation) : option nat :=
  match o with
  | RepeatStreamFunc.Router (RepeatStreamFunc.StartStream i) => Some i
  | _ => None
  end.

Definition is_CallErrCb (o : RepeatStreamFunc.Observation) : bool :=
  match o with
  | RepeatStreamFunc.Router (RepeatStreamFunc.CallErrCb _ _) => true
  | _ => false
  end.

Definition is_NewWebSocket (e : Effect) : bool :=
  match e with NewWebSocket _ _ => true | _ => false end.

Definition is_SetTimeoutConnect (e : Effect) : bool :=
  match e with SetTimeoutConnect _ => true | _ => false end.

Definition is_OpenSocket (e : WebSocketManager.Effect) : bool :=
  match e with WebSocketManager.OpenSocket => true | _ => false end.

Definition is_FailCb (e : Effect) : bool :=
  match e with FailCb => true | _ => false end.

(** Every item of a collection is stored under its own UID. *)
Definition keyed_by_uid (results : gmap string KubeObject) : Prop :=
  forall (u : string) (item : KubeObject),
    results !! u = Some item -> uid (metadata item) = u.

(** ** Vocabulary of the statements *)

(** The version number of an item: [parseInt(item.metadata.resourceVersion, 10)]
    as a mathematical integer, [None] when it is [NaN]. *)
Definition version (o : KubeObject) : option Z :=
  JS.parseInt_of (resourceVersion (metadata o)).

(** [new] carries a strictly greater version number than [old]. *)
Definition newer (old new : KubeObject) : Prop :=
  exists c n : Z, version old = Some c /\ version new = Some n /\ c < n.

(** A sequence of MODIFIED events, applied in order. *)
Definition apply_modified (to_number : Z -> Z) (objects : list KubeObject)
           (results : gmap string KubeObject) : gmap string KubeObject :=
  foldl (fun r o => (StreamResults.update to_number "MODIFIED" o r).1) results objects.

(** A Number that is the integer itself, as for every integer up to 2^53. *)
Definition exact_number (z : Z) : Z := z.

(** The items of the first end-to-end scenario. *)
Definition pod (u rv : string) : KubeObject :=
  mkObj None (mkMeta u (Some rv)) None ∅.

Definition stored_pod (u rv : string) : KubeObject :=
  mkObj (Some "Pod") (mkMeta u (Some rv)) None ∅.

(** A watch that loses its socket, is cancelled while the reconnect timer is
    pending (twice, to no further effect), and then sees the timer fire and a
    frame arrive on the new socket. *)
Definition cancel_during_retry : list StreamResults.Event :=
  [ StreamResults.Resolved (mkList "PodList" [pod "1" "5"] (Some "5")) true;
    StreamResults.OnStream Stream.EvClose;
    StreamResults.Cancel;
    StreamResults.Cancel;
    StreamResults.OnStream (Stream.EvTimer true);
    StreamResults.OnStream
      (Stream.EvMessage (Some (StreamResults.mkEvent "ADDED" (pod "2" "9")))) ].

(** A listener is registered under a key. *)
Definition registered (st : WebSocketManager.State) (key : string)
           (l : WebSocketManager.Listener) : Prop :=
  exists set : list WebSocketManager.Listener,
    WebSocketManager.listeners st !! key = Some set /\ l ∈ set.

Fixpoint has_colon (s : string) : bool :=
  match s with
  | String c s' => Ascii.eqb c ":" || has_colon s'
  | EmptyString => false
  end.

(** Listeners that never throw, and the one numbered 1 throwing. *)
Definition quiet : WebSocketManager.Listener -> WebSocketManager.Update -> bool :=
  fun _ _ => false.

Definition first_throws : WebSocketManager.Listener -> WebSocketManager.Update -> bool :=
  fun l _ => Nat.eqb l 1.

Definition any_json : string -> bool := fun _ => true.

(** The key of the second end-to-end scenario and frames for it. *)
Definition pods_key : string := WebSocketManager.createKey "c1" "/api/v1/pods" "".

Definition pods_frame (type data : option string) : WebSocketManager.Frame :=
  WebSocketManager.mkFrame (Some "c1") (Some "/api/v1/pods") None None type data.

(** Two listeners under [pods_key]; the socket open, or dropped and not yet
    reopened. *)
Definition two_listeners (socket : option WebSocketManager.ReadyState)
  : WebSocketManager.State :=
  WebSocketManager.mkState socket false {[pods_key := [1%nat; 2%nat]]} ∅.

Definition one_listener (socket : option WebSocketManager.ReadyState)
  : WebSocketManager.State :=
  WebSocketManager.mkState socket false {[pods_key := [1%nat]]} ∅.

(** A subscription to a cluster whose name holds a colon, from the first
    call to the unsubscribe. *)
Definition colon_cluster_session : list WebSocketManager.Op :=
  [ WebSocketManager.Subscribe "arn:aws" "/api/v1/pods" "" 1%nat;
    WebSocketManager.OnOpen;
    WebSocketManager.SubscribeConnected "arn:aws" "/api/v1/pods" "" None;
    WebSocketManager.unsubscribe_of "arn:aws" "/api/v1/pods" "" 1%nat None ].

(** The operation is the unsubscribe that takes the last listener of [key]
    away. *)
Definition last_unsubscribe (key : string) (op : WebSocketManager.Op)
           (st : WebSocketManager.State) : bool :=
  match op with
  | WebSocketManager.Unsubscribe k l _ _ _ =>
      bool_decide (k = key)
      && match WebSocketManager.listeners st !! k with
         | Some set => bool_decide (WebSocketManager.Set_delete l set = [])
         | None => false
         end
  | _ => false
  end.

(** None of the operations of a run is. *)
Fixpoint no_last_unsubscribe
         (throws : WebSocketManager.Listener -> WebSocketManager.Update -> bool)
         (json_ok : string -> bool) (key : string)
         (ops : list WebSocketManager.Op) (st : WebSocketManager.State) : bool :=
  match ops with
  | [] => true
  | op :: rest =>
      negb (last_unsubscribe key op st)
      && no_last_unsubscribe throws json_ok key rest
                             (WebSocketManager.step throws json_ok op st).1
  end.

(** Every key of the registry has a listener. *)
Definition nonempty_sets (st : WebSocketManager.State) : Prop :=
  forall (key : string) (set : list WebSocketManager.Listener),
    WebSocketManager.listeners st !! key = Some set -> set <> [].

Definition is_CloseSocket (e : WebSocketManager.Effect) : bool :=
  match e with WebSocketManager.CloseSocket => true | _ => false end.

(** The phase of the stream of endpoint [j]. *)
Definition phase_at (cs : list RepeatStreamFunc.Candidate) (j : nat)
  : RepeatStreamFunc.Phase :=
  match cs !! j with
  | Some c => RepeatStreamFunc.phase c
  | None => RepeatStreamFunc.NotStarted
  end.

(** The streams before the newest have finished and those after it have not
    started. *)
Definition failover_inv (endpoints : nat) (s : RepeatStreamFunc.System) : Prop :=
  length (RepeatStreamFunc.candidates s) = endpoints
  /\ (1 <= RepeatStreamFunc.endpointIndex (RepeatStreamFunc.router s) <= endpoints)%nat
  /\ forall j : nat,
      ((S j < RepeatStreamFunc.endpointIndex (RepeatStreamFunc.router s))%nat ->
       phase_at (RepeatStreamFunc.candidates s) j = RepeatStreamFunc.Finished)
      /\ ((RepeatStreamFunc.endpointIndex (RepeatStreamFunc.router s) <= j)%nat ->
          phase_at (RepeatStreamFunc.candidates s) j = RepeatStreamFunc.NotStarted).

Definition not_found : ApiError := mkErr (Some 404) "Not Found".

(** A subscriber leaves and another arrives while the first socket is still
    closing: the close event of the first socket clears the socket the
    manager holds although the second is open, and a COMPLETE frame arrives
    on the second before the reconnect timer fires. *)
Definition stale_close_session : list WebSocketManager.Op :=
  [ WebSocketManager.Subscribe "c1" "/api/v1/pods" "" 1%nat;
    WebSocketManager.OnOpen;
    WebSocketManager.SubscribeConnected "c1" "/api/v1/pods" "" None;
    WebSocketManager.unsubscribe_of "c1" "/api/v1/pods" "" 1%nat None;
    WebSocketManager.Subscribe "c1" "/api/v1/pods" "" 2%nat;
    WebSocketManager.OnOpen;
    WebSocketManager.SubscribeConnected "c1" "/api/v1/pods" "" None;
    WebSocketManager.OnClose;
    WebSocketManager.OnMessage
      (WebSocketManager.JsonObject (pods_frame (Some "COMPLETE") None)) ].

(** The socket drops, and the only subscriber leaves before the reconnect
    timer fires. *)
Definition dropped_socket_session : list WebSocketManager.Op :=
  [ WebSocketManager.Subscribe "c1" "/api/v1/pods" "" 1%nat;
    WebSocketManager.OnOpen;
    WebSocketManager.SubscribeConnected "c1" "/api/v1/pods" "" None;
    WebSocketManager.OnClose;
    WebSocketManager.unsubscribe_of "c1" "/api/v1/pods" "" 1%nat None ].

Fixpoint has_slash (s : string) : bool :=
  match s with
  | String c s' => Ascii.eqb c "/" || has_slash s'
  | EmptyString => false
  end.

(** No resource class is known. *)
Definition no_classes : string -> option string := fun _ => None.

(** A connection that receives events. *)
Definition live (st : Stream.State) : bool :=
  match Stream.connection st with
  | Some c => ConnectStream.listening c && negb (ConnectStream.isClosing c)
  | None => false
  end.

(** The connection of the stream has closed and its listeners are
    detached. *)
Definition detached (st : Stream.State) : bool :=
  match Stream.connection st with
  | Some c => ConnectStream.isClosing c && negb (ConnectStream.listening c)
  | None => false
  end.

(** At most one reconnect is pending, and then the connection has closed and
    its listeners are detached. *)
Definition one_timer (st : Stream.State) : Prop :=
  (Stream.timers st <= 1)%nat
  /\ (Stream.timers st = 1%nat -> detached st = true).

(** The effects by which a stream opens a socket, schedules a reconnect or
    reports a failure. *)
Definition socket_effect (e : Effect) : bool :=
  is_NewWebSocket e || is_SetTimeoutConnect e || is_FailCb e.

(** A callback that records what it is called with. *)
Definition record_item (item : nat) (seen : list nat) : list nat * list Effect :=
  (seen ++ [item], []).

(** The frames of a watch, handed in order to a [streamResult] call. *)
Definition on_frames (frames : list StreamResults.WatchEvent) (st : StreamResult.State)
  : StreamResult.State :=
  foldl (fun st frame =>
           (StreamResult.stream_event (Stream.EvMessage (Some frame)) st).1)
        st frames.

Definition is_Subscribe (op : WebSocketManager.Op) : bool :=
  match op with WebSocketManager.Subscribe _ _ _ _ => true | _ => false end.

Definition is_OnMessage (op : WebSocketManager.Op) : bool :=
  match op with WebSocketManager.OnMessage _ => true | _ => false end.

(** The manager has a socket open or being opened. *)
Definition busy (st : WebSocketManager.State) : bool :=
  WebSocketManager.socket_open st || WebSocketManager.connecting st.

(** * Proofs *)

(** ** The reconciler *)

Section ReconcilerFacts.
Import StreamResults.
Variable to_number : Z -> Z.

(** Rounding to a double keeps the order of integers. *)
Hypothesis to_number_mono : forall a b : Z, a <= b -> to_number a <= to_number b.

Lemma less_than_exact (a b : option Z) :
  less_than to_number a b = true ->
  exists x y : Z, a = Some x /\ b = Some y /\ x < y.
Proof using to_number_mono.
  destruct a as [x|], b as [y|]; simpl; try discriminate.
  intros H. exists x, y. repeat split.
  apply Z.ltb_lt in H.
  destruct (Z_lt_le_dec x y) as [Hlt|Hle]; [exact Hlt|].
  apply to_number_mono in Hle. lia.
Qed.

Lemma less_than_le (x y : Z) :
  y <= x -> less_than to_number (Some x) (Some y) = false.
Proof using to_number_mono.
  intros H. simpl. apply Z.ltb_ge. by apply to_number_mono.
Qed.

Lemma version_set_actionType (t : string) (o : KubeObject) :
  version (set_actionType t o) = version o.
Proof. reflexivity. Qed.

Lemma version_Object_assign (target source : KubeObject) :
  version (Object_assign target source) = version source.
Proof. reflexivity. Qed.

(** The MODIFIED branch, event by event. *)
Lemma update_modified_absent (object : KubeObject) (results : gmap string KubeObject) :
  results !! uid (metadata object) = None ->
  uid (metadata object) ∉ Object_prototype_names ->
  update to_number "MODIFIED" object results
  = (<[uid (metadata object) := set_actionType "MODIFIED" object]> results,
     push (<[uid (metadata object) := set_actionType "MODIFIED" object]> results)).
Proof.
  intros H Hname. unfold update, switch, get_property. simpl. rewrite H.
  by rewrite bool_decide_eq_false_2.
Qed.

(** A MODIFIED event for a UID that is not stored but is the name of a
    property of [Object.prototype] throws: nothing is stored or pushed. *)
Lemma update_modified_inherited (object : KubeObject)
      (results : gmap string KubeObject) :
  results !! uid (metadata object) = None ->
  uid (metadata object) ∈ Object_prototype_names ->
  update to_number "MODIFIED" object results = (results, [Uncaught]).
Proof.
  intros H Hname. unfold update, switch, get_property. simpl. rewrite H.
  by rewrite bool_decide_eq_true_2.
Qed.

Lemma update_modified_present (object existing : KubeObject)
      (results : gmap string KubeObject) :
  results !! uid (metadata object) = Some existing ->
  update to_number "MODIFIED" object results
  = if negb (JS.truthy (resourceVersion (metadata existing)))
       || negb (JS.truthy (resourceVersion (metadata object)))
    then (results, ConsoleError "Missing resourceVersion in object" :: push results)
    else if less_than to_number (version existing) (version object)
         then (<[uid (metadata object) :=
                   Object_assign existing (set_actionType "MODIFIED" object)]> results,
               push (<[uid (metadata object) :=
                         Object_assign existing (set_actionType "MODIFIED" object)]> results))
         else (results, push results).
Proof.
  intros H. unfold update, switch, get_property. simpl. rewrite H.
  destruct (negb _ || negb _); [reflexivity|].
  unfold version. simpl.
  destruct (less_than _ _ _); reflexivity.
Qed.

(** One MODIFIED event keeps every stored item or replaces it by a newer
    one. *)
Lemma update_modified_item (object : KubeObject) (results : gmap string KubeObject)
      (u : string) (existing : KubeObject) :
  results !! u = Some existing ->
  exists item : KubeObject,
    (update to_number "MODIFIED" object results).1 !! u = Some item
    /\ (item = existing \/ newer existing item).
Proof using to_number_mono.
  intros Hu.
  destruct (decide (uid (metadata object) = u)) as [<-|Hne].
  - rewrite (update_modified_present _ _ _ Hu).
    destruct (negb _ || negb _); [eauto|].
    destruct (less_than _ _ _) eqn:Hlt; [|eauto].
    simpl. rewrite lookup_insert_eq. eexists; split; [reflexivity|].
    right. apply less_than_exact in Hlt as (c & n & Hc & Hn & Hcn).
    exists c, n. by rewrite version_Object_assign, version_set_actionType.
  - destruct (results !! uid (metadata object)) as [other|] eqn:Ho.
    + rewrite (update_modified_present _ _ _ Ho).
      destruct (negb _ || negb _); [eauto|].
      destruct (less_than _ _ _); [|eauto].
      simpl. rewrite lookup_insert_ne by done. eauto.
    + destruct (decide (uid (metadata object) ∈ Object_prototype_names))
        as [Hname|Hname].
      * rewrite (update_modified_inherited _ _ Ho Hname). eauto.
      * rewrite (update_modified_absent _ _ Ho Hname). simpl.
        rewrite lookup_insert_ne by done. eauto.
Qed.

Lemma newer_trans (a b c : KubeObject) : newer a b -> newer b c -> newer a c.
Proof.
  intros (x & y & Hx & Hy & Hxy) (y' & z & Hy' & Hz & Hyz).
  rewrite Hy in Hy'. injection Hy' as <-.
  exists x, z. repeat split; [done..|lia].
Qed.

Lemma apply_modified_item (objects : list KubeObject) :
  forall (results : gmap string KubeObject) (u : string) (existing : KubeObject),
    results !! u = Some existing ->
    exists item : KubeObject,
      apply_modified to_number objects results !! u = Some item
      /\ (item = existing \/ newer existing item).
Proof using to_number_mono.
  induction objects as [|o objects IH]; intros results u existing Hu.
  - exists existing. by split; [|left].
  - destruct (update_modified_item o results u existing Hu) as (mid & Hmid & Hrel).
    destruct (IH _ u mid Hmid) as (item & Hitem & Hrel').
    exists item. split; [exact Hitem|].
    destruct Hrel as [->|Hn]; [exact Hrel'|].
    right. destruct Hrel' as [->|Hn']; [exact Hn|].
    by eapply newer_trans.
Qed.
End ReconcilerFacts.

(** C1.  A MODIFIED event for a stored item, both carrying a resource
    version, replaces the item only when the incoming version number is
    strictly greater than the stored one, and then by the merge of the
    incoming object into the stored one; an event whose version number is
    less than or equal to the stored one changes nothing; and after any
    sequence of MODIFIED events the item is still stored, and it is the item
    there was or one of a strictly greater version number. *)
Theorem C1_modified_version_monotonic
        (to_number : Z -> Z)
        (to_number_mono : forall a b : Z, a <= b -> to_number a <= to_number b)
        (results : gmap string KubeObject) (u : string) (existing : KubeObject)
        (Hstored : results !! u = Some existing) :
  (forall object : KubeObject,
      uid (metadata object) = u ->
      JS.truthy (resourceVersion (metadata existing)) = true ->
      JS.truthy (resourceVersion (metadata object)) = true ->
      let results' := (StreamResults.update to_number "MODIFIED" object results).1 in
      results' = results
      \/ (newer existing object
          /\ results' = <[u := Object_assign existing (set_actionType "MODIFIED" object)]>
                          results))
  /\ (forall (object : KubeObject) (c n : Z),
         uid (metadata object) = u ->
         version existing = Some c -> version object = Some n -> n <= c ->
         (StreamResults.update to_number "MODIFIED" object results).1 = results)
  /\ (forall objects : list KubeObject,
         exists item : KubeObject,
           apply_modified to_number objects results !! u = Some item
           /\ (item = existing \/ newer existing item)).
Proof.
  split; [|split].
  - intros object <- Hcur Hnew. simpl.
    rewrite (update_modified_present _ _ _ _ Hstored), Hcur, Hnew. simpl.
    destruct (StreamResults.less_than _ _ _) eqn:Hlt; [|by left].
    right. split; [|reflexivity].
    apply (less_than_exact _ to_number_mono) in Hlt as (c & n & Hc & Hn & Hcn).
    by exists c, n.
  - intros object c n <- Hc Hn Hle.
    rewrite (update_modified_present _ _ _ _ Hstored), Hc, Hn.
    rewrite (less_than_le _ to_number_mono) by done.
    by destruct (negb _ || negb _).
  - intros objects. by apply apply_modified_item.
Qed.

Lemma exact_number_mono (a b : Z) : a <= b -> exact_number a <= exact_number b.
Proof. exact (fun H => H). Qed.

Lemma C1_witness :
  (StreamResults.update exact_number "MODIFIED" (pod "1" "4")
                        {["1" := stored_pod "1" "5"]}).1
  = {["1" := stored_pod "1" "5"]}.
Proof.
  destruct (C1_modified_version_monotonic
              exact_number exact_number_mono
              {["1" := stored_pod "1" "5"]} "1" (stored_pod "1" "5")
              (lookup_singleton_eq "1" (stored_pod "1" "5")))
    as (_ & Hle & _).
  apply (Hle (pod "1" "4") 5 4); [reflexivity..|lia].
Defined.

Lemma Object_values_elem (results : gmap string KubeObject) (item : KubeObject) :
  item ∈ Object_values results
  <-> exists u : string, u <> "__proto__" /\ results !! u = Some item.
Proof.
  unfold Object_values. rewrite list_elem_of_fmap. split.
  - intros ([u o] & -> & Hin). exists u.
    apply elem_of_map_to_list in Hin. by apply lookup_delete_Some in Hin as [Hne Hin].
  - intros (u & Hne & Hu). exists (u, item). split; [done|].
    apply elem_of_map_to_list. by apply lookup_delete_Some.
Qed.

(** While the prototype is [Object.prototype], the values are those of the
    whole map. *)
Lemma Object_values_own (results : gmap string KubeObject) :
  results !! "__proto__" = None ->
  Object_values results = (map_to_list results).*2.
Proof. intros H. unfold Object_values. by rewrite delete_id. Qed.

Section PushFacts.
Import StreamResults.
Variable to_number : Z -> Z.

(** The [switch] throws for a MODIFIED event whose UID is not stored and
    names a property of [Object.prototype], and for no other event. *)
Lemma switch_throws (type : string) (object : KubeObject)
      (results : gmap string KubeObject) :
  switch to_number type object results = None
  <-> (type = "MODIFIED"
       /\ results !! uid (metadata object) = None
       /\ uid (metadata object) ∈ Object_prototype_names).
Proof.
  unfold switch, get_property. split.
  - destruct (String.eqb type "ADDED"); [discriminate|].
    destruct (String.eqb type "MODIFIED") eqn:Hm.
    + apply String.eqb_eq in Hm.
      destruct (results !! uid (metadata object)) as [existing|].
      * destruct (negb _ || negb _); [discriminate|].
        by destruct (less_than _ _ _).
      * case_bool_decide; [done|discriminate].
    + destruct (String.eqb type "DELETED"); [discriminate|].
      by destruct (String.eqb type "ERROR").
  - intros (-> & -> & Hname). simpl. by rewrite bool_decide_eq_true_2.
Qed.

(** What the [switch] prints is console output. *)
Lemma switch_console (type : string) (object : KubeObject)
      (results results' : gmap string KubeObject) (out : list Effect) :
  switch to_number type object results = Some (results', out) ->
  filter is_Push out = [] /\ Uncaught ∉ out.
Proof.
  assert (forall what : string,
             filter is_Push [ConsoleError what] = [] /\ Uncaught ∉ [ConsoleError what])
    as Hlog.
  { intros what. split; [done|]. by intros [=]%list_elem_of_singleton. }
  assert (filter is_Push [] = [] /\ Uncaught ∉ ([] : list Effect)) as Hnil.
  { split; [done|]. apply not_elem_of_nil. }
  unfold switch.
  repeat match goal with
         | |- context [if ?b then _ else _] => destruct b
         | |- context [match ?o with GotItem _ => _ | _ => _ end] => destruct o
         end; intros [= <- <-] || intros [=]; done.
Qed.

(** When the [switch] does not throw, [update] ends with one [push] of
    the collection it leaves. *)
Lemma update_pushes_last (type : string) (object : KubeObject)
      (results : gmap string KubeObject) :
  switch to_number type (set_actionType type object) results <> None ->
  exists out : list Effect,
    (update to_number type object results).2
    = out ++ push (update to_number type object results).1
    /\ filter is_Push out = [] /\ Uncaught ∉ out.
Proof.
  intros Hruns. unfold update.
  destruct (switch to_number type (set_actionType type object) results)
    as [[results' out]|] eqn:Hswitch; [|done].
  exists out. split; [done|]. by eapply switch_console.
Qed.

(** Only an ADDED event with the UID "__proto__" replaces the prototype. *)
Lemma update_keeps_prototype (type : string) (object : KubeObject)
      (results : gmap string KubeObject) :
  results !! "__proto__" = None ->
  (type = "ADDED" -> uid (metadata object) <> "__proto__") ->
  (update to_number type object results).1 !! "__proto__" = None.
Proof.
  intros Hproto Hadded.
  assert ("__proto__" ∈ Object_prototype_names) as Hin.
  { unfold Object_prototype_names. repeat (first [by left | right]). }
  unfold update, switch, get_property, delete_property. simpl.
  destruct (String.eqb type "ADDED") eqn:Ha.
  { apply String.eqb_eq in Ha. simpl. rewrite lookup_insert_ne; [done|]. by apply Hadded. }
  destruct (String.eqb type "MODIFIED").
  { destruct (results !! uid (metadata object)) as [existing|] eqn:Hu.
    - assert (uid (metadata object) <> "__proto__") as Hne.
      { intros Heq. by rewrite Heq, Hproto in Hu. }
      destruct (negb _ || negb _); [done|].
      destruct (less_than _ _ _); [|done]. simpl. by rewrite lookup_insert_ne.
    - case_bool_decide as Hname; [done|]. simpl. rewrite lookup_insert_ne; [done|].
      intros Heq. apply Hname. by rewrite Heq. }
  destruct (String.eqb type "DELETED").
  { simpl. case_bool_decide; [done|]. by apply lookup_delete_None; right. }
  by destruct (String.eqb type "ERROR").
Qed.
End PushFacts.

(** C2, as the code has it.  For a collection whose prototype has not been
    replaced: every call of [update] that completes, whether it accepts the
    event or not, ends with exactly one call of the caller's callback with
    the full collection as the event leaves it, and what precedes it is
    console output.  The calls that do not complete are the MODIFIED events
    whose UID is not stored and names a property of [Object.prototype]:
    they throw, change nothing and call nothing.  A MODIFIED event that the
    version check rejects leaves the collection unchanged and the callback
    is called once, with that unchanged collection.  The list pushed holds
    the items stored as own properties, and those only.  The prototype
    stays as it is, unless the event is an ADDED with the UID
    "__proto__". *)
Theorem C2_update_always_pushes
        (to_number : Z -> Z)
        (to_number_mono : forall a b : Z, a <= b -> to_number a <= to_number b)
        (type : string) (object : KubeObject) (results : gmap string KubeObject)
        (Hproto : results !! "__proto__" = None) :
  let thrown := type = "MODIFIED"
                /\ results !! uid (metadata object) = None
                /\ uid (metadata object) ∈ Object_prototype_names in
  (~ thrown ->
   exists out : list Effect,
     (StreamResults.update to_number type object results).2
     = out ++ [Push (Object_values (StreamResults.update to_number type object results).1)]
     /\ filter is_Push out = []
     /\ Uncaught ∉ out)
  /\ (thrown ->
      StreamResults.update to_number type object results = (results, [Uncaught]))
  /\ (forall (existing : KubeObject) (c n : Z),
         type = "MODIFIED" ->
         results !! uid (metadata object) = Some existing ->
         version existing = Some c -> version object = Some n -> n <= c ->
         StreamResults.update to_number type object results
         = (results, [Push (Object_values results)]))
  /\ (forall item : KubeObject,
         item ∈ Object_values (StreamResults.update to_number type object results).1
         <-> exists u : string,
             u <> "__proto__"
             /\ (StreamResults.update to_number type object results).1 !! u = Some item)
  /\ ((type = "ADDED" -> uid (metadata object) <> "__proto__") ->
      (StreamResults.update to_number type object results).1 !! "__proto__" = None).
Proof.
  intros thrown.
  split; [|split; [|split; [|split]]];
    [| | |intros item; apply Object_values_elem|by apply update_keeps_prototype].
  - intros Hruns. apply update_pushes_last.
    intros Hnone%switch_throws. by apply Hruns.
  - intros (-> & Habsent & Hname). by apply update_modified_inherited.
  - intros existing c n -> Hstored Hc Hn Hle.
    rewrite (update_modified_present _ _ _ _ Hstored), Hc, Hn.
    rewrite (less_than_le _ to_number_mono) by done.
    unfold version in Hc, Hn.
    destruct (resourceVersion (metadata existing)) as [s|]; [|discriminate].
    destruct (resourceVersion (metadata object)) as [s'|]; [|discriminate].
    simpl in *.
    destruct s; [discriminate|]. destruct s'; [discriminate|]. reflexivity.
Qed.

Lemma C2_witness :
  StreamResults.update exact_number "MODIFIED" (pod "1" "4")
                       {["1" := stored_pod "1" "6"]}
  = ({["1" := stored_pod "1" "6"]},
     [Push (Object_values {["1" := stored_pod "1" "6"]})]).
Proof.
  refine (proj1 (proj2 (proj2 (C2_update_always_pushes
                                 exact_number exact_number_mono "MODIFIED" (pod "1" "4")
                                 {["1" := stored_pod "1" "6"]} _)))
                (stored_pod "1" "6") 6 4 eq_refl _ eq_refl eq_refl _).
  - by apply lookup_singleton_ne.
  - apply lookup_singleton_eq.
  - lia.
Defined.

(** C2 as stated fails: with item 1 stored at version 6, a MODIFIED event
    for it at version 4 is rejected by the version check, the collection is
    unchanged, and the callback is called all the same. *)
Lemma C2_rejected_modified_is_pushed :
  ({["1" := stored_pod "1" "6"]} : gmap string KubeObject) !! "1"
  = Some (stored_pod "1" "6")
  /\ StreamResults.less_than exact_number (version (stored_pod "1" "6"))
                             (version (pod "1" "4")) = false
  /\ StreamResults.update exact_number "MODIFIED" (pod "1" "4")
                          {["1" := stored_pod "1" "6"]}
     = ({["1" := stored_pod "1" "6"]}, [Push [stored_pod "1" "6"]])
  /\ filter is_Push
            (StreamResults.update exact_number "MODIFIED" (pod "1" "4")
                                  {["1" := stored_pod "1" "6"]}).2 <> [].
Proof.
  vm_compute. repeat split; discriminate.
Qed.

(** ** The snapshot *)

Lemma length_append_List (base : string) :
  String.length (base +:+ "List") = (String.length base + 4)%nat.
Proof. induction base as [|c base IH]; simpl; [reflexivity|by rewrite IH]. Qed.

Lemma substring_prefix (base rest : string) :
  String.substring 0 (String.length base) (base +:+ rest) = base.
Proof.
  induction base as [|c base IH]; simpl.
  - by destruct rest.
  - by rewrite IH.
Qed.

(** Trimming four characters takes the suffix "List" off. *)
Lemma slice_trims_List (base : string) :
  JS.slice_to_minus 4 (base +:+ "List") = base.
Proof.
  unfold JS.slice_to_minus. rewrite length_append_List.
  replace (String.length base + 4 - 4)%nat with (String.length base) by lia.
  apply substring_prefix.
Qed.

Section AddFacts.
Import StreamResults.
Variable fixedKind : string.

Lemma add_items_keeps (items : list KubeObject) :
  forall (results : gmap string KubeObject) (u : string),
    is_Some (results !! u) -> is_Some (add_items fixedKind items results !! u).
Proof.
  induction items as [|i items IH]; intros results u H; simpl; [exact H|].
  apply IH. destruct (decide (uid (metadata i) = u)) as [->|Hne].
  - rewrite lookup_insert_eq. eauto.
  - by rewrite lookup_insert_ne.
Qed.

(** Where an entry of the collection comes from. *)
Lemma add_items_origin (items : list KubeObject) :
  forall (results : gmap string KubeObject) (u : string) (stored : KubeObject),
    add_items fixedKind items results !! u = Some stored ->
    results !! u = Some stored
    \/ exists item : KubeObject,
        item ∈ items /\ uid (metadata item) = u /\ stored = set_kind fixedKind item.
Proof.
  induction items as [|i items IH]; intros results u stored H; simpl in H; [by left|].
  apply IH in H as [H|(item & Hin & Hu & Hs)].
  - destruct (decide (uid (metadata i) = u)) as [Heq|Hne].
    + rewrite Heq, lookup_insert_eq in H. injection H as <-.
      right. exists i. split; [left|done].
    + rewrite lookup_insert_ne in H by done. by left.
  - right. exists item. split; [by right|done].
Qed.

Lemma add_items_stores (items : list KubeObject) :
  forall (results : gmap string KubeObject) (item : KubeObject),
    item ∈ items ->
    is_Some (add_items fixedKind items results !! uid (metadata item)).
Proof.
  induction items as [|i items IH]; intros results item Hin; [by inversion Hin|].
  simpl. apply elem_of_cons in Hin as [->|Hin]; [|by apply IH].
  apply add_items_keeps. rewrite lookup_insert_eq. eauto.
Qed.
End AddFacts.

Lemma NoDup_fmap_elem {A B : Type} (f : A -> B) (l : list A) (x y : A) :
  NoDup (f <$> l) -> x ∈ l -> y ∈ l -> f x = f y -> x = y.
Proof.
  induction l as [|a l IH]; intros Hnd Hx Hy Hf; [by inversion Hx|].
  rewrite fmap_cons in Hnd. apply NoDup_cons in Hnd as [Hnotin Hnd].
  apply elem_of_cons in Hx as [->|Hx]; apply elem_of_cons in Hy as [->|Hy].
  - reflexivity.
  - exfalso. apply Hnotin. rewrite Hf. by apply list_elem_of_fmap_2.
  - exfalso. apply Hnotin. rewrite <- Hf. by apply list_elem_of_fmap_2.
  - by apply IH.
Qed.

(** A snapshot of distinct UIDs, none stored yet, adds its items to the
    entries of the map. *)
Lemma add_items_entries (fixedKind : string) (items : list KubeObject) :
  forall results : gmap string KubeObject,
    NoDup ((fun item => uid (metadata item)) <$> items) ->
    (forall item : KubeObject, item ∈ items -> results !! uid (metadata item) = None) ->
    map_to_list (StreamResults.add_items fixedKind items results)
    ≡ₚ map_to_list results
       ++ ((fun item => (uid (metadata item), set_kind fixedKind item)) <$> items).
Proof.
  induction items as [|i items IH]; intros results Hnd Hfree; simpl.
  - by rewrite app_nil_r.
  - rewrite fmap_cons in Hnd. apply NoDup_cons in Hnd as [Hnotin Hnd].
    rewrite IH; [|done|].
    + rewrite map_to_list_insert by (apply Hfree; left).
      by rewrite <- Permutation_middle.
    + intros item Hin. rewrite lookup_insert_ne; [apply Hfree; by right|].
      intros Heq. apply Hnotin. rewrite Heq.
      by apply (list_elem_of_fmap_2 (fun item => uid (metadata item))).
Qed.

(** C9.  When the snapshot request of a fresh [streamResults] call resolves
    with a list of kind [base ++ "List"] whose items have UIDs other than
    "__proto__": every item pushed has kind [base]; every item of the
    snapshot is stored under its UID (as the last item of the snapshot with
    that UID, which is the item itself when the UIDs are distinct) and is in
    the list pushed; nothing else is stored; the list pushed holds exactly
    the stored items, each once (for distinct UIDs it is the snapshot with
    the kinds overwritten, in some order); and the effects are one push of
    that list followed by the opening of the watch socket, and the log of
    the exception when [new WebSocket] throws. *)
Theorem C9_snapshot_indexed_and_pushed_once
        (watchUrl : option string -> string)
        (base : string) (items : list KubeObject) (rv : option string)
        (created : bool)
        (Hown : forall item : KubeObject,
            item ∈ items -> uid (metadata item) <> "__proto__") :
  let outcome :=
    StreamResults.run_resolved watchUrl (mkList (base +:+ "List") items rv) created
                               StreamResults.start.1 in
  let collection := StreamResults.results outcome.1 in
  let pushed := Object_values collection in
  (forall item : KubeObject, item ∈ pushed -> kind item = Some base)
  /\ (forall item : KubeObject,
         item ∈ items ->
         exists last : KubeObject,
           last ∈ items /\ uid (metadata last) = uid (metadata item)
           /\ collection !! uid (metadata item) = Some (set_kind base last)
           /\ set_kind base last ∈ pushed)
  /\ (forall (u : string) (stored : KubeObject),
         collection !! u = Some stored ->
         exists item : KubeObject,
           item ∈ items /\ uid (metadata item) = u /\ stored = set_kind base item)
  /\ (forall stored : KubeObject,
         stored ∈ pushed <-> exists u : string, collection !! u = Some stored)
  /\ length pushed = size collection
  /\ (NoDup ((fun item => uid (metadata item)) <$> items) ->
      (forall item : KubeObject,
          item ∈ items -> collection !! uid (metadata item) = Some (set_kind base item))
      /\ pushed ≡ₚ set_kind base <$> items)
  /\ outcome.2 = [Push pushed; NewWebSocket (watchUrl rv) created]
                   ++ (if created then [] else [LoggedException])
  /\ filter is_Push outcome.2 = [Push pushed]
  /\ is_Some (StreamResults.socket outcome.1).
Proof.
  unfold StreamResults.run_resolved, StreamResults.start, StreamResults.add. simpl.
  rewrite slice_trims_List.
  assert (Horigin : forall (u : string) (stored : KubeObject),
             StreamResults.add_items base items ∅ !! u = Some stored ->
             exists item : KubeObject,
               item ∈ items /\ uid (metadata item) = u /\ stored = set_kind base item).
  { intros u stored H. apply add_items_origin in H as [H|H]; [|exact H].
    by rewrite lookup_empty in H. }
  assert (Hproto : StreamResults.add_items base items ∅ !! "__proto__" = None).
  { destruct (StreamResults.add_items base items ∅ !! "__proto__") as [stored|] eqn:Hp;
      [|done].
    destruct (Horigin _ _ Hp) as (item & Hin & Hu & _). by destruct (Hown item Hin). }
  assert (Hpushed : forall stored : KubeObject,
             stored ∈ Object_values (StreamResults.add_items base items ∅)
             <-> exists u : string,
                 StreamResults.add_items base items ∅ !! u = Some stored).
  { intros stored. rewrite Object_values_elem. split.
    - intros (u & _ & Hu). by exists u.
    - intros (u & Hu). exists u. split; [|done]. intros ->. by rewrite Hproto in Hu. }
  assert (Hstores : forall item : KubeObject,
             item ∈ items ->
             exists last : KubeObject,
               last ∈ items /\ uid (metadata last) = uid (metadata item)
               /\ StreamResults.add_items base items ∅ !! uid (metadata item)
                  = Some (set_kind base last)
               /\ set_kind base last ∈ Object_values (StreamResults.add_items base items ∅)).
  { intros item Hin.
    destruct (add_items_stores base items ∅ item Hin) as [stored Hs].
    destruct (Horigin _ _ Hs) as (last & Hl & Hu & ->). exists last.
    repeat split; try done. apply Hpushed. by eexists. }
  split; [|split; [|split; [|split; [|split; [|split]]]]].
  - intros item (u & Hu)%Hpushed.
    by destruct (Horigin _ _ Hu) as (i & _ & _ & ->).
  - exact Hstores.
  - exact Horigin.
  - exact Hpushed.
  - rewrite (Object_values_own _ Hproto), length_fmap. apply length_map_to_list.
  - intros Hnd. split.
    + intros item Hin. destruct (Hstores item Hin) as (last & Hl & Hu & Hs & _).
      by rewrite (NoDup_fmap_elem _ _ _ _ Hnd Hl Hin Hu) in Hs.
    + rewrite (Object_values_own _ Hproto).
      rewrite (add_items_entries base items ∅ Hnd) by (intros; apply lookup_empty).
      rewrite map_to_list_empty. simpl. rewrite <- list_fmap_compose.
      by apply eq_reflexive_perm || reflexivity.
  - destruct created; repeat split; eauto.
Qed.

Lemma C9_witness :
  StreamResults.results
    (StreamResults.run_resolved (fun _ => "/api/v1/pods?watch=1")
                                (mkList "PodList" [pod "1" "5"] (Some "5")) true
                                StreamResults.start.1).1
  !! "1" = Some (stored_pod "1" "5").
Proof.
  assert (forall item : KubeObject,
             item ∈ [pod "1" "5"] -> uid (metadata item) <> "__proto__") as Hown.
  { intros item ->%list_elem_of_singleton. discriminate. }
  destruct (C9_snapshot_indexed_and_pushed_once
              (fun _ => "/api/v1/pods?watch=1") "Pod" [pod "1" "5"] (Some "5") true Hown)
    as (_ & _ & _ & _ & _ & Hdistinct & _).
  apply (proj1 (Hdistinct (NoDup_singleton "1")) (pod "1" "5")).
  apply list_elem_of_here.
Defined.

(** C10.  A MODIFIED event whose UID is not in the collection, and is not
    the name of a property that [results] inherits from [Object.prototype]
    (the prototype not having been replaced), is stored as it is, tagged
    MODIFIED, whatever its resource version, also when it has none: nothing
    is logged, and the only effect is the push of the collection, which now
    holds it beside the items it held. *)
Theorem C10_modified_absent_is_inserted
        (to_number : Z -> Z) (object : KubeObject) (results : gmap string KubeObject)
        (Habsent : results !! uid (metadata object) = None)
        (Hname : uid (metadata object) ∉ Object_prototype_names)
        (Hproto : results !! "__proto__" = None) :
  let results' := <[uid (metadata object) := set_actionType "MODIFIED" object]> results in
  StreamResults.update to_number "MODIFIED" object results
  = (results', [Push (Object_values results')])
  /\ results' !! uid (metadata object) = Some (set_actionType "MODIFIED" object)
  /\ set_actionType "MODIFIED" object ∈ Object_values results'
  /\ (forall item : KubeObject, item ∈ Object_values results -> item ∈ Object_values results')
  /\ length (Object_values results') = S (length (Object_values results))
  /\ results' !! "__proto__" = None.
Proof.
  assert (uid (metadata object) <> "__proto__") as Hne.
  { intros Heq. apply Hname. rewrite Heq. unfold Object_prototype_names.
    repeat (first [by left | right]). }
  assert (<[uid (metadata object) := set_actionType "MODIFIED" object]> results
          !! "__proto__" = None) as Hproto'.
  { by rewrite lookup_insert_ne. }
  simpl. split; [by apply update_modified_absent|].
  split; [apply lookup_insert_eq|]. split; [|split; [|split]].
  - apply Object_values_elem. eexists. split; [exact Hne|]. apply lookup_insert_eq.
  - intros item (u & Hu & Hitem)%Object_values_elem. apply Object_values_elem.
    exists u. split; [done|]. rewrite lookup_insert_ne; [done|].
    intros Heq. by rewrite Heq, Hitem in Habsent.
  - rewrite (Object_values_own _ Hproto), (Object_values_own _ Hproto').
    rewrite !length_fmap, !length_map_to_list. by apply map_size_insert_None.
  - exact Hproto'.
Qed.

Lemma C10_witness :
  StreamResults.update exact_number "MODIFIED" (mkObj None (mkMeta "2" None) None ∅)
                       {["1" := stored_pod "1" "5"]}
  = (<["2" := mkObj None (mkMeta "2" None) (Some "MODIFIED") ∅]>
       {["1" := stored_pod "1" "5"]},
     [Push (Object_values (<["2" := mkObj None (mkMeta "2" None) (Some "MODIFIED") ∅]>
                             {["1" := stored_pod "1" "5"]}))]).
Proof.
  refine (proj1 (C10_modified_absent_is_inserted
                   exact_number (mkObj None (mkMeta "2" None) None ∅)
                   {["1" := stored_pod "1" "5"]} _ _ _)).
  - by apply lookup_singleton_ne.
  - simpl. unfold Object_prototype_names. intros Hin.
    repeat (apply elem_of_cons in Hin as [Hin|Hin]; [discriminate|]).
    by apply elem_of_nil in Hin.
  - by apply lookup_singleton_ne.
Defined.

(** ** Cancellation *)

Section CancelFacts.
Context {Item Own : Type}.
Variable cb : Item -> Own -> Own * list Effect.
Variable args : Stream.Args.

(** Calling the handle of [stream] again leaves the variables as the
    first call left them. *)
Lemma stream_cancel_idempotent (st : Stream.State) :
  (Stream.cancel (Stream.cancel st).1).1 = (Stream.cancel st).1.
Proof.
  unfold Stream.cancel. by destruct (Stream.connection st) as [[? ? ?]|].
Qed.

(** With no reconnect timer pending, a cancelled stream is silent: no
    event changes it or has an effect. *)
Lemma stream_cancelled_is_silent (ev : Stream.Event Item) (st : Stream.State)
      (own : Own) :
  Stream.timers st = 0%nat ->
  Stream.step cb args ev (Stream.cancel st).1 own = ((Stream.cancel st).1, own, []).
Proof.
  intros Htimers. unfold Stream.cancel.
  destruct st as [u [[closing has lis]|] cancelled timers]; simpl in *; subst;
    destruct ev; simpl; try reflexivity; by destruct lis.
Qed.

(** A stream that is cancelled schedules no reconnect when its socket
    closes. *)
Lemma stream_cancelled_schedules_nothing (st : Stream.State) :
  Stream.isCancelled st = true ->
  Stream.retryOnFail args st = (st, []).
Proof. intros H. unfold Stream.retryOnFail. by rewrite H. Qed.
End CancelFacts.

Section ReconcilerCancelFacts.
Import StreamResults.
Variable watchUrl : option string -> string.

(** The handle of [streamResults] does nothing when called again. *)
Lemma streamResults_cancel_idempotent (st : State) :
  cancel (cancel st).1 = ((cancel st).1, []).
Proof.
  destruct st as [r cancelled sock pending]. unfold cancel. simpl.
  destruct cancelled; simpl; [reflexivity|].
  destruct sock as [sock|]; [|reflexivity].
  by destruct (Stream.cancel sock).
Qed.

(** A snapshot that arrives after the cancellation is dropped. *)
Lemma cancelled_snapshot_is_dropped (response : ListResponse) (created : bool)
      (st : State) :
  (run_resolved watchUrl response created (cancel st).1).2 = []
  /\ results (run_resolved watchUrl response created (cancel st).1).1 = results st.
Proof.
  unfold run_resolved.
  assert (Hc : isCancelled (cancel st).1 = true /\ results (cancel st).1 = results st).
  { unfold cancel. destruct (isCancelled st) eqn:Hc; [done|].
    destruct (socket st) as [sock|]; [|done]. by destruct (Stream.cancel sock). }
  destruct Hc as [Hc Hr]. rewrite Hc.
  by destruct (negb (requestPending (cancel st).1)).
Qed.
End ReconcilerCancelFacts.

(** C7, evaluated where it fails.  The watch of a [streamResults] call
    loses its socket, so [stream] schedules [connect] in 3 seconds; the
    handle is called (and called again, without effect); the timer fires all
    the same and opens a new socket, and the frame that arrives on it is
    merged and pushed to the caller's data callback. *)
Theorem C7_cancel_misses_pending_reconnect :
  StreamResults.isCancelled
    (StreamResults.run_events exact_number (fun _ => "/api/v1/pods?watch=1") true
                              cancel_during_retry StreamResults.start.1).1 = true
  /\ (StreamResults.run_events exact_number (fun _ => "/api/v1/pods?watch=1") true
                               cancel_during_retry StreamResults.start.1).2
     = [ [Push [stored_pod "1" "5"]; NewWebSocket "/api/v1/pods?watch=1" true];
         [ConsoleWarn "Socket closed unexpectedly"; SetTimeoutConnect 3000];
         [SocketClose];
         [];
         [NewWebSocket "/api/v1/pods?watch=1" true];
         [Push [stored_pod "1" "5";
                mkObj None (mkMeta "2" (Some "9")) (Some "ADDED") ∅]] ].
Proof. vm_compute. split; reflexivity. Qed.

(** ** Subscription keys *)

Lemma append_colon_inj (a a' r r' : string) :
  has_colon a = false -> has_colon a' = false ->
  a +:+ ":" +:+ r = a' +:+ ":" +:+ r' -> a = a' /\ r = r'.
Proof.
  revert a'. induction a as [|c a IH]; intros [|c' a'] Ha Ha' H; simpl in *.
  - by injection H.
  - injection H as <- _. by rewrite Ascii.eqb_refl in Ha'.
  - injection H as -> _. by rewrite Ascii.eqb_refl in Ha.
  - injection H as -> H.
    apply orb_false_iff in Ha as [_ Ha]. apply orb_false_iff in Ha' as [_ Ha'].
    by destruct (IH a' Ha Ha' H) as [-> ->].
Qed.

(** Where neither the cluster nor the path holds a colon, the key
    determines the tuple. *)
Lemma createKey_inj_without_colon (c p q c' p' q' : string) :
  has_colon c = false -> has_colon p = false ->
  has_colon c' = false -> has_colon p' = false ->
  WebSocketManager.createKey c p q = WebSocketManager.createKey c' p' q' ->
  c = c' /\ p = p' /\ q = q'.
Proof.
  unfold WebSocketManager.createKey. intros Hc Hp Hc' Hp' H.
  apply append_colon_inj in H as [-> H]; [|done..].
  by apply append_colon_inj in H as [-> ->].
Qed.

(** and the cluster is read back from the key. *)
Lemma split_createKey_without_colon (c p q : string) :
  has_colon c = false ->
  JS.split_colon_first (WebSocketManager.createKey c p q) = c.
Proof.
  unfold WebSocketManager.createKey.
  induction c as [|a c IH]; simpl; [done|].
  intros [Ha Hc]%orb_false_iff. rewrite Ha. by rewrite IH.
Qed.

(** C8, evaluated where it fails.  Two different tuples have one key; and a
    subscription to the cluster "arn:aws" is closed on the wire under the
    cluster "arn". *)
Theorem C8_createKey_collides :
  WebSocketManager.createKey "a:b" "c" "d" = WebSocketManager.createKey "a" "b:c" "d"
  /\ ("a:b", "c", "d") <> ("a", "b:c", "d")
  /\ JS.split_colon_first (WebSocketManager.createKey "arn:aws" "/api/v1/pods" "")
     = "arn"
  /\ (WebSocketManager.run quiet any_json colon_cluster_session
                           WebSocketManager.initial).2
     = [ [WebSocketManager.OpenSocket];
         [];
         [WebSocketManager.Send
            (WebSocketManager.mkMsg "arn:aws" "/api/v1/pods" "" ""
                                    WebSocketManager.REQUEST)];
         [WebSocketManager.Send
            (WebSocketManager.mkMsg "arn" "/api/v1/pods" "" ""
                                    WebSocketManager.CLOSE);
          WebSocketManager.CloseSocket] ].
Proof.
  split; [reflexivity|]. split; [discriminate|]. split; [reflexivity|].
  vm_compute. reflexivity.
Qed.

(** ** Inbound dispatch *)

Section DispatchFacts.
Import WebSocketManager.
Variable throws : Listener -> Update -> bool.
Variable json_ok : string -> bool.

Lemma forEach_all (set : list Listener) (update : Update) :
  (forall x : Listener, x ∈ set -> throws x update = false) ->
  forEach throws set update = ((fun x => Invoke x update) <$> set, false).
Proof.
  induction set as [|x set IH]; intros H; simpl; [reflexivity|].
  rewrite (H x) by left. rewrite IH; [reflexivity|].
  intros y Hy. apply H. by right.
Qed.

(** The loop ends at the first listener that throws. *)
Lemma forEach_stops (before : list Listener) (l : Listener) (after : list Listener)
      (update : Update) :
  (forall x : Listener, x ∈ before -> throws x update = false) ->
  throws l update = true ->
  forEach throws (before ++ l :: after) update
  = (((fun x => Invoke x update) <$> before) ++ [Invoke l update], true).
Proof.
  induction before as [|x before IH]; intros H Hl; simpl.
  - by rewrite Hl.
  - rewrite (H x) by left. rewrite IH; [reflexivity| |exact Hl].
    intros y Hy. apply H. by right.
Qed.

(** A frame that reaches the listeners of its key. *)
Lemma handle_data_frame (frame : Frame) (key : string) (update : Update)
      (set : list Listener) (st : State) :
  frame_key frame = Some key ->
  type frame <> Some "COMPLETE" ->
  key ∉ completedPaths st ->
  decode_update json_ok frame = Some update ->
  listeners st !! key = Some set ->
  handleWebSocketMessage throws json_ok (JsonObject frame) st
  = (st, (forEach throws set update).1
           ++ (if (forEach throws set update).2
               then [LogError "Failed to parse WebSocket message:"] else [])).
Proof.
  intros Hkey Htype Hdone Hupd Hset. unfold handleWebSocketMessage.
  rewrite Hkey, bool_decide_eq_false_2 by done.
  rewrite bool_decide_eq_false_2 by done.
  rewrite Hupd, Hset. by destruct (forEach throws set update).
Qed.

(** No message handler changes the listeners or the socket. *)
Lemma handle_message_keeps (parsed : Parsed) (st : State) :
  listeners (handleWebSocketMessage throws json_ok parsed st).1 = listeners st
  /\ socket (handleWebSocketMessage throws json_ok parsed st).1 = socket st
  /\ completedPaths st ⊆ completedPaths (handleWebSocketMessage throws json_ok parsed st).1.
Proof.
  unfold handleWebSocketMessage, handleCompletionMessage.
  destruct parsed as [| | |frame]; simpl; try done.
  destruct (frame_key frame) as [key|]; simpl; [|done].
  repeat case_bool_decide; simpl; try done; [set_solver|].
  destruct (decode_update json_ok frame); simpl; [|done].
  destruct (listeners st !! key); simpl; [|done].
  by destruct (forEach _ _ _).
Qed.
End DispatchFacts.

(** C5, as the code has it.  A data frame for a key that is not completed is
    handed to the listeners of the key in the order they were registered,
    inside one [try] block.  When none throws, all are called and nothing
    is logged.  When one throws, the exception is caught and logged inside
    the handler, the state is unchanged, the listeners registered before it
    have been called and those registered after it are not called with this
    frame.  When parsing throws, for the payload of the frame or for the
    message itself, the exception is caught and logged in the same way, the
    state is unchanged and no listener is called. *)
Theorem C5_exception_ends_the_dispatch
        (throws : WebSocketManager.Listener -> WebSocketManager.Update -> bool)
        (json_ok : string -> bool)
        (frame : WebSocketManager.Frame) (key : string)
        (st : WebSocketManager.State)
        (Hkey : WebSocketManager.frame_key frame = Some key)
        (Htype : WebSocketManager.type frame <> Some "COMPLETE")
        (Hlive : key ∉ WebSocketManager.completedPaths st) :
  (forall (update : WebSocketManager.Update) (set : list WebSocketManager.Listener),
      WebSocketManager.decode_update json_ok frame = Some update ->
      WebSocketManager.listeners st !! key = Some set ->
      (forall x : WebSocketManager.Listener, x ∈ set -> throws x update = false) ->
      WebSocketManager.handleWebSocketMessage throws json_ok
                                              (WebSocketManager.JsonObject frame) st
      = (st, (fun x => WebSocketManager.Invoke x update) <$> set))
  /\ (forall (update : WebSocketManager.Update)
             (before : list WebSocketManager.Listener) (l : WebSocketManager.Listener)
             (after : list WebSocketManager.Listener),
         WebSocketManager.decode_update json_ok frame = Some update ->
         WebSocketManager.listeners st !! key = Some (before ++ l :: after) ->
         (forall x : WebSocketManager.Listener, x ∈ before -> throws x update = false) ->
         throws l update = true ->
         WebSocketManager.handleWebSocketMessage throws json_ok
                                                 (WebSocketManager.JsonObject frame) st
         = (st, ((fun x => WebSocketManager.Invoke x update) <$> before)
                  ++ [WebSocketManager.Invoke l update;
                      WebSocketManager.LogError "Failed to parse WebSocket message:"]))
  /\ (WebSocketManager.decode_update json_ok frame = None ->
      JS.truthy (WebSocketManager.data frame) = true
      /\ json_ok (JS.or_empty (WebSocketManager.data frame)) = false
      /\ WebSocketManager.handleWebSocketMessage throws json_ok
                                                 (WebSocketManager.JsonObject frame) st
         = (st, [WebSocketManager.LogError "Failed to parse WebSocket message:"]))
  /\ WebSocketManager.handleWebSocketMessage throws json_ok
                                             WebSocketManager.SyntaxError st
     = (st, [WebSocketManager.LogError "Failed to parse WebSocket message:"])
  /\ (forall parsed : WebSocketManager.Parsed,
         WebSocketManager.listeners
           (WebSocketManager.handleWebSocketMessage throws json_ok parsed st).1
         = WebSocketManager.listeners st
         /\ WebSocketManager.socket
              (WebSocketManager.handleWebSocketMessage throws json_ok parsed st).1
            = WebSocketManager.socket st).
Proof.
  split; [|split; [|split; [|split]]].
  - intros update set Hupdate Hset Hquiet.
    rewrite (handle_data_frame _ _ _ _ _ _ _ Hkey Htype Hlive Hupdate Hset).
    rewrite forEach_all by done. simpl. by rewrite app_nil_r.
  - intros update before l after Hupdate Hset Hquiet Hthrows.
    rewrite (handle_data_frame _ _ _ _ _ _ _ Hkey Htype Hlive Hupdate Hset).
    rewrite forEach_stops by done. simpl. by rewrite <- app_assoc.
  - intros Hnone. unfold WebSocketManager.handleWebSocketMessage.
    rewrite Hkey, bool_decide_eq_false_2 by done.
    rewrite bool_decide_eq_false_2 by done. rewrite Hnone.
    unfold WebSocketManager.decode_update in Hnone.
    destruct (JS.truthy (WebSocketManager.data frame)); [|discriminate].
    by destruct (json_ok (JS.or_empty (WebSocketManager.data frame))).
  - reflexivity.
  - intros parsed.
    by destruct (handle_message_keeps throws json_ok parsed st) as (Hl & Hs & _).
Qed.

Lemma C5_witness :
  WebSocketManager.handleWebSocketMessage
    first_throws any_json
    (WebSocketManager.JsonObject (pods_frame (Some "MODIFIED") None))
    (two_listeners (Some WebSocketManager.OPEN))
  = (two_listeners (Some WebSocketManager.OPEN),
     [WebSocketManager.Invoke 1%nat
        (WebSocketManager.WholeFrame (pods_frame (Some "MODIFIED") None));
      WebSocketManager.LogError "Failed to parse WebSocket message:"]).
Proof.
  refine (proj1 (proj2 (C5_exception_ends_the_dispatch
                          first_throws any_json (pods_frame (Some "MODIFIED") None)
                          pods_key (two_listeners (Some WebSocketManager.OPEN))
                          eq_refl _ _))
                (WebSocketManager.WholeFrame (pods_frame (Some "MODIFIED") None))
                [] 1%nat [2%nat] eq_refl _ _ eq_refl).
  - discriminate.
  - apply not_elem_of_empty.
  - apply lookup_singleton_eq.
  - intros x Hx. by apply elem_of_nil in Hx.
Defined.

(** C5 as stated fails: with listeners 1 and 2 under one key, in this order,
    and 1 throwing, a frame for the key is handed to 1 only. *)
Lemma C5_second_listener_is_skipped :
  WebSocketManager.listeners (two_listeners (Some WebSocketManager.OPEN)) !! pods_key
  = Some [1%nat; 2%nat]
  /\ (WebSocketManager.handleWebSocketMessage
        first_throws any_json
        (WebSocketManager.JsonObject (pods_frame (Some "MODIFIED") None))
        (two_listeners (Some WebSocketManager.OPEN))).2
     = [WebSocketManager.Invoke 1%nat
          (WebSocketManager.WholeFrame (pods_frame (Some "MODIFIED") None));
        WebSocketManager.LogError "Failed to parse WebSocket message:"]
  /\ WebSocketManager.Invoke 2%nat
       (WebSocketManager.WholeFrame (pods_frame (Some "MODIFIED") None))
     ∉ (WebSocketManager.handleWebSocketMessage
          first_throws any_json
          (WebSocketManager.JsonObject (pods_frame (Some "MODIFIED") None))
          (two_listeners (Some WebSocketManager.OPEN))).2.
Proof.
  split; [apply lookup_singleton_eq|].
  assert (H : (WebSocketManager.handleWebSocketMessage
        first_throws any_json
        (WebSocketManager.JsonObject (pods_frame (Some "MODIFIED") None))
        (two_listeners (Some WebSocketManager.OPEN))).2
     = [WebSocketManager.Invoke 1%nat
          (WebSocketManager.WholeFrame (pods_frame (Some "MODIFIED") None));
        WebSocketManager.LogError "Failed to parse WebSocket message:"])
    by (vm_compute; reflexivity).
  split; [exact H|]. rewrite H.
  intros Hin. apply elem_of_cons in Hin as [Hin|Hin]; [discriminate|].
  apply elem_of_cons in Hin as [Hin|Hin]; [discriminate|].
  by apply elem_of_nil in Hin.
Qed.

(** ** Completion gating *)

Section GatingFacts.
Import WebSocketManager.
Variable throws : Listener -> Update -> bool.
Variable json_ok : string -> bool.

Lemma handle_complete_frame (frame : Frame) (key : string) (st : State) :
  frame_key frame = Some key ->
  type frame = Some "COMPLETE" ->
  handleWebSocketMessage throws json_ok (JsonObject frame) st
  = handleCompletionMessage frame key st.
Proof.
  intros Hkey Htype. unfold handleWebSocketMessage.
  by rewrite Hkey, bool_decide_eq_true_2.
Qed.

(** A frame for a completed key calls no listener and leaves the key
    completed. *)
Lemma handle_gated_frame (frame : Frame) (key : string) (st : State) :
  key ∈ completedPaths st ->
  frame_key frame = Some key ->
  filter is_Invoke (handleWebSocketMessage throws json_ok (JsonObject frame) st).2 = []
  /\ key ∈ completedPaths (handleWebSocketMessage throws json_ok (JsonObject frame) st).1.
Proof.
  intros Hdone Hkey. unfold handleWebSocketMessage. rewrite Hkey.
  case_bool_decide.
  - unfold handleCompletionMessage. simpl. split; [by destruct (socket_open st)|].
    set_solver.
  - by rewrite bool_decide_eq_true_2.
Qed.

Lemma connect_keeps (st : State) :
  listeners (connect st).1 = listeners st
  /\ completedPaths (connect st).1 = completedPaths st.
Proof. unfold connect. by destruct (socket_open st), (connecting st). Qed.

Lemma unsubscribe_completed (key : string) (l : Listener) (u : option string)
      (p q : string) (st : State) :
  completedPaths (handleUnsubscribe key l u p q st).1
  = if last_unsubscribe key (Unsubscribe key l u p q) st
    then completedPaths st ∖ {[key]}
    else completedPaths st.
Proof.
  unfold handleUnsubscribe, last_unsubscribe.
  rewrite bool_decide_eq_true_2 by done. simpl.
  destruct (listeners st !! key) as [set|]; simpl.
  - destruct (Set_delete l set) as [|x rest]; simpl;
      by destruct (bool_decide _ && bool_decide _).
  - by destruct (bool_decide _ && bool_decide _).
Qed.

(** Only the last unsubscribe of a key takes it out of the completed
    paths. *)
Lemma step_keeps_completed (key : string) (op : Op) (st : State) :
  key ∈ completedPaths st ->
  last_unsubscribe key op st = false ->
  key ∈ completedPaths (step throws json_ok op st).1.
Proof.
  intros Hdone Hlast. destruct op; simpl.
  - unfold subscribe. by rewrite (proj2 (connect_keeps _)).
  - done.
  - rewrite unsubscribe_completed.
    destruct (last_unsubscribe key0 _ st) eqn:Hk; [|done].
    apply elem_of_difference. split; [done|].
    intros ->%elem_of_singleton. simpl in Hlast, Hk. congruence.
  - by apply (handle_message_keeps throws json_ok parsed st).
  - done.
  - done.
  - done.
  - by rewrite (proj2 (connect_keeps _)).
  - done.
Qed.

Lemma step_last_unsubscribe (key : string) (op : Op) (st : State) :
  last_unsubscribe key op st = true ->
  key ∉ completedPaths (step throws json_ok op st).1.
Proof.
  destruct op; simpl; try discriminate.
  intros H. assert (key0 = key) as ->.
  { apply andb_true_iff in H as [H _]. by apply bool_decide_eq_true in H. }
  rewrite unsubscribe_completed. simpl. rewrite H.
  intros [_ Hn]%elem_of_difference. apply Hn. by apply elem_of_singleton.
Qed.

(** The effects of the [i]-th operation of a run are those of its step
    from the state the operations before it lead to. *)
Lemma run_gated (key : string) (ops : list Op) :
  forall st : State,
    key ∈ completedPaths st ->
    no_last_unsubscribe throws json_ok key ops st = true ->
    key ∈ completedPaths (run throws json_ok ops st).1
    /\ forall (i : nat) (frame : Frame),
        ops !! i = Some (OnMessage (JsonObject frame)) ->
        frame_key frame = Some key ->
        exists out : list Effect,
          (run throws json_ok ops st).2 !! i = Some out
          /\ filter is_Invoke out = [].
Proof.
  induction ops as [|op ops IH]; intros st Hdone Hno; simpl.
  - split; [done|]. intros i frame Hi. by rewrite lookup_nil in Hi.
  - simpl in Hno. apply andb_true_iff in Hno as [Hlast Hno].
    apply negb_true_iff in Hlast.
    pose proof (step_keeps_completed key op st Hdone Hlast) as Hdone'.
    assert (Hout : forall frame : Frame,
               op = OnMessage (JsonObject frame) -> frame_key frame = Some key ->
               filter is_Invoke (step throws json_ok op st).2 = []).
    { intros frame -> Hkey. apply (handle_gated_frame frame key st Hdone Hkey). }
    destruct (step throws json_ok op st) as [st' out].
    destruct (IH st' Hdone' Hno) as [Hfinal Hframes].
    destruct (run throws json_ok ops st') as [st'' outs].
    split; [exact Hfinal|]. intros [|i] frame Hi Hkey.
    + injection Hi as Hop. exists out. split; [reflexivity|].
      by apply (Hout frame).
    + by apply (Hframes i frame).
Qed.
End GatingFacts.

(** C3, as the code has it.  A COMPLETE frame for key K adds K to the
    completed paths, calls no listener, and is answered by a CLOSE frame
    when the socket the manager holds is open, by nothing otherwise.  From
    a state where K is completed, through any operations none of which is
    the unsubscribe of the last listener of K, K stays completed and no
    frame whose key is K calls a listener; the unsubscribe of the last
    listener of K takes K out of the completed paths. *)
Theorem C3_completion_gating
        (throws : WebSocketManager.Listener -> WebSocketManager.Update -> bool)
        (json_ok : string -> bool)
        (st : WebSocketManager.State) (K : string) :
  (forall frame : WebSocketManager.Frame,
      WebSocketManager.frame_key frame = Some K ->
      WebSocketManager.type frame = Some "COMPLETE" ->
      WebSocketManager.handleWebSocketMessage throws json_ok
                                              (WebSocketManager.JsonObject frame) st
      = (WebSocketManager.mkState
           (WebSocketManager.socket st) (WebSocketManager.connecting st)
           (WebSocketManager.listeners st)
           ({[K]} ∪ WebSocketManager.completedPaths st),
         if WebSocketManager.socket_open st
         then [WebSocketManager.Send
                 (WebSocketManager.mkMsg
                    (JS.or_empty (WebSocketManager.clusterId frame))
                    (JS.or_empty (WebSocketManager.path frame))
                    (JS.or_empty (WebSocketManager.query frame))
                    (JS.or_empty (WebSocketManager.userId frame))
                    WebSocketManager.CLOSE)]
         else []))
  /\ (K ∈ WebSocketManager.completedPaths st ->
      forall ops : list WebSocketManager.Op,
        no_last_unsubscribe throws json_ok K ops st = true ->
        K ∈ WebSocketManager.completedPaths (WebSocketManager.run throws json_ok ops st).1
        /\ forall (i : nat) (frame : WebSocketManager.Frame),
            ops !! i = Some (WebSocketManager.OnMessage (WebSocketManager.JsonObject frame)) ->
            WebSocketManager.frame_key frame = Some K ->
            exists out : list WebSocketManager.Effect,
              (WebSocketManager.run throws json_ok ops st).2 !! i = Some out
              /\ filter WebSocketManager.is_Invoke out = [])
  /\ (forall op : WebSocketManager.Op,
         last_unsubscribe K op st = true ->
         K ∉ WebSocketManager.completedPaths (WebSocketManager.step throws json_ok op st).1).
Proof.
  split; [|split].
  - intros frame Hkey Htype. by rewrite (handle_complete_frame _ _ _ _ _ Hkey Htype).
  - intros Hdone ops Hno. by apply run_gated.
  - intros op. apply step_last_unsubscribe.
Qed.

Lemma C3_witness :
  exists out : list WebSocketManager.Effect,
    (WebSocketManager.run
       quiet any_json
       [WebSocketManager.OnMessage
          (WebSocketManager.JsonObject (pods_frame (Some "MODIFIED") None))]
       (WebSocketManager.mkState (Some WebSocketManager.OPEN) false
                                 {[pods_key := [1%nat]]} {[pods_key]})).2 !! 0%nat
    = Some out
    /\ filter WebSocketManager.is_Invoke out = [].
Proof.
  destruct (C3_completion_gating
              quiet any_json
              (WebSocketManager.mkState (Some WebSocketManager.OPEN) false
                                        {[pods_key := [1%nat]]} {[pods_key]})
              pods_key) as (_ & Hgated & _).
  refine (proj2 (Hgated _ [WebSocketManager.OnMessage
                             (WebSocketManager.JsonObject
                                (pods_frame (Some "MODIFIED") None))] eq_refl)
                0%nat (pods_frame (Some "MODIFIED") None) eq_refl eq_refl).
  simpl. by apply elem_of_singleton.
Defined.

(** C3 as stated fails: in [stale_close_session] the manager holds no socket
    when the COMPLETE frame arrives; the key is marked completed and no
    CLOSE frame is sent in answer (the last list of effects is empty). *)
Lemma C3_no_close_without_socket :
  WebSocketManager.run quiet any_json stale_close_session WebSocketManager.initial
  = (WebSocketManager.mkState None false {[pods_key := [2%nat]]} {[pods_key]},
     [ [WebSocketManager.OpenSocket];
       [];
       [WebSocketManager.Send
          (WebSocketManager.mkMsg "c1" "/api/v1/pods" "" "" WebSocketManager.REQUEST)];
       [WebSocketManager.Send
          (WebSocketManager.mkMsg "c1" "/api/v1/pods" "" "" WebSocketManager.CLOSE);
        WebSocketManager.CloseSocket];
       [WebSocketManager.OpenSocket];
       [];
       [WebSocketManager.Send
          (WebSocketManager.mkMsg "c1" "/api/v1/pods" "" "" WebSocketManager.REQUEST)];
       [WebSocketManager.LogInfo "WebSocket closed, attempting reconnect...";
        WebSocketManager.SetTimeoutConnect 1000];
       [] ])
  /\ WebSocketManager.handleWebSocketMessage
       quiet any_json
       (WebSocketManager.JsonObject (pods_frame (Some "COMPLETE") None))
       (WebSocketManager.mkState None false {[pods_key := [2%nat]]} ∅)
     = (WebSocketManager.mkState None false {[pods_key := [2%nat]]} {[pods_key]}, []).
Proof. split; vm_compute; reflexivity. Qed.

(** ** The subscriber registry *)

Section RegistryFacts.
Import WebSocketManager.
Variable throws : Listener -> Update -> bool.
Variable json_ok : string -> bool.

Lemma Set_add_nonempty (l : Listener) (set : list Listener) : Set_add l set <> [].
Proof.
  unfold Set_add. case_bool_decide as Hin.
  - intros ->. by apply elem_of_nil in Hin.
  - by destruct set.
Qed.

Lemma Set_delete_not_elem (l : Listener) (set : list Listener) : l ∉ Set_delete l set.
Proof. unfold Set_delete. intros [H _]%list_elem_of_filter. by apply H. Qed.

Lemma insert_size_nonzero (key : string) (set : list Listener)
      (m : gmap string (list Listener)) :
  bool_decide (size (<[key := set]> m) = 0%nat) = false.
Proof.
  apply bool_decide_eq_false. intros H%map_size_empty_iff.
  by apply insert_non_empty in H.
Qed.

(** [handleUnsubscribe], case by case. *)
Lemma unsubscribe_last (key : string) (l : Listener) (u : option string)
      (p q : string) (st : State) (set : list Listener) :
  listeners st !! key = Some set ->
  Set_delete l set = [] ->
  handleUnsubscribe key l u p q st
  = let close :=
      if socket_open st
      then [Send (mkMsg (JS.split_colon_first key) p q (JS.or_empty u) CLOSE)]
      else [] in
    if bool_decide (size (delete key (listeners st)) = 0%nat)
       && bool_decide (socket st <> None)
    then (mkState None (connecting st) (delete key (listeners st))
                  (completedPaths st ∖ {[key]}), close ++ [CloseSocket])
    else (mkState (socket st) (connecting st) (delete key (listeners st))
                  (completedPaths st ∖ {[key]}), close).
Proof.
  intros Hset Hlast. unfold handleUnsubscribe. rewrite Hset, Hlast. simpl.
  by destruct (bool_decide _ && bool_decide _).
Qed.

Lemma unsubscribe_not_last (key : string) (l : Listener) (u : option string)
      (p q : string) (st : State) (set : list Listener) :
  listeners st !! key = Some set ->
  Set_delete l set <> [] ->
  handleUnsubscribe key l u p q st
  = (mkState (socket st) (connecting st)
             (<[key := Set_delete l set]> (listeners st)) (completedPaths st), []).
Proof.
  intros Hset Hlast. unfold handleUnsubscribe. rewrite Hset.
  rewrite (bool_decide_eq_false_2 (length (Set_delete l set) = 0%nat)).
  - simpl. by rewrite insert_size_nonzero.
  - by intros H%length_zero_iff_nil.
Qed.

Lemma unsubscribe_unknown (key : string) (l : Listener) (u : option string)
      (p q : string) (st : State) :
  listeners st !! key = None ->
  handleUnsubscribe key l u p q st
  = if bool_decide (size (listeners st) = 0%nat) && bool_decide (socket st <> None)
    then (mkState None (connecting st) (listeners st) (completedPaths st), [CloseSocket])
    else (st, []).
Proof. intros Hset. unfold handleUnsubscribe. by rewrite Hset. Qed.

(** After it the listener is not registered under the key. *)
Lemma unsubscribe_removes (key : string) (l : Listener) (u : option string)
      (p q : string) (st : State) :
  ~ registered (handleUnsubscribe key l u p q st).1 key l.
Proof.
  intros (set' & Hset' & Hin).
  destruct (listeners st !! key) as [set|] eqn:Hset.
  - destruct (decide (Set_delete l set = [])) as [Hlast|Hlast].
    + rewrite (unsubscribe_last _ _ _ _ _ _ _ Hset Hlast) in Hset'. simpl in Hset'.
      destruct (bool_decide _ && bool_decide _); simpl in Hset';
        by rewrite lookup_delete_eq in Hset'.
    + rewrite (unsubscribe_not_last _ _ _ _ _ _ _ Hset Hlast) in Hset'. simpl in Hset'.
      rewrite lookup_insert_eq in Hset'. injection Hset' as <-.
      by apply Set_delete_not_elem in Hin.
  - rewrite (unsubscribe_unknown _ _ _ _ _ _ Hset) in Hset'.
    destruct (bool_decide _ && bool_decide _); simpl in Hset'; congruence.
Qed.

(** When no key is left the manager holds no socket, and it has closed the
    one it held. *)
Lemma unsubscribe_empties (key : string) (l : Listener) (u : option string)
      (p q : string) (st : State) :
  size (listeners (handleUnsubscribe key l u p q st).1) = 0%nat ->
  socket (handleUnsubscribe key l u p q st).1 = None
  /\ filter is_CloseSocket (handleUnsubscribe key l u p q st).2
     = if bool_decide (socket st <> None) then [CloseSocket] else [].
Proof.
  destruct (listeners st !! key) as [set|] eqn:Hset.
  - destruct (decide (Set_delete l set = [])) as [Hlast|Hlast].
    + rewrite (unsubscribe_last _ _ _ _ _ _ _ Hset Hlast). simpl.
      case_bool_decide as Hsize; simpl.
      * intros _. case_bool_decide as Hsock; simpl.
        -- split; [done|]. by destruct (socket_open st).
        -- split; [done|]. by destruct (socket_open st).
      * done.
    + rewrite (unsubscribe_not_last _ _ _ _ _ _ _ Hset Hlast). simpl.
      intros H. pose proof (insert_size_nonzero key (Set_delete l set) (listeners st)) as Hn.
      by apply bool_decide_eq_false in Hn.
  - rewrite (unsubscribe_unknown _ _ _ _ _ _ Hset).
    case_bool_decide as Hsize; simpl.
    + intros _. case_bool_decide as Hsock; simpl; [done|].
      by split.
    + done.
Qed.

(** Every step keeps the listener sets of the registry non-empty. *)
Lemma step_nonempty (op : Op) (st : State) :
  nonempty_sets st -> nonempty_sets (step throws json_ok op st).1.
Proof.
  intros Hinv.
  destruct op as [c p q l|c p q u|k l u p q|parsed| | | | |rs]; simpl; try done.
  - unfold subscribe. intros key set.
    rewrite (proj1 (connect_keeps _)). simpl.
    destruct (decide (createKey c p q = key)) as [->|Hne].
    + rewrite lookup_insert_eq. intros [= <-]. apply Set_add_nonempty.
    + rewrite lookup_insert_ne by done. apply Hinv.
  - intros key set'. destruct (listeners st !! k) as [set|] eqn:Hset.
    + destruct (decide (Set_delete l set = [])) as [Hlast|Hlast].
      * rewrite (unsubscribe_last _ _ _ _ _ _ _ Hset Hlast). simpl.
        destruct (bool_decide _ && bool_decide _); simpl;
          intros H%lookup_delete_Some; by apply (Hinv key), H.
      * rewrite (unsubscribe_not_last _ _ _ _ _ _ _ Hset Hlast). simpl.
        destruct (decide (k = key)) as [->|Hne].
        -- rewrite lookup_insert_eq. by intros [= <-].
        -- rewrite lookup_insert_ne by done. apply Hinv.
    + rewrite (unsubscribe_unknown _ _ _ _ _ _ Hset).
      destruct (bool_decide _ && bool_decide _); apply Hinv.
  - intros key set. rewrite (proj1 (handle_message_keeps throws json_ok parsed st)).
    apply Hinv.
  - intros key set. rewrite (proj1 (connect_keeps _)). apply Hinv.
Qed.

Lemma run_nonempty (ops : list Op) :
  forall st : State, nonempty_sets st -> nonempty_sets (run throws json_ok ops st).1.
Proof.
  induction ops as [|op ops IH]; intros st Hinv; simpl; [done|].
  pose proof (step_nonempty op st Hinv) as Hinv'.
  destruct (step throws json_ok op st) as [st' out].
  specialize (IH st' Hinv'). by destruct (run throws json_ok ops st').
Qed.

Lemma initial_nonempty : nonempty_sets initial.
Proof. intros key set H. simpl in H. by rewrite lookup_empty in H. Qed.
End RegistryFacts.

(** C4, as the code has it.  In every state the manager reaches, a key is in
    the registry exactly when a listener is registered under it.  An
    unsubscribe takes the listener out of the set of its key.  When that set
    becomes empty the key is deleted, its completed-path mark is cleared,
    and a CLOSE frame is sent when the socket the manager holds is open,
    none otherwise.  When no key is left after an unsubscribe the manager
    holds no socket, and it has closed the socket if it held one.  With two
    listeners under one key, the unsubscribe of one has no effect on the
    socket or the wire, and a later data frame for the key is handed to the
    other. *)
Theorem C4_subscriber_registry
        (throws : WebSocketManager.Listener -> WebSocketManager.Update -> bool)
        (json_ok : string -> bool)
        (st : WebSocketManager.State) (key : string) (l : WebSocketManager.Listener)
        (u : option string) (p q : string) :
  (forall (ops : list WebSocketManager.Op) (k : string),
      is_Some (WebSocketManager.listeners
                 (WebSocketManager.run throws json_ok ops WebSocketManager.initial).1 !! k)
      <-> (exists x : WebSocketManager.Listener,
              registered (WebSocketManager.run throws json_ok ops WebSocketManager.initial).1
                         k x))
  /\ ~ registered (WebSocketManager.handleUnsubscribe key l u p q st).1 key l
  /\ (forall set : list WebSocketManager.Listener,
         WebSocketManager.listeners st !! key = Some set ->
         WebSocketManager.Set_delete l set = [] ->
         WebSocketManager.listeners
           (WebSocketManager.handleUnsubscribe key l u p q st).1 !! key = None
         /\ (key ∉ WebSocketManager.completedPaths
                     (WebSocketManager.handleUnsubscribe key l u p q st).1)
         /\ filter WebSocketManager.is_Send
                   (WebSocketManager.handleUnsubscribe key l u p q st).2
            = if WebSocketManager.socket_open st
              then [WebSocketManager.Send
                      (WebSocketManager.mkMsg (JS.split_colon_first key) p q
                                              (JS.or_empty u) WebSocketManager.CLOSE)]
              else [])
  /\ (size (WebSocketManager.listeners
              (WebSocketManager.handleUnsubscribe key l u p q st).1) = 0%nat ->
      WebSocketManager.socket (WebSocketManager.handleUnsubscribe key l u p q st).1 = None
      /\ filter is_CloseSocket (WebSocketManager.handleUnsubscribe key l u p q st).2
         = if bool_decide (WebSocketManager.socket st <> None)
           then [WebSocketManager.CloseSocket] else [])
  /\ (forall (set : list WebSocketManager.Listener) (other : WebSocketManager.Listener),
         WebSocketManager.listeners st !! key = Some set ->
         WebSocketManager.Set_delete l set = [other] ->
         WebSocketManager.handleUnsubscribe key l u p q st
         = (WebSocketManager.mkState
              (WebSocketManager.socket st) (WebSocketManager.connecting st)
              (<[key := [other]]> (WebSocketManager.listeners st))
              (WebSocketManager.completedPaths st), [])
         /\ forall (frame : WebSocketManager.Frame) (update : WebSocketManager.Update),
             WebSocketManager.frame_key frame = Some key ->
             WebSocketManager.type frame <> Some "COMPLETE" ->
             key ∉ WebSocketManager.completedPaths st ->
             WebSocketManager.decode_update json_ok frame = Some update ->
             (WebSocketManager.handleWebSocketMessage
                throws json_ok (WebSocketManager.JsonObject frame)
                (WebSocketManager.handleUnsubscribe key l u p q st).1).2
             = WebSocketManager.Invoke other update
                 :: (if throws other update
                     then [WebSocketManager.LogError "Failed to parse WebSocket message:"]
                     else [])).
Proof.
  split; [|split; [|split; [|split]]].
  - intros ops k.
    pose proof (run_nonempty throws json_ok ops _ initial_nonempty) as Hinv.
    split.
    + intros [set Hset]. specialize (Hinv k set Hset).
      destruct set as [|x set]; [done|]. exists x, (x :: set). split; [done|left].
    + intros (x & set & Hset & _). by exists set.
  - apply unsubscribe_removes.
  - intros set Hset Hlast. rewrite (unsubscribe_last _ _ _ _ _ _ _ Hset Hlast). simpl.
    destruct (bool_decide _ && bool_decide _); simpl;
      (split; [apply lookup_delete_eq|]);
      (split; [intros [_ Hn]%elem_of_difference; apply Hn; by apply elem_of_singleton|]);
      by destruct (WebSocketManager.socket_open st).
  - apply unsubscribe_empties.
  - intros set other Hset Hother.
    assert (Hne : WebSocketManager.Set_delete l set <> []) by by rewrite Hother.
    rewrite (unsubscribe_not_last _ _ _ _ _ _ _ Hset Hne), Hother.
    split; [reflexivity|]. intros frame update Hkey Htype Hlive Hupdate.
    rewrite (handle_data_frame throws json_ok frame key update [other]); try done.
    + simpl. by destruct (throws other update).
    + simpl. apply lookup_insert_eq.
Qed.

Lemma C4_witness :
  (WebSocketManager.handleWebSocketMessage
     quiet any_json
     (WebSocketManager.JsonObject (pods_frame (Some "MODIFIED") None))
     (WebSocketManager.handleUnsubscribe pods_key 1%nat None "/api/v1/pods" ""
                                         (two_listeners (Some WebSocketManager.OPEN))).1).2
  = [WebSocketManager.Invoke 2%nat
       (WebSocketManager.WholeFrame (pods_frame (Some "MODIFIED") None))].
Proof.
  destruct (C4_subscriber_registry
              quiet any_json (two_listeners (Some WebSocketManager.OPEN))
              pods_key 1%nat None "/api/v1/pods" "")
    as (_ & _ & _ & _ & Htwo).
  destruct (Htwo [1%nat; 2%nat] 2%nat (lookup_singleton_eq _ _) eq_refl) as [_ Hframe].
  apply (Hframe (pods_frame (Some "MODIFIED") None)
                (WebSocketManager.WholeFrame (pods_frame (Some "MODIFIED") None))
                eq_refl).
  - discriminate.
  - apply not_elem_of_empty.
  - reflexivity.
Defined.

(** C4 as stated fails: in [dropped_socket_session] the manager holds no
    socket when the last listener of the key unsubscribes; the key is
    deleted and no CLOSE frame is sent (the last list of effects is
    empty). *)
Lemma C4_no_close_without_socket :
  WebSocketManager.run quiet any_json dropped_socket_session WebSocketManager.initial
  = (WebSocketManager.initial,
     [ [WebSocketManager.OpenSocket];
       [];
       [WebSocketManager.Send
          (WebSocketManager.mkMsg "c1" "/api/v1/pods" "" "" WebSocketManager.REQUEST)];
       [WebSocketManager.LogInfo "WebSocket closed, attempting reconnect...";
        WebSocketManager.SetTimeoutConnect 1000];
       [] ])
  /\ WebSocketManager.handleUnsubscribe pods_key 1%nat None "/api/v1/pods" ""
                                        (one_listener None)
     = (WebSocketManager.initial, []).
Proof. split; vm_compute; reflexivity. Qed.

(** ** Failover *)

Section FailoverFacts.
Import RepeatStreamFunc.
Variable endpoints : nat.
Variable has_errCb : bool.

(** The three ways [cancel] goes. *)
Lemma cancel_switches (err : ApiError) (c : nat) (st : State) :
  isCancelled st = false ->
  status err = Some 404 ->
  (endpointIndex st < endpoints)%nat ->
  cancel endpoints has_errCb err (Some c) st
  = (mkState false (streamCancel st) (S (endpointIndex st))
             (awaiting st ++ [endpointIndex st]),
     [CancelStream c; StartStream (endpointIndex st)]).
Proof.
  intros Hlive H404 Hnext. unfold cancel, runStreamFunc.
  rewrite Hlive, bool_decide_eq_true_2 by done.
  assert (Hlt : (endpointIndex st <? endpoints)%nat = true) by by apply Nat.ltb_lt.
  by rewrite Hlt.
Qed.

Lemma cancel_propagates (err : ApiError) (c : option nat) (st : State) :
  isCancelled st = false ->
  (endpoints <= endpointIndex st)%nat \/ status err <> Some 404 ->
  cancel endpoints has_errCb err c st
  = (st, if has_errCb then [CallErrCb err (streamCancel st)] else []).
Proof.
  intros Hlive Hno. unfold cancel. rewrite Hlive.
  assert (Hcond : bool_decide (status err = Some 404)
                  && (endpointIndex st <? endpoints)%nat = false).
  { destruct Hno as [Hex|Hst].
    - apply andb_false_iff. right. apply Nat.ltb_ge. lia.
    - apply andb_false_iff. left. by apply bool_decide_eq_false. }
  rewrite Hcond. by destruct has_errCb.
Qed.

Lemma cancel_after_cancel (err : ApiError) (c : option nat) (st : State) :
  isCancelled st = true -> cancel endpoints has_errCb err c st = (st, []).
Proof. intros H. unfold cancel. by rewrite H. Qed.

(** Phases under the effects of the router. *)
Lemma phase_at_insert (cs : list Candidate) (i j : nat) (c : Candidate) :
  phase_at (<[i := c]> cs) j
  = if bool_decide (i = j /\ (i < length cs)%nat) then phase c else phase_at cs j.
Proof.
  unfold phase_at. case_bool_decide as H.
  - destruct H as [-> Hlt]. by rewrite list_lookup_insert_eq.
  - destruct (decide (i = j)) as [->|Hne].
    + rewrite list_insert_ge; [done|]. lia.
    + by rewrite list_lookup_insert_ne.
Qed.

Lemma initial_inv : (0 < endpoints)%nat -> failover_inv endpoints (initial endpoints).1.
Proof.
  intros Hpos. unfold initial, start, runStreamFunc.
  assert (Hlt : (0 <? endpoints)%nat = true) by by apply Nat.ltb_lt.
  rewrite Hlt. unfold failover_inv. simpl. split; [|split].
  - by rewrite length_insert, length_replicate.
  - lia.
  - intros j. split; [lia|]. intros Hj.
    rewrite phase_at_insert. case_bool_decide as H; [lia|].
    unfold phase_at. destruct (replicate endpoints _ !! j) as [c|] eqn:Hc; [|done].
    by apply lookup_replicate in Hc as [-> _].
Qed.

(** A stream that is fetching or streaming is the newest one. *)
Lemma inv_active (s : System) (i : nat) (c : Candidate) :
  failover_inv endpoints s ->
  candidates s !! i = Some c ->
  is_active c = true ->
  S i = endpointIndex (router s).
Proof.
  intros (_ & _ & Hph) Hc Hact. destruct (Hph i) as [Hold Hnew].
  unfold phase_at in Hold, Hnew. rewrite Hc in Hold, Hnew.
  unfold is_active in Hact.
  destruct (decide (S i < endpointIndex (router s))%nat) as [Hlt|Hge].
  { rewrite (Hold Hlt) in Hact. discriminate. }
  destruct (decide (endpointIndex (router s) <= i)%nat) as [Hle|Hgt].
  { rewrite (Hnew Hle) in Hact. discriminate. }
  lia.
Qed.

Lemma step_inv (ev : Event) (s : System) :
  failover_inv endpoints s ->
  failover_inv endpoints (sys_step endpoints has_errCb ev s).1.
Proof.
  intros Hinv. pose proof Hinv as (Hlen & Hbound & Hph).
  unfold failover_inv. destruct ev as [i|i err|i| |]; simpl.
  - destruct (candidates s !! i) as [[[] []]|] eqn:Hc; try done; simpl;
      (assert (Hi : S i = endpointIndex (router s))
        by (by eapply inv_active));
      (split; [by rewrite length_insert|]); (split; [done|]);
      intros j; rewrite phase_at_insert; case_bool_decide as H;
        try (destruct H as [-> _]; split; intros; lia); apply Hph.
  - destruct (candidates s !! i) as [[[] c]|] eqn:Hc; try done.
    assert (Hi : S i = endpointIndex (router s)) by (by eapply inv_active).
    assert (Hlt : (i < length (candidates s))%nat)
      by (apply lookup_lt_is_Some; eauto).
    destruct (isCancelled (router s)) eqn:Hlive.
    { rewrite cancel_after_cancel by done. simpl.
      split; [by rewrite length_insert|]. split; [done|].
      intros j. rewrite phase_at_insert. case_bool_decide as H; [|apply Hph].
      destruct H as [-> _]. split; intros; lia. }
    destruct (decide (status err = Some 404
                      /\ (endpointIndex (router s) < endpoints)%nat)) as [[H404 Hnext]|Hno].
    + rewrite cancel_switches by done. simpl.
      rewrite list_lookup_insert_eq by done. simpl.
      split; [by rewrite !length_insert|]. split; [lia|].
      intros j. rewrite !phase_at_insert, !length_insert.
      repeat case_bool_decide; simpl; split; intros; try lia; try done;
        apply Hph; lia.
    + rewrite cancel_propagates; [|done|].
      * assert (Hsame : apply_effects
                          (if has_errCb
                           then [CallErrCb err (streamCancel (router s))] else [])
                          (<[i := mkCand Finished c]> (candidates s))
                        = <[i := mkCand Finished c]> (candidates s))
          by by destruct has_errCb.
        simpl. rewrite Hsame.
        split; [by rewrite length_insert|]. split; [done|].
        intros j. rewrite phase_at_insert. case_bool_decide as H; [|apply Hph].
        destruct H as [-> _]. split; intros; lia.
      * destruct (decide (status err = Some 404)) as [H404|H404]; [|by right].
        left. apply Nat.le_ngt. intros Hnext. by apply Hno.
  - by destruct (candidates s !! i) as [[[] ?]|].
  - unfold resume. by destruct (awaiting (router s)).
  - unfold returned_cancel. destruct (streamCancel (router s)) as [c|]; simpl; [|done].
    destruct (candidates s !! c) as [cc|] eqn:Hcc; [|done].
    split; [by rewrite length_insert|]. split; [done|].
    intros j. rewrite phase_at_insert. case_bool_decide as H; [|apply Hph].
    destruct H as [-> _]. simpl. specialize (Hph j).
    unfold phase_at in Hph. by rewrite Hcc in Hph.
Qed.

Lemma run_inv (evs : list Event) :
  forall s : System,
    failover_inv endpoints s ->
    failover_inv endpoints (sys_run endpoints has_errCb evs s).
Proof.
  induction evs as [|ev evs IH]; intros s Hinv; simpl; [done|].
  apply IH. by apply step_inv.
Qed.

(** Data comes from a stream that is fetching or streaming. *)
Lemma deliver_active (ev : Event) (s : System) (i : nat) :
  Deliver i ∈ (sys_step endpoints has_errCb ev s).2 ->
  exists c : Candidate, candidates s !! i = Some c /\ is_active c = true.
Proof.
  destruct ev as [k|k err|k| |]; simpl.
  - destruct (candidates s !! k) as [[[] []]|] eqn:Hc; simpl;
      try (by intros H%elem_of_nil).
    intros H%list_elem_of_singleton. injection H as ->. eauto.
  - destruct (candidates s !! k) as [[[] c]|] eqn:Hc; simpl;
      try (by intros H%elem_of_nil).
    destruct (cancel endpoints has_errCb err (Some k) (router s)) as [r out]. simpl.
    intros (e & He & _)%list_elem_of_fmap. discriminate.
  - destruct (candidates s !! k) as [[[] c]|] eqn:Hc; simpl;
      try (by intros H%elem_of_nil).
    intros H%list_elem_of_singleton. injection H as ->. eauto.
  - by intros H%elem_of_nil.
  - destruct (returned_cancel (router s)) as [r out]. simpl.
    intros (e & He & _)%list_elem_of_fmap. discriminate.
Qed.
End FailoverFacts.

(** C6.  When a stream reports a 404 to a router that is not cancelled and
    an endpoint remains, the router calls the cancel handle that came with
    the report and then starts the stream of the next endpoint, once, and
    moves on by one endpoint.  When no endpoint remains (or the error is not
    a 404) the router starts nothing and hands the error to the caller's
    error callback.  Through every sequence of events, at most one stream
    is fetching or streaming, and data comes from that one only: when the
    active stream reports the 404 it has finished before the next starts. *)
Theorem C6_failover_switches_in_order
        (endpoints : nat) (has_errCb : bool) (Hsome : (0 < endpoints)%nat) :
  (forall (st : RepeatStreamFunc.State) (err : ApiError) (c : nat),
      RepeatStreamFunc.isCancelled st = false ->
      status err = Some 404 ->
      (RepeatStreamFunc.endpointIndex st < endpoints)%nat ->
      RepeatStreamFunc.cancel endpoints has_errCb err (Some c) st
      = (RepeatStreamFunc.mkState
           false (RepeatStreamFunc.streamCancel st)
           (S (RepeatStreamFunc.endpointIndex st))
           (RepeatStreamFunc.awaiting st ++ [RepeatStreamFunc.endpointIndex st]),
         [RepeatStreamFunc.CancelStream c;
          RepeatStreamFunc.StartStream (RepeatStreamFunc.endpointIndex st)]))
  /\ (forall (st : RepeatStreamFunc.State) (err : ApiError) (c : option nat),
         RepeatStreamFunc.isCancelled st = false ->
         (endpoints <= RepeatStreamFunc.endpointIndex st)%nat \/ status err <> Some 404 ->
         RepeatStreamFunc.cancel endpoints has_errCb err c st
         = (st, if has_errCb
                then [RepeatStreamFunc.CallErrCb err (RepeatStreamFunc.streamCancel st)]
                else []))
  /\ (forall evs : list RepeatStreamFunc.Event,
         let s := RepeatStreamFunc.sys_run endpoints has_errCb evs
                                           (RepeatStreamFunc.initial endpoints).1 in
         (forall (i j : nat) (ci cj : RepeatStreamFunc.Candidate),
             RepeatStreamFunc.candidates s !! i = Some ci ->
             RepeatStreamFunc.candidates s !! j = Some cj ->
             RepeatStreamFunc.is_active ci = true ->
             RepeatStreamFunc.is_active cj = true ->
             i = j)
         /\ (forall (ev : RepeatStreamFunc.Event) (i : nat),
                RepeatStreamFunc.Deliver i
                ∈ (RepeatStreamFunc.sys_step endpoints has_errCb ev s).2 ->
                S i = RepeatStreamFunc.endpointIndex (RepeatStreamFunc.router s)
                /\ forall (j : nat) (cj : RepeatStreamFunc.Candidate),
                    RepeatStreamFunc.candidates s !! j = Some cj ->
                    j <> i -> RepeatStreamFunc.is_active cj = false)
         /\ (forall (i : nat) (c : bool) (err : ApiError),
                RepeatStreamFunc.candidates s !! i
                = Some (RepeatStreamFunc.mkCand RepeatStreamFunc.Fetching c) ->
                RepeatStreamFunc.isCancelled (RepeatStreamFunc.router s) = false ->
                status err = Some 404 ->
                (S i < endpoints)%nat ->
                (RepeatStreamFunc.sys_step endpoints has_errCb
                                           (RepeatStreamFunc.RequestRejected i err) s).2
                = [RepeatStreamFunc.Router (RepeatStreamFunc.CancelStream i);
                   RepeatStreamFunc.Router (RepeatStreamFunc.StartStream (S i))])).
Proof.
  split; [|split].
  - intros st err c. apply cancel_switches.
  - intros st err c. apply cancel_propagates.
  - intros evs s.
    assert (Hinv : failover_inv endpoints s)
      by (apply run_inv; by apply initial_inv).
    assert (Hone : forall (i j : nat) (ci cj : RepeatStreamFunc.Candidate),
               RepeatStreamFunc.candidates s !! i = Some ci ->
               RepeatStreamFunc.candidates s !! j = Some cj ->
               RepeatStreamFunc.is_active ci = true ->
               RepeatStreamFunc.is_active cj = true ->
               i = j).
    { intros i j ci cj Hi Hj Hai Haj.
      pose proof (inv_active endpoints s i ci Hinv Hi Hai).
      pose proof (inv_active endpoints s j cj Hinv Hj Haj). lia. }
    split; [exact Hone|]. split.
    + intros ev i (ci & Hi & Hai)%deliver_active.
      split; [by eapply inv_active|].
      intros j cj Hj Hne. destruct (RepeatStreamFunc.is_active cj) eqn:Haj; [|done].
      destruct Hne. by apply (Hone j i cj ci).
    + intros i c err Hi Hlive H404 Hnext.
      assert (Hidx : S i = RepeatStreamFunc.endpointIndex (RepeatStreamFunc.router s))
        by (by eapply inv_active).
      simpl. rewrite Hi. rewrite cancel_switches; [|done|done|lia].
      by rewrite <- Hidx.
Qed.

Lemma C6_witness :
  RepeatStreamFunc.cancel 2 true not_found (Some 0%nat)
                          (RepeatStreamFunc.start 2).1
  = (RepeatStreamFunc.mkState false None 2 [0%nat; 1%nat],
     [RepeatStreamFunc.CancelStream 0; RepeatStreamFunc.StartStream 1]).
Proof.
  apply (proj1 (C6_failover_switches_in_order 2 true (Nat.lt_0_succ 1))
               (RepeatStreamFunc.start 2).1 not_found 0%nat);
    [reflexivity|reflexivity|simpl; lia].
Defined.

(** * Further properties of the code *)

(** ** Paths *)

Lemma append_nil_str (c : string) : "" +:+ c = c.
Proof. reflexivity. Qed.

Lemma append_cons_str (x : ascii) (a c : string) : String x a +:+ c = String x (a +:+ c).
Proof. reflexivity. Qed.

Lemma append_assoc_str (a b c : string) : (a +:+ b) +:+ c = a +:+ (b +:+ c).
Proof.
  induction a as [|x a IH]; [reflexivity|].
  change (String x ((a +:+ b) +:+ c) = String x (a +:+ (b +:+ c))). by rewrite IH.
Qed.

Lemma endsWith_slash_append (b : string) : Paths.endsWith_slash (b +:+ "/") = true.
Proof.
  induction b as [|c b IH]; [reflexivity|].
  rewrite append_cons_str. simpl. destruct (b +:+ "/") eqn:Hb; [by destruct b|exact IH].
Qed.

Lemma slice_last_append (b : string) (c : ascii) :
  JS.slice_to_minus 1 (b +:+ String c "") = b.
Proof.
  unfold JS.slice_to_minus.
  assert (Hlen : String.length (b +:+ String c "") = S (String.length b)).
  { induction b as [|x b IH]; [reflexivity|].
    change (S (String.length (b +:+ String c "")) = S (S (String.length b))).
    by rewrite IH. }
  rewrite Hlen. replace (S (String.length b) - 1)%nat with (String.length b) by lia.
  apply substring_prefix.
Qed.

Lemma endsWith_slash_prefixed (a c : string) :
  c <> "" -> Paths.endsWith_slash (a +:+ c) = Paths.endsWith_slash c.
Proof.
  intros Hc. induction a as [|x a IH]; [reflexivity|].
  rewrite append_cons_str. simpl. destruct (a +:+ c) eqn:Hac; [|exact IH].
  destruct a; [by rewrite append_nil_str in Hac|by rewrite append_cons_str in Hac].
Qed.

Lemma combinePath_plain (b p : string) :
  Paths.endsWith_slash b = false -> Paths.startsWith_slash p = false ->
  Paths.combinePath b p = b +:+ "/" +:+ p.
Proof. intros Hb Hp. unfold Paths.combinePath. by rewrite Hb, Hp. Qed.

(** The four joints of [combinePath], and a doubled slash on both sides. *)
Lemma combinePath_joints (b p : string)
      (Hb : Paths.endsWith_slash b = false)
      (Hp : Paths.startsWith_slash p = false) :
  Paths.combinePath b p = b +:+ "/" +:+ p
  /\ Paths.combinePath (b +:+ "/") p = b +:+ "/" +:+ p
  /\ Paths.combinePath b ("/" +:+ p) = b +:+ "/" +:+ p
  /\ Paths.combinePath (b +:+ "/") ("/" +:+ p) = b +:+ "/" +:+ p
  /\ Paths.combinePath (b +:+ "/" +:+ "/") ("/" +:+ "/" +:+ p)
     = b +:+ "/" +:+ "/" +:+ "/" +:+ p.
Proof.
  unfold Paths.combinePath. rewrite Hb, Hp, endsWith_slash_append. simpl.
  rewrite slice_last_append.
  repeat split; try reflexivity.
  rewrite <- (append_assoc_str b "/" "/"), endsWith_slash_append, slice_last_append.
  by rewrite !append_assoc_str.
Qed.

(** X1.  [combinePath] joins with exactly one slash whether or not the base
    ends with one and the path starts with one; a second slash on either
    side is kept. *)
Theorem X1_combinePath_one_slash (b p : string)
        (Hb : Paths.endsWith_slash b = false)
        (Hp : Paths.startsWith_slash p = false) :
  Paths.combinePath b p = b +:+ "/" +:+ p
  /\ Paths.combinePath (b +:+ "/") p = b +:+ "/" +:+ p
  /\ Paths.combinePath b ("/" +:+ p) = b +:+ "/" +:+ p
  /\ Paths.combinePath (b +:+ "/") ("/" +:+ p) = b +:+ "/" +:+ p
  /\ Paths.combinePath (b +:+ "/" +:+ "/") ("/" +:+ "/" +:+ p)
     = b +:+ "/" +:+ "/" +:+ "/" +:+ p.
Proof. exact (combinePath_joints b p Hb Hp). Qed.

Lemma X1_witness :
  Paths.combinePath "http://localhost:4466/" "/clusters/minikube"
  = "http://localhost:4466/clusters/minikube".
Proof.
  exact (proj1 (proj2 (proj2 (proj2
    (X1_combinePath_one_slash "http://localhost:4466" "clusters/minikube"
                              eq_refl eq_refl))))).
Defined.

(** X2.  The URL of a request or a socket for the cluster [c] is the base,
    "/clusters/", the cluster, a slash and the path, with one slash at each
    joint however the base ends and the path starts; without a cluster it is
    the base, a slash and the path. *)
Theorem X2_endpoint_url_shape (b c p : string)
        (Hb : Paths.endsWith_slash b = false)
        (Hc : c <> "")
        (Hc' : Paths.endsWith_slash c = false)
        (Hp : Paths.startsWith_slash p = false) :
  (forall (b' p' : string),
      b' = b \/ b' = b +:+ "/" ->
      p' = p \/ p' = "/" +:+ p ->
      Paths.endpoint_url b' (Some c) p' = b +:+ "/clusters/" +:+ c +:+ "/" +:+ p
      /\ Paths.endpoint_url b' None p' = b +:+ "/" +:+ p
      /\ Paths.endpoint_url b' (Some "") p' = b +:+ "/" +:+ p).
Proof.
  destruct (combinePath_joints b p Hb Hp) as (H1 & H2 & H3 & H4 & _).
  assert (Hc'' : Paths.endsWith_slash ("/clusters/" +:+ c) = false)
    by (by rewrite endsWith_slash_prefixed).
  destruct (combinePath_joints ("/clusters/" +:+ c) p Hc'' Hp)
    as (I1 & _ & I3 & _).
  assert (Htruthy : JS.truthy (Some c) = true) by (by destruct c).
  assert (Hin : forall p' : string, p' = p \/ p' = "/" +:+ p ->
            Paths.combinePath ("/clusters/" +:+ c) p'
            = "/" +:+ ("clusters/" +:+ c +:+ "/" +:+ p)).
  { intros p' [->| ->]; [rewrite I1|rewrite I3]; reflexivity. }
  assert (Hq : Paths.startsWith_slash ("clusters/" +:+ c +:+ "/" +:+ p) = false)
    by reflexivity.
  destruct (combinePath_joints b _ Hb Hq) as (_ & _ & O3 & O4 & _).
  intros b' p' Hb' Hp'. unfold Paths.endpoint_url. rewrite Htruthy. simpl JS.truthy.
  cbv iota. change ("/" +:+ Paths.CLUSTERS_PREFIX +:+ "/" +:+ JS.or_empty (Some c))
    with ("/clusters/" +:+ c).
  rewrite (Hin p' Hp').
  destruct Hb' as [->| ->], Hp' as [->| ->];
    rewrite ?O3, ?O4, ?H1, ?H2, ?H3, ?H4; repeat split; reflexivity.
Qed.

Lemma X2_witness :
  Paths.endpoint_url "http://localhost:4466/" (Some "minikube") "/api/v1/pods"
  = "http://localhost:4466/clusters/minikube/api/v1/pods".
Proof.
  refine (proj1 (X2_endpoint_url_shape
                   "http://localhost:4466" "minikube" "api/v1/pods"
                   eq_refl _ eq_refl eq_refl _ _ (or_intror eq_refl) (or_intror eq_refl))).
  discriminate.
Defined.

(** ** Resource definitions *)

Lemma split_slash_plain (s : string) :
  has_slash s = false -> ResourceDef.split_slash s = [s].
Proof.
  induction s as [|c s IH]; [reflexivity|].
  simpl. intros [Hc Hs]%orb_false_iff. by rewrite Hc, (IH Hs).
Qed.

Lemma split_slash_at (g rest : string) :
  has_slash g = false ->
  ResourceDef.split_slash (g +:+ "/" +:+ rest) = g :: ResourceDef.split_slash rest.
Proof.
  induction g as [|c g IH]; [reflexivity|].
  intros H. simpl in H. apply orb_false_iff in H as [Hc Hg].
  rewrite append_cons_str. cbn [ResourceDef.split_slash].
  by rewrite Hc, (IH Hg).
Qed.

Lemma split_slash_head (s : string) : exists h t, ResourceDef.split_slash s = h :: t.
Proof.
  induction s as [|c s (h & t & IH)]; simpl; [by eexists _, _|].
  destruct (Ascii.eqb c "/"); [by eexists _, _|]. rewrite IH. by eexists _, _.
Qed.

Lemma truthy_nonempty (s : string) : JS.truthy (Some s) = true <-> s <> "".
Proof. destruct s; simpl; split; intros; congruence. Qed.

(** X3.  For a definition with a kind, the apiVersion "group/version" gives
    that group and version, the apiVersion "version" alone and "/version"
    give the core group, and "group/" with nothing after the slash is read
    as the version "group" of the core group; segments after the second are
    dropped.  The factory is the namespaced one exactly when the definition
    has a namespace, and the resource is the plural of the known class or
    else the lower-cased kind with an "s". *)
Theorem X3_apiVersion_is_split
        (pluralName : string -> option string)
        (k g v : string) (ns : option string)
        (Hk : k <> "") (Hg : g <> "") (Hv : v <> "")
        (Hgs : has_slash g = false) (Hvs : has_slash v = false) :
  let plural := if JS.truthy (pluralName k) then JS.or_empty (pluralName k)
                else ResourceDef.toLowerCase k +:+ "s" in
  let factory := ResourceDef.mkFactory (JS.truthy ns) in
  let call := fun apiVersion =>
    ResourceDef.resourceDefToApiFactory
      pluralName (ResourceDef.mkDef (Some k) (Some apiVersion) ns) in
  call (g +:+ "/" +:+ v) = inr (factory g v plural)
  /\ call v = inr (factory "" v plural)
  /\ call ("/" +:+ v) = inr (factory "" v plural)
  /\ call (g +:+ "/") = inr (factory "" g plural)
  /\ (forall rest : string, call (g +:+ "/" +:+ v +:+ "/" +:+ rest) = inr (factory g v plural)).
Proof.
  assert (Hek : String.eqb k "" = false) by (by destruct k).
  assert (Heg : String.eqb g "" = false) by (by destruct g).
  assert (Hev : String.eqb v "" = false) by (by destruct v).
  assert (Hne : forall a b : string, a <> "" -> String.eqb (a +:+ b) "" = false).
  { intros a b Ha. destruct a; [done|]. by rewrite append_cons_str. }
  simpl. unfold ResourceDef.resourceDefToApiFactory. simpl. rewrite Hek. simpl.
  repeat split.
  - rewrite (Hne g _ Hg). simpl.
    rewrite (split_slash_at g v Hgs), (split_slash_plain v Hvs).
    repeat (progress (simpl; rewrite ?Heg, ?Hev)). reflexivity.
  - rewrite Hev. simpl. rewrite (split_slash_plain v Hvs).
    repeat (progress (simpl; rewrite ?Heg, ?Hev)). reflexivity.
  - rewrite append_cons_str, append_nil_str. simpl.
    rewrite (split_slash_plain v Hvs).
    repeat (progress (simpl; rewrite ?Heg, ?Hev)). reflexivity.
  - rewrite (Hne g _ Hg). simpl.
    change (ResourceDef.split_slash (g +:+ "/"))
      with (ResourceDef.split_slash (g +:+ "/" +:+ "")).
    rewrite (split_slash_at g "" Hgs).
    repeat (progress (simpl; rewrite ?Heg, ?Hev)). reflexivity.
  - intros rest. rewrite (Hne g _ Hg). simpl.
    rewrite (split_slash_at g _ Hgs), (split_slash_at v rest Hvs).
    destruct (split_slash_head rest) as (h & t & ->).
    repeat (progress (simpl; rewrite ?Heg, ?Hev)). reflexivity.
Qed.

Lemma X3_witness :
  ResourceDef.resourceDefToApiFactory
    no_classes (ResourceDef.mkDef (Some "Deployment") (Some "apps/v1") (Some "default"))
  = inr (ResourceDef.mkFactory true "apps" "v1" "deployments").
Proof.
  refine (proj1 (X3_apiVersion_is_split no_classes "Deployment" "apps" "v1"
                                        (Some "default") _ _ _ eq_refl eq_refl));
    discriminate.
Defined.

(** X4.  [resourceDefToApiFactory] throws exactly when the kind is missing
    or empty, the apiVersion is missing or empty, or the apiVersion is "/"
    or starts with "//"; in every other case it calls a factory. *)
Theorem X4_resourceDef_errors
        (pluralName : string -> option string) (d : ResourceDef.Definition_) :
  (exists msg : string, ResourceDef.resourceDefToApiFactory pluralName d = inl msg)
  <-> (JS.truthy (ResourceDef.def_kind d) = false
       \/ JS.truthy (ResourceDef.def_apiVersion d) = false
       \/ ResourceDef.def_apiVersion d = Some "/"
       \/ exists rest : string, ResourceDef.def_apiVersion d = Some ("//" +:+ rest)).
Proof.
  unfold ResourceDef.resourceDefToApiFactory.
  destruct (JS.truthy (ResourceDef.def_kind d)) eqn:Hk; cbn [negb].
  2: { split; [by left|intros _; by eexists]. }
  destruct (JS.truthy (ResourceDef.def_apiVersion d)) eqn:Ha; cbn [negb].
  2: { split; [by right; left|intros _; by eexists]. }
  destruct (ResourceDef.def_apiVersion d) as [a|] eqn:Hd; [|discriminate].
  cbn [JS.or_empty].
  destruct a as [|c a]; [discriminate|]. simpl.
  destruct (Ascii.eqb c "/") eqn:Hc.
  - apply Ascii.eqb_eq in Hc as ->.
    destruct a as [|c' a].
    + simpl. split.
      * intros _. right; right. by left.
      * intros _. by eexists.
    + simpl. destruct (Ascii.eqb c' "/") eqn:Hc'.
      * apply Ascii.eqb_eq in Hc' as ->. simpl.
        split; [|intros _; by eexists].
        intros _. right; right; right. by exists a.
      * destruct (split_slash_head a) as (h & t & ->). simpl.
        split; [by intros [msg Hmsg]|].
        intros [?|[?|[?|[rest Hrest]]]]; try discriminate.
        injection Hrest as ->. by rewrite Ascii.eqb_refl in Hc'.
  - destruct (split_slash_head a) as (h & t & ->). simpl.
    assert (Hfail : forall P : Prop,
               (true = false \/ true = false \/ Some (String c a) = Some "/"
                \/ (exists rest : string, Some (String c a) = Some ("//" +:+ rest))) -> P).
    { intros P [?|[?|[H|[rest H]]]]; try discriminate;
        injection H as -> _; by rewrite Ascii.eqb_refl in Hc. }
    destruct t as [|second t]; simpl.
    + split; [by intros [msg Hmsg]|apply Hfail].
    + destruct second; simpl; (split; [by intros [msg Hmsg]|apply Hfail]).
Qed.

(** ** Requests *)

(** X5.  [repeatFactoryMethod] calls the endpoints in order and stops at the
    first whose call does not fail with a 404, or at the last endpoint: the
    result is what that call gives, every call before it failed with a 404,
    and no endpoint after it is called.  Without endpoints nothing is called
    and the promise resolves with [undefined]. *)
Theorem X5_repeatFactoryMethod_first_answer
        (endpoints : list RepeatFactoryMethod.Outcome) :
  let calls := (RepeatFactoryMethod.repeatFactoryMethod endpoints).1 in
  let result := (RepeatFactoryMethod.repeatFactoryMethod endpoints).2 in
  (calls <= length endpoints)%nat
  /\ (endpoints <> [] -> (1 <= calls)%nat)
  /\ result = endpoints !! (calls - 1)%nat
  /\ Forall (fun o => RepeatFactoryMethod.is_not_found o = true)
            (take (calls - 1) endpoints)
  /\ ((calls < length endpoints)%nat ->
      exists o : RepeatFactoryMethod.Outcome,
        result = Some o /\ RepeatFactoryMethod.is_not_found o = false).
Proof.
  induction endpoints as [|o rest IH]; simpl.
  - repeat split; [lia|done|by constructor|lia].
  - destruct o as [v|err]; simpl.
    + repeat split; [lia|lia|by constructor|]. intros _. by eexists.
    + case_bool_decide as H404; simpl.
      * case_bool_decide as Hrest; simpl.
        -- subst rest. simpl. repeat split; [lia|lia|by constructor|lia].
        -- destruct IH as (Hle & Hpos & Hres & Hall & Hstop).
           specialize (Hpos Hrest).
           destruct (RepeatFactoryMethod.repeatFactoryMethod rest) as [calls result].
           cbn [fst snd] in *.
           replace (S calls - 1)%nat with (S (calls - 1)) by lia.
           repeat split; [simpl; lia|lia|exact Hres| |].
           ++ rewrite firstn_cons. constructor; [|exact Hall].
              simpl. by apply bool_decide_eq_true.
           ++ intros Hlt. apply Hstop. simpl in Hlt. lia.
      * repeat split; [lia|lia|by constructor|]. intros _.
        eexists. split; [done|]. simpl. by apply bool_decide_eq_false.
Qed.

Lemma settle_not_ok (opts : ClusterRequest.Options) (o : ClusterRequest.FetchOutcome) :
  ClusterRequest.ok (ClusterRequest.response_of o) = false ->
  exists msg : string,
    (ClusterRequest.settle opts o).1
    = ClusterRequest.RejectsApiError
        (mkErr (Some (ClusterRequest.resp_status (ClusterRequest.response_of o))) msg).
Proof.
  intros Hok. unfold ClusterRequest.settle. rewrite Hok. simpl.
  destruct (ClusterRequest.isJSON opts);
    [destruct (ClusterRequest.resp_body _)|]; by eexists.
Qed.

(** X6.  A request resolves only for a response with a status from 200 to
    299.  Every other outcome rejects with an error that carries the status:
    that of the response, 408 "Request timed-out" when the timeout aborted
    the fetch, 502 "Unreachable" when the fetch failed otherwise.  The user
    is logged out exactly for a 401 with an Authorization header and the
    auto-logout option. *)
Theorem X6_request_settles_by_status
        (opts : ClusterRequest.Options) (o : ClusterRequest.FetchOutcome) :
  (ClusterRequest.ok (ClusterRequest.response_of o) = false ->
   exists msg : string,
     (ClusterRequest.settle opts o).1
     = ClusterRequest.RejectsApiError
         (mkErr (Some (ClusterRequest.resp_status (ClusterRequest.response_of o))) msg))
  /\ (ClusterRequest.settle opts ClusterRequest.AbortError).1
     = ClusterRequest.RejectsApiError (mkErr (Some 408) "Request timed-out")
  /\ (ClusterRequest.settle opts ClusterRequest.Failure).1
     = ClusterRequest.RejectsApiError (mkErr (Some 502) "Unreachable")
  /\ ((forall err : ApiError,
          (ClusterRequest.settle opts o).1 <> ClusterRequest.RejectsApiError err) ->
      exists r : ClusterRequest.Response,
        o = ClusterRequest.Fetched r
        /\ 200 <= ClusterRequest.resp_status r <= 299)
  /\ (In ClusterRequest.Logout (ClusterRequest.settle opts o).2
      <-> (ClusterRequest.resp_status (ClusterRequest.response_of o) = 401
           /\ ClusterRequest.autoLogoutOnAuthError opts = true
           /\ ClusterRequest.has_Authorization opts = true)).
Proof.
  split; [|split; [|split; [|split]]].
  - apply settle_not_ok.
  - unfold ClusterRequest.settle. simpl. by destruct (ClusterRequest.isJSON opts).
  - unfold ClusterRequest.settle. simpl. by destruct (ClusterRequest.isJSON opts).
  - intros Hno.
    destruct (ClusterRequest.ok (ClusterRequest.response_of o)) eqn:Hok.
    + destruct o as [r| |]; try discriminate. exists r. split; [done|].
      unfold ClusterRequest.ok in Hok. simpl in Hok.
      apply andb_true_iff in Hok as [H1 H2].
      apply Z.leb_le in H1. apply Z.leb_le in H2. lia.
    + exfalso. unfold ClusterRequest.settle in Hno. rewrite Hok in Hno. simpl in Hno.
      destruct (ClusterRequest.isJSON opts);
        [destruct (ClusterRequest.resp_body _)|]; by eapply Hno.
  - unfold ClusterRequest.settle.
    destruct (ClusterRequest.response_of o) as [s t x body].
    destruct opts as [json auto auth].
    destruct (ClusterRequest.ok (ClusterRequest.mkResponse s t x body)) eqn:Hok;
      cbn [negb ClusterRequest.resp_status ClusterRequest.x_reload
           ClusterRequest.resp_body ClusterRequest.resp_statusText
           ClusterRequest.isJSON ClusterRequest.autoLogoutOnAuthError
           ClusterRequest.has_Authorization].
    + assert (Hne : s <> 401).
      { unfold ClusterRequest.ok in Hok. simpl in Hok.
        apply andb_true_iff in Hok as [_ H2]. apply Z.leb_le in H2. lia. }
      split; [|by intros [? _]]. intros Hin. exfalso.
      destruct json, x, body; simpl in Hin;
        repeat (destruct Hin as [Hin|Hin]; try discriminate); done.
    + destruct json, auto, auth, x, body; case_bool_decide as H401; simpl;
        (split;
         [ intros Hin; repeat (destruct Hin as [Hin|Hin]; try discriminate); done
         | intros (H1 & H2 & H3); try discriminate; try done; auto 8 ]).
Qed.

Lemma X6_witness :
  exists msg : string,
    (ClusterRequest.settle
       (ClusterRequest.mkOptions true true false)
       (ClusterRequest.Fetched
          (ClusterRequest.mkResponse 404 "Not Found" false
                                     (ClusterRequest.JsonValue (Some "pods not found"))))).1
    = ClusterRequest.RejectsApiError (mkErr (Some 404) msg).
Proof.
  apply (proj1 (X6_request_settles_by_status
                  (ClusterRequest.mkOptions true true false)
                  (ClusterRequest.Fetched
                     (ClusterRequest.mkResponse 404 "Not Found" false
                        (ClusterRequest.JsonValue (Some "pods not found")))))).
  reflexivity.
Defined.

(** X7.  From the HTTP response to the failover: when the snapshot request
    of the stream of endpoint [i] is answered with status 404, the request
    rejects with an error of status 404, [streamResults] hands it to its
    error callback without opening a socket or pushing anything, and a
    router that is not cancelled and has an endpoint left cancels that
    stream and starts the next endpoint. *)
Theorem X7_not_found_response_switches_endpoint
        (opts : ClusterRequest.Options) (r : ClusterRequest.Response)
        (watchUrl : option string -> string)
        (endpoints : nat) (has_errCb : bool) (i : nat) (st : RepeatStreamFunc.State)
        (H404 : ClusterRequest.resp_status r = 404)
        (Hlive : RepeatStreamFunc.isCancelled st = false)
        (Hnext : (RepeatStreamFunc.endpointIndex st < endpoints)%nat) :
  exists err : ApiError,
    (ClusterRequest.settle opts (ClusterRequest.Fetched r)).1
    = ClusterRequest.RejectsApiError err
    /\ status err = Some 404
    /\ StreamResults.run_rejected true err StreamResults.start.1
       = (StreamResults.mkState ∅ false None false,
          [ConsoleError "Error in api request"; ErrCb err])
    /\ (RepeatStreamFunc.cancel endpoints has_errCb err (Some i) st).2
       = [RepeatStreamFunc.CancelStream i;
          RepeatStreamFunc.StartStream (RepeatStreamFunc.endpointIndex st)].
Proof.
  assert (Hok : ClusterRequest.ok (ClusterRequest.response_of (ClusterRequest.Fetched r))
                = false).
  { unfold ClusterRequest.ok. simpl. rewrite H404. reflexivity. }
  destruct (settle_not_ok opts (ClusterRequest.Fetched r) Hok) as [msg Hmsg].
  simpl in Hmsg. rewrite H404 in Hmsg.
  exists (mkErr (Some 404) msg). split; [exact Hmsg|]. split; [reflexivity|].
  split; [reflexivity|].
  by rewrite cancel_switches.
Qed.

Lemma X7_witness :
  exists err : ApiError,
    status err = Some 404
    /\ (RepeatStreamFunc.cancel 2 true err (Some 0%nat) (RepeatStreamFunc.start 2).1).2
       = [RepeatStreamFunc.CancelStream 0; RepeatStreamFunc.StartStream 1].
Proof.
  destruct (X7_not_found_response_switches_endpoint
              (ClusterRequest.mkOptions true true false)
              (ClusterRequest.mkResponse 404 "Not Found" false ClusterRequest.NotJson)
              (fun _ => "/api/v1/pods?watch=1") 2 true 0 (RepeatStreamFunc.start 2).1
              eq_refl eq_refl (le_n 2))
    as (err & _ & Hstatus & _ & Hswitch).
  by exists err.
Defined.

(** ** The retrying stream *)

Section StreamFacts.
Context {Item Own : Type}.
Variable cb : Item -> Own -> Own * list Effect.
Variable args : Stream.Args.

Lemma stream_step_one_timer (ev : Stream.Event Item) (st : Stream.State) (own : Own) :
  one_timer st -> one_timer (Stream.step cb args ev st own).1.1.
Proof.
  intros [Hle Hone]. unfold one_timer, detached in *.
  destruct st as [u [[closing has lis]|] cancelled timers]; simpl in *;
    destruct ev as [body| |created]; simpl; try done.
  - destruct lis; simpl; [|done]. unfold ConnectStream.onMessage. simpl.
    destruct closing; [done|]. by destruct body as [item|]; [destruct (cb item own)|].
  - destruct lis; simpl; [|done]. unfold ConnectStream.onClose. simpl.
    destruct closing; simpl; [done|]. destruct has; simpl; [|done].
    unfold Stream.onFail, Stream.retryOnFail. simpl.
    destruct (Stream.reconnectOnFailure args), cancelled; simpl; try done.
    split; [|done]. destruct timers as [|[|n]]; [lia| |lia].
    by specialize (Hone eq_refl).
  - destruct timers as [|n]; simpl; [done|]. split; [lia|]. intros ->. lia.
  - destruct timers as [|n]; simpl; [done|]. split; [lia|]. intros ->. lia.
Qed.

Lemma stream_run_one_timer (evs : list (Stream.Event Item)) :
  forall (st : Stream.State) (own : Own),
    one_timer st -> one_timer (stream_run cb args evs st own).1.1.
Proof.
  induction evs as [|ev evs IH]; intros st own Hinv; simpl; [done|].
  pose proof (stream_step_one_timer ev st own Hinv) as Hinv'.
  destruct (Stream.step cb args ev st own) as [[st' own'] out].
  specialize (IH st' own' Hinv').
  by destruct (stream_run cb args evs st' own') as [[st'' own''] outs].
Qed.

Lemma stream_run_cancelled (evs : list (Stream.Event Item)) (st : Stream.State)
      (own : Own) :
  Stream.timers st = 0%nat ->
  stream_run cb args evs (Stream.cancel st).1 own
  = ((Stream.cancel st).1, own, replicate (length evs) []).
Proof.
  intros Htimers. induction evs as [|ev evs IH]; simpl; [done|].
  rewrite (stream_cancelled_is_silent cb args ev st own Htimers). by rewrite IH.
Qed.

(** Without reconnection, a stream with no timer pending never sets one and
    never opens a socket, and calls [failCb] at most once, when a live
    connection closes. *)
Hypothesis cb_quiet :
  forall (item : Item) (own : Own), filter socket_effect (cb item own).2 = [].

Lemma cb_no_socket_effect (item : Item) (own : Own) :
  filter is_SetTimeoutConnect (cb item own).2 = []
  /\ filter is_NewWebSocket (cb item own).2 = []
  /\ filter is_FailCb (cb item own).2 = [].
Proof using cb_quiet.
  specialize (cb_quiet item own). induction (cb item own).2 as [|e out IH]; [done|].
  rewrite filter_cons in cb_quiet. unfold socket_effect in cb_quiet at 1.
  destruct e; simpl in *; try discriminate; rewrite ?filter_cons; simpl; by apply IH.
Qed.

Lemma stream_step_no_reconnect (ev : Stream.Event Item) (st : Stream.State) (own : Own) :
  Stream.reconnectOnFailure args = false ->
  Stream.timers st = 0%nat ->
  Stream.timers (Stream.step cb args ev st own).1.1 = 0%nat
  /\ filter is_SetTimeoutConnect (Stream.step cb args ev st own).2 = []
  /\ filter is_NewWebSocket (Stream.step cb args ev st own).2 = []
  /\ (length (filter is_FailCb (Stream.step cb args ev st own).2)
      + (if live (Stream.step cb args ev st own).1.1 then 1 else 0)
      <= if live st then 1 else 0)%nat.
Proof using cb_quiet.
  intros Hoff Htimers. unfold live.
  destruct st as [u [[closing has lis]|] cancelled timers]; simpl in *; subst;
    destruct ev as [body| |created]; simpl; try done.
  - destruct lis; simpl; [|done]. unfold ConnectStream.onMessage. simpl.
    destruct closing; simpl; [done|]. destruct body as [item|]; simpl; [|by repeat split; lia].
    destruct (cb_no_socket_effect item own) as (H1 & H2 & H3).
    destruct (cb item own) as [own' out]. simpl in *. rewrite H1, H2, H3. simpl.
    repeat split; lia.
  - destruct lis; simpl; [|done]. unfold ConnectStream.onClose. simpl.
    destruct closing; simpl; [done|]. destruct has; simpl; [|by repeat split; lia].
    unfold Stream.onFail. rewrite Hoff. simpl.
    destruct (Stream.has_failCb args); simpl; repeat split; lia.
Qed.

Lemma stream_run_no_reconnect (evs : list (Stream.Event Item)) :
  Stream.reconnectOnFailure args = false ->
  forall (st : Stream.State) (own : Own),
    Stream.timers st = 0%nat ->
    Stream.timers (stream_run cb args evs st own).1.1 = 0%nat
    /\ filter is_SetTimeoutConnect (concat (stream_run cb args evs st own).2) = []
    /\ filter is_NewWebSocket (concat (stream_run cb args evs st own).2) = []
    /\ (length (filter is_FailCb (concat (stream_run cb args evs st own).2))
        <= if live st then 1 else 0)%nat.
Proof using cb_quiet.
  intros Hoff. induction evs as [|ev evs IH]; intros st own Htimers; simpl.
  - repeat split; try done. destruct (live st); simpl; lia.
  - pose proof (stream_step_no_reconnect ev st own Hoff Htimers) as Hstep.
    destruct (Stream.step cb args ev st own) as [[st' own'] out]. simpl in Hstep.
    destruct Hstep as (Ht & Hs & Hn & Hf).
    specialize (IH st' own' Ht).
    destruct (stream_run cb args evs st' own') as [[st'' own''] outs].
    simpl in *. destruct IH as (IHt & IHs & IHn & IHf).
    rewrite !filter_app, Hs, Hn, IHs, IHn, length_app. repeat split; try done. lia.
Qed.
End StreamFacts.

(** X8.  From the start of a stream and through every sequence of events, at
    most one reconnect timer is pending, and while one is pending the
    connection has closed ([isClosing] is set) and its listeners are
    detached: reconnects never pile up and never run beside a socket that
    is still listened to. *)
Theorem X8_stream_one_reconnect_pending
        {Item Own : Type} (cb : Item -> Own -> Own * list Effect) (args : Stream.Args)
        (url : string) (created : bool) (evs : list (Stream.Event Item)) (own : Own) :
  (Stream.timers (stream_run cb args evs (Stream.start args url created).1 own).1.1
   <= 1)%nat
  /\ (Stream.timers (stream_run cb args evs (Stream.start args url created).1 own).1.1
      = 1%nat ->
      exists c : ConnectStream.Connection,
        Stream.connection (stream_run cb args evs (Stream.start args url created).1 own).1.1
        = Some c
        /\ ConnectStream.isClosing c = true
        /\ ConnectStream.listening c = false).
Proof.
  destruct (stream_run_one_timer cb args evs (Stream.start args url created).1 own)
    as [Hle Hone].
  { split; simpl; [lia|discriminate]. }
  split; [exact Hle|]. intros Hpending. specialize (Hone Hpending).
  unfold detached in Hone.
  destruct (Stream.connection _) as [c|]; [|discriminate].
  exists c. apply andb_true_iff in Hone as [Hclosing Hlis].
  repeat split; [done|]. by apply negb_true_iff.
Qed.

(** X9.  A stream that is cancelled while no reconnect timer is pending is
    silent from then on: whatever events follow, it calls no callback, opens
    no socket, sets no timer, and its variables stay as the cancel left
    them. *)
Theorem X9_stream_cancel_is_final
        {Item Own : Type} (cb : Item -> Own -> Own * list Effect) (args : Stream.Args)
        (st : Stream.State) (own : Own) (evs : list (Stream.Event Item))
        (Hnone : Stream.timers st = 0%nat) :
  stream_run cb args evs (Stream.cancel st).1 own
  = ((Stream.cancel st).1, own, replicate (length evs) []).
Proof. by apply stream_run_cancelled. Qed.

Lemma X9_witness :
  stream_run record_item StreamResults.stream_args
             [Stream.EvMessage (Some 7%nat); Stream.EvClose; Stream.EvTimer true;
              Stream.EvMessage (Some 8%nat)]
             (Stream.cancel (Stream.start StreamResults.stream_args "ws" true).1).1 []
  = ((Stream.cancel (Stream.start StreamResults.stream_args "ws" true).1).1, [],
     [[]; []; []; []]).
Proof.
  apply (X9_stream_cancel_is_final
           record_item StreamResults.stream_args
           (Stream.start StreamResults.stream_args "ws" true).1 []
           [Stream.EvMessage (Some 7%nat); Stream.EvClose; Stream.EvTimer true;
            Stream.EvMessage (Some 8%nat)]).
  reflexivity.
Defined.

(** X10.  When reconnection is off ([reconnectOnFailure] false, or absent
    with a [failCb] given), a stream never schedules a reconnect and never
    opens a socket after its first, whatever events follow; and [failCb] is
    called at most once. *)
Theorem X10_stream_without_reconnect
        {Item Own : Type} (cb : Item -> Own -> Own * list Effect) (args : Stream.Args)
        (url : string) (created : bool) (evs : list (Stream.Event Item)) (own : Own)
        (Hcb : forall (item : Item) (own : Own), filter socket_effect (cb item own).2 = [])
        (Hoff : Stream.reconnectOnFailure args = false) :
  filter is_SetTimeoutConnect
         (concat (stream_run cb args evs (Stream.start args url created).1 own).2) = []
  /\ filter is_NewWebSocket
            (concat (stream_run cb args evs (Stream.start args url created).1 own).2) = []
  /\ (length (filter is_FailCb
                     (concat (stream_run cb args evs
                                         (Stream.start args url created).1 own).2))
      <= 1)%nat.
Proof.
  destruct (stream_run_no_reconnect cb args Hcb evs Hoff
                                    (Stream.start args url created).1 own eq_refl)
    as (_ & Hs & Hn & Hf).
  repeat split; [done|done|].
  destruct (live (Stream.start args url created).1); lia.
Qed.

Lemma X10_witness :
  filter is_NewWebSocket
         (concat (stream_run record_item (Stream.mkArgs true false None true)
                             [Stream.EvClose; Stream.EvTimer true]
                             (Stream.start (Stream.mkArgs true false None true)
                                           "ws" true).1 []).2) = [].
Proof.
  apply (X10_stream_without_reconnect
           record_item (Stream.mkArgs true false None true) "ws" true
           [Stream.EvClose; Stream.EvTimer true] []).
  - reflexivity.
  - reflexivity.
Defined.



(** ** The collection *)

(** What holds of the variables of the owner before an event of its stream
    and is kept by the callback holds after the event. *)
Lemma stream_step_keeps_own {Item Own : Type} (cb : Item -> Own -> Own * list Effect)
      (args : Stream.Args) (P : Own -> Prop) (ev : Stream.Event Item)
      (st : Stream.State) (own : Own) :
  (forall (item : Item) (own : Own), P own -> P (cb item own).1) ->
  P own -> P (Stream.step cb args ev st own).1.2.
Proof.
  intros Hcb Hown.
  destruct st as [u [[closing has lis]|] cancelled timers]; destruct ev as [body| |created];
    simpl; try done.
  - destruct lis; simpl; [|done]. unfold ConnectStream.onMessage. simpl.
    destruct closing; [done|]. destruct body as [item|]; [|done].
    specialize (Hcb item own Hown). by destruct (cb item own).
  - destruct lis; simpl; [|done].
    by destruct (ConnectStream.onClose _ _ _) as [[c' st'] out].
  - by destruct timers.
  - by destruct timers.
Qed.

Lemma no_Push (out : list Effect) (values : list KubeObject) :
  filter is_Push out = [] -> Push values ∉ out.
Proof.
  intros Hnone Hin.
  assert (Push values ∈ filter is_Push out) as Hf by (by apply list_elem_of_filter).
  rewrite Hnone in Hf. by apply elem_of_nil in Hf.
Qed.

(** A stream pushes nothing of its own: a push during an event of the
    stream is made by the callback, called on the variables of its owner. *)
Lemma stream_step_pushes {Item Own : Type} (cb : Item -> Own -> Own * list Effect)
      (args : Stream.Args) (ev : Stream.Event Item) (st : Stream.State) (own : Own)
      (values : list KubeObject) :
  Push values ∈ (Stream.step cb args ev st own).2 ->
  exists item : Item, Push values ∈ (cb item own).2.
Proof.
  intros Hin.
  assert (filter is_Push (Stream.step cb args ev st own).2 = [] ->
          exists item : Item, Push values ∈ (cb item own).2) as Hnone.
  { intros Hnone. by destruct (no_Push _ values Hnone). }
  destruct st as [u [[closing has lis]|] cancelled timers]; destruct ev as [body| |created];
    simpl in *; try (by apply Hnone).
  - destruct lis; simpl in *; [|by apply Hnone]. unfold ConnectStream.onMessage in *.
    simpl in *. destruct closing; [by apply Hnone|].
    destruct body as [item|]; [|by apply Hnone].
    exists item. by destruct (cb item own).
  - destruct lis; simpl in *; [|by apply Hnone]. unfold ConnectStream.onClose in *.
    simpl in *. destruct closing; simpl in *; [by apply Hnone|].
    destruct has; simpl in *; [|by apply Hnone].
    unfold Stream.onFail, Stream.retryOnFail in *. simpl in *.
    apply Hnone.
    by destruct (Stream.reconnectOnFailure args), cancelled, (Stream.has_failCb args).
  - destruct timers; simpl in *; [by apply Hnone|]. apply Hnone.
    by destruct (Stream.has_connectCb args), created.
  - destruct timers; simpl in *; [by apply Hnone|]. apply Hnone.
    by destruct (Stream.has_connectCb args), created.
Qed.

Section CollectionFacts.
Import StreamResults.
Variable to_number : Z -> Z.
Variable watchUrl : option string -> string.
Variable has_errCb : bool.

Lemma add_items_keyed (fixedKind : string) (items : list KubeObject) :
  forall results : gmap string KubeObject,
    keyed_by_uid results -> keyed_by_uid (add_items fixedKind items results).
Proof.
  induction items as [|i items IH]; intros results Hinv; simpl; [done|].
  apply IH. intros u item. destruct (decide (uid (metadata i) = u)) as [<-|Hne].
  - rewrite lookup_insert_eq. by intros [= <-].
  - rewrite lookup_insert_ne by done. apply Hinv.
Qed.

Lemma insert_keyed (results : gmap string KubeObject) (item : KubeObject) :
  keyed_by_uid results -> keyed_by_uid (<[uid (metadata item) := item]> results).
Proof.
  intros Hinv u stored. destruct (decide (uid (metadata item) = u)) as [<-|Hne].
  - rewrite lookup_insert_eq. by intros [= <-].
  - rewrite lookup_insert_ne by done. apply Hinv.
Qed.

Lemma switch_keyed (type : string) (object : KubeObject)
      (results results' : gmap string KubeObject) (out : list Effect) :
  keyed_by_uid results ->
  switch to_number type object results = Some (results', out) ->
  keyed_by_uid results'.
Proof.
  intros Hinv. unfold switch, get_property, delete_property.
  pose proof (insert_keyed results object Hinv) as Hins.
  pose proof (fun e => insert_keyed results (Object_assign e object) Hinv) as Hmerge.
  assert (Hdel : keyed_by_uid (delete (uid (metadata object)) results)).
  { intros u item [_ H]%lookup_delete_Some. by apply Hinv. }
  repeat match goal with
         | |- context [if ?b then _ else _] => destruct b
         | |- context [match ?o with Some _ => _ | None => _ end] => destruct o
         end; intros [= <- <-] || intros [=]; try done.
  all: apply Hmerge.
Qed.

Lemma update_keyed (type : string) (object : KubeObject)
      (results : gmap string KubeObject) :
  keyed_by_uid results -> keyed_by_uid (update to_number type object results).1.
Proof.
  intros Hinv. unfold update.
  destruct (switch to_number type (set_actionType type object) results)
    as [[results' out]|] eqn:Hswitch; [|done].
  by eapply switch_keyed.
Qed.

Lemma step_keyed (ev : Event) (st : State) :
  keyed_by_uid (results st) ->
  keyed_by_uid (results (step to_number watchUrl has_errCb ev st).1).
Proof.
  intros Hinv. destruct ev as [response created|err| |e]; simpl.
  - unfold run_resolved. destruct (negb (requestPending st)); [done|].
    destruct (isCancelled st); [done|]. simpl. by apply add_items_keyed.
  - unfold run_rejected. by destruct (negb (requestPending st)).
  - unfold cancel. destruct (isCancelled st); [done|].
    destruct (socket st) as [sock|]; [|done]. by destruct (Stream.cancel sock).
  - unfold stream_event. destruct (socket st) as [sock|]; [|done].
    pose proof (stream_step_keeps_own (on_frame to_number) stream_args keyed_by_uid
                  e sock (results st)
                  (fun item own => update_keyed (ev_type item) (ev_object item) own)
                  Hinv) as Hkeep.
    by destruct (Stream.step _ _ _ _ _) as [[sock' results'] out].
Qed.

Lemma run_keyed (evs : list Event) :
  forall st : State,
    keyed_by_uid (results st) ->
    keyed_by_uid (results (run_events to_number watchUrl has_errCb evs st).1).
Proof.
  induction evs as [|ev evs IH]; intros st Hinv; simpl; [done|].
  pose proof (step_keyed ev st Hinv) as Hinv'.
  destruct (step to_number watchUrl has_errCb ev st) as [st' out].
  specialize (IH st' Hinv').
  by destruct (run_events to_number watchUrl has_errCb evs st') as [st'' outs].
Qed.

(** A call with no socket and no request pending does nothing but note a
    cancel. *)
Lemma run_inert (evs : list Event) :
  forall st : State,
    socket st = None -> requestPending st = false ->
    (run_events to_number watchUrl has_errCb evs st).2 = replicate (length evs) []
    /\ results (run_events to_number watchUrl has_errCb evs st).1 = results st
    /\ socket (run_events to_number watchUrl has_errCb evs st).1 = None.
Proof.
  induction evs as [|ev evs IH]; intros st Hsock Hpend; simpl; [done|].
  assert (Hstep : (step to_number watchUrl has_errCb ev st).2 = []
                  /\ results (step to_number watchUrl has_errCb ev st).1 = results st
                  /\ socket (step to_number watchUrl has_errCb ev st).1 = None
                  /\ requestPending (step to_number watchUrl has_errCb ev st).1 = false).
  { destruct ev as [response created|err| |e]; simpl.
    - unfold run_resolved. by rewrite Hpend.
    - unfold run_rejected. by rewrite Hpend.
    - unfold cancel. rewrite Hsock. by destruct (isCancelled st).
    - unfold stream_event. by rewrite Hsock. }
  destruct (step to_number watchUrl has_errCb ev st) as [st' out].
  simpl in Hstep. destruct Hstep as (-> & Hr & Hs & Hp).
  specialize (IH st' Hs Hp).
  destruct (run_events to_number watchUrl has_errCb evs st') as [st'' outs].
  simpl in *. destruct IH as (-> & -> & ->). by rewrite Hr.
Qed.

(** A call cancelled before its snapshot arrives never pushes and never
    opens a socket. *)
Lemma run_cancelled_early (evs : list Event) :
  forall st : State,
    socket st = None -> isCancelled st = true ->
    filter is_Push (concat (run_events to_number watchUrl has_errCb evs st).2) = []
    /\ filter is_NewWebSocket (concat (run_events to_number watchUrl has_errCb evs st).2) = []
    /\ results (run_events to_number watchUrl has_errCb evs st).1 = results st.
Proof.
  induction evs as [|ev evs IH]; intros st Hsock Hcan; simpl; [done|].
  assert (Hstep : filter is_Push (step to_number watchUrl has_errCb ev st).2 = []
                  /\ filter is_NewWebSocket (step to_number watchUrl has_errCb ev st).2 = []
                  /\ results (step to_number watchUrl has_errCb ev st).1 = results st
                  /\ socket (step to_number watchUrl has_errCb ev st).1 = None
                  /\ isCancelled (step to_number watchUrl has_errCb ev st).1 = true).
  { destruct ev as [response created|err| |e]; simpl.
    - unfold run_resolved. destruct (negb (requestPending st)); [done|]. by rewrite Hcan.
    - unfold run_rejected. destruct (negb (requestPending st)); [done|].
      by destruct has_errCb.
    - unfold cancel. by rewrite Hcan.
    - unfold stream_event. by rewrite Hsock. }
  destruct (step to_number watchUrl has_errCb ev st) as [st' out].
  simpl in Hstep. destruct Hstep as (Hp & Hn & Hr & Hs & Hc).
  specialize (IH st' Hs Hc).
  destruct (run_events to_number watchUrl has_errCb evs st') as [st'' outs].
  simpl in *. destruct IH as (IHp & IHn & ->).
  by rewrite !filter_app, Hp, Hn, IHp, IHn, Hr.
Qed.
(** The UIDs of the values of a collection are those of its own
    properties, each once. *)
Lemma keyed_values_NoDup (results : gmap string KubeObject) :
  keyed_by_uid results ->
  NoDup ((fun item => uid (metadata item)) <$> Object_values results).
Proof.
  intros Hinv. unfold Object_values.
  rewrite <- list_fmap_compose.
  rewrite (list_fmap_ext _ fst (map_to_list (delete "__proto__" results))).
  - apply NoDup_fst_map_to_list.
  - intros i [u item] Hi. simpl.
    apply list_elem_of_lookup_2, elem_of_map_to_list, lookup_delete_Some in Hi.
    apply Hinv, Hi.
Qed.

(** Whatever is pushed is the list of values of a collection whose items
    are stored under their UIDs. *)
Lemma update_pushes_keyed (type : string) (object : KubeObject)
      (results : gmap string KubeObject) (values : list KubeObject) :
  keyed_by_uid results ->
  Push values ∈ (update to_number type object results).2 ->
  exists r : gmap string KubeObject, keyed_by_uid r /\ values = Object_values r.
Proof.
  intros Hinv. unfold update.
  destruct (switch to_number type (set_actionType type object) results)
    as [[results' out]|] eqn:Hswitch; simpl.
  - intros [Hin|Hin]%elem_of_app.
    + destruct (switch_console _ _ _ _ _ _ Hswitch) as [Hnone _].
      by destruct (no_Push _ values Hnone).
    + apply list_elem_of_singleton in Hin. injection Hin as ->.
      exists results'. split; [|done]. by eapply switch_keyed.
  - intros Hin. apply list_elem_of_singleton in Hin. discriminate.
Qed.

Lemma step_pushes_keyed (ev : Event) (st : State) (values : list KubeObject) :
  keyed_by_uid (results st) ->
  Push values ∈ (step to_number watchUrl has_errCb ev st).2 ->
  exists r : gmap string KubeObject, keyed_by_uid r /\ values = Object_values r.
Proof.
  intros Hinv. destruct ev as [response created|err| |e]; simpl.
  - unfold run_resolved. destruct (negb (requestPending st)); simpl;
      [by intros H%elem_of_nil|].
    destruct (isCancelled st); simpl; [by intros H%elem_of_nil|].
    intros [Hin|Hin]%elem_of_cons.
    + injection Hin as ->. eexists. split; [|done]. by apply add_items_keyed.
    + exfalso. revert Hin. apply no_Push. by destruct created.
  - unfold run_rejected. destruct (negb (requestPending st)); simpl;
      [by intros H%elem_of_nil|].
    intros Hin. exfalso. revert Hin. apply no_Push. by destruct has_errCb.
  - unfold cancel. destruct (isCancelled st); simpl; [by intros H%elem_of_nil|].
    destruct (socket st) as [sock|]; simpl; [|by intros H%elem_of_nil].
    unfold Stream.cancel. destruct (Stream.connection sock) as [[closing has lis]|]; simpl;
      [|by intros H%elem_of_nil].
    intros Hin. exfalso. revert Hin. apply no_Push. by destruct has.
  - unfold stream_event. destruct (socket st) as [sock|]; simpl;
      [|by intros H%elem_of_nil].
    pose proof (stream_step_pushes (on_frame to_number) stream_args e sock (results st)
                                   values) as Hcb.
    destruct (Stream.step _ _ _ _ _) as [[sock' results'] out]. simpl in *.
    intros Hin. destruct (Hcb Hin) as [frame Hframe].
    by eapply update_pushes_keyed.
Qed.

Lemma run_pushes_keyed (evs : list Event) (values : list KubeObject) :
  forall st : State,
    keyed_by_uid (results st) ->
    Push values ∈ concat (run_events to_number watchUrl has_errCb evs st).2 ->
    exists r : gmap string KubeObject, keyed_by_uid r /\ values = Object_values r.
Proof.
  induction evs as [|ev evs IH]; intros st Hinv; simpl; [by intros H%elem_of_nil|].
  pose proof (step_keyed ev st Hinv) as Hinv'.
  pose proof (step_pushes_keyed ev st values Hinv) as Hstep.
  destruct (step to_number watchUrl has_errCb ev st) as [st' out].
  specialize (IH st' Hinv').
  destruct (run_events to_number watchUrl has_errCb evs st') as [st'' outs].
  simpl in *. intros [Hin|Hin]%elem_of_app; [by apply Hstep|by apply IH].
Qed.

(** One MODIFIED event leaves a stored item as it is or merges the object
    of the event into it. *)
Lemma update_modified_merges (object : KubeObject) (results : gmap string KubeObject)
      (u : string) (existing : KubeObject) :
  results !! u = Some existing ->
  (update to_number "MODIFIED" object results).1 !! u = Some existing
  \/ (uid (metadata object) = u
      /\ (update to_number "MODIFIED" object results).1 !! u
         = Some (Object_assign existing (set_actionType "MODIFIED" object))).
Proof.
  intros Hu.
  destruct (decide (uid (metadata object) = u)) as [<-|Hne].
  - rewrite (update_modified_present _ _ _ _ Hu).
    destruct (negb _ || negb _); [by left|].
    destruct (less_than _ _ _); [|by left].
    right. simpl. by rewrite lookup_insert_eq.
  - left. destruct (results !! uid (metadata object)) as [other|] eqn:Ho.
    + rewrite (update_modified_present _ _ _ _ Ho).
      destruct (negb _ || negb _); [done|].
      destruct (less_than _ _ _); [|done].
      simpl. by rewrite lookup_insert_ne.
    + destruct (decide (uid (metadata object) ∈ Object_prototype_names))
        as [Hname|Hname].
      * by rewrite (update_modified_inherited _ _ _ Ho Hname).
      * rewrite (update_modified_absent _ _ _ Ho Hname). simpl.
        by rewrite lookup_insert_ne.
Qed.

(** [Object.assign] removes no property, and changes only those its
    source has. *)
Lemma Object_assign_keeps (target source : KubeObject) (p v : string) :
  props target !! p = Some v ->
  is_Some (props (Object_assign target source) !! p)
  /\ (props source !! p = None -> props (Object_assign target source) !! p = Some v)
  /\ (is_Some (kind target) -> is_Some (kind (Object_assign target source))).
Proof.
  intros Hp. simpl. split; [|split].
  - destruct (assigned_props (props target) (props source) !! p) as [w|] eqn:Hw.
    + exists w. by apply lookup_union_Some_l.
    + exists v. by rewrite lookup_union_r.
  - intros Hnone. rewrite lookup_union_r; [done|].
    unfold assigned_props. case_bool_decide; [done|].
    apply lookup_delete_None. by right.
  - intros Hk. by destruct (kind source).
Qed.
End CollectionFacts.

(** X12.  Through the snapshot and every sequence of watch events, cancels
    and socket events, each item of the collection is stored under its own
    UID. *)
Theorem X12_collection_keyed_by_uid
        (to_number : Z -> Z) (watchUrl : option string -> string) (has_errCb : bool)
        (evs : list StreamResults.Event) :
  keyed_by_uid
    (StreamResults.results
       (StreamResults.run_events to_number watchUrl has_errCb evs
                                 StreamResults.start.1).1).
Proof.
  apply run_keyed. intros u item H. simpl in H. by rewrite lookup_empty in H.
Qed.

(** X13.  When the snapshot request fails, the error is logged and handed
    to the error callback (when there is one) once; no socket is opened and
    nothing is pushed, then or after any later event: the call stays
    without a collection and without a watch. *)
Theorem X13_snapshot_failure_is_final
        (to_number : Z -> Z) (watchUrl : option string -> string) (has_errCb : bool)
        (err : ApiError) (evs : list StreamResults.Event) :
  (StreamResults.run_rejected has_errCb err StreamResults.start.1).2
  = ConsoleError "Error in api request" :: (if has_errCb then [ErrCb err] else [])
  /\ (StreamResults.run_events
        to_number watchUrl has_errCb evs
        (StreamResults.run_rejected has_errCb err StreamResults.start.1).1).2
     = replicate (length evs) []
  /\ StreamResults.results
       (StreamResults.run_events
          to_number watchUrl has_errCb evs
          (StreamResults.run_rejected has_errCb err StreamResults.start.1).1).1 = ∅
  /\ StreamResults.socket
       (StreamResults.run_events
          to_number watchUrl has_errCb evs
          (StreamResults.run_rejected has_errCb err StreamResults.start.1).1).1 = None.
Proof.
  split; [reflexivity|].
  by apply (run_inert to_number watchUrl has_errCb evs).
Qed.

(** X14.  When the handle is called before the snapshot arrives, nothing is
    ever pushed and no socket is ever opened, whatever events follow; a
    rejection of the request that arrives after the cancel still reaches the
    error callback. *)
Theorem X14_cancel_before_snapshot
        (to_number : Z -> Z) (watchUrl : option string -> string)
        (evs : list StreamResults.Event) (err : ApiError) :
  filter is_Push
         (concat (StreamResults.run_events
                    to_number watchUrl true evs
                    (StreamResults.cancel StreamResults.start.1).1).2) = []
  /\ filter is_NewWebSocket
            (concat (StreamResults.run_events
                       to_number watchUrl true evs
                       (StreamResults.cancel StreamResults.start.1).1).2) = []
  /\ StreamResults.results
       (StreamResults.run_events
          to_number watchUrl true evs
          (StreamResults.cancel StreamResults.start.1).1).1 = ∅
  /\ (StreamResults.run_rejected true err (StreamResults.cancel StreamResults.start.1).1).2
     = [ConsoleError "Error in api request"; ErrCb err].
Proof.
  destruct (run_cancelled_early to_number watchUrl true evs
                                (StreamResults.cancel StreamResults.start.1).1
                                eq_refl eq_refl) as (Hp & Hn & Hr).
  by repeat split.
Qed.

(** X15.  No list pushed to the caller ever holds two items with the same
    UID: through the snapshot and every sequence of watch events, cancels
    and socket events, the UIDs of the items of each push are distinct. *)
Theorem X15_pushed_uids_distinct
        (to_number : Z -> Z) (watchUrl : option string -> string) (has_errCb : bool)
        (evs : list StreamResults.Event) (values : list KubeObject)
        (Hpushed : Push values
                   ∈ concat (StreamResults.run_events to_number watchUrl has_errCb evs
                                                      StreamResults.start.1).2) :
  NoDup ((fun item => uid (metadata item)) <$> values).
Proof.
  destruct (run_pushes_keyed to_number watchUrl has_errCb evs values
                             StreamResults.start.1) as (r & Hr & ->); [|done|].
  - intros u item H. simpl in H. by rewrite lookup_empty in H.
  - by apply keyed_values_NoDup.
Qed.

Lemma X15_witness :
  NoDup ((fun item => uid (metadata item)) <$> [stored_pod "1" "5"]).
Proof.
  apply (X15_pushed_uids_distinct
           exact_number (fun _ => "/api/v1/pods?watch=1") true
           [StreamResults.Resolved (mkList "PodList" [pod "1" "5"] (Some "5")) true]
           [stored_pod "1" "5"]).
  vm_compute. left.
Defined.

(** X16.  MODIFIED events never remove a property of a stored item (the
    prototype of the collection not having been replaced): after any
    sequence of MODIFIED events the item is stored with every property it
    had, a property keeps its value when no event for the item carries it,
    and the item keeps a kind when it had one; the prototype stays as it
    is.  A property that the server has dropped from the object therefore
    stays on the stored item. *)
Theorem X16_modified_never_removes
        (to_number : Z -> Z) (objects : list KubeObject)
        (results : gmap string KubeObject) (u : string) (existing : KubeObject)
        (p v : string)
        (Hproto : results !! "__proto__" = None)
        (Hstored : results !! u = Some existing)
        (Hprop : props existing !! p = Some v) :
  exists item : KubeObject,
    apply_modified to_number objects results !! u = Some item
    /\ is_Some (props item !! p)
    /\ ((forall object : KubeObject,
            object ∈ objects -> uid (metadata object) = u -> props object !! p = None) ->
        props item !! p = Some v)
    /\ (is_Some (kind existing) -> is_Some (kind item))
    /\ apply_modified to_number objects results !! "__proto__" = None.
Proof.
  revert results existing v Hproto Hstored Hprop.
  induction objects as [|o objects IH]; intros results existing v Hproto Hstored Hprop.
  - exists existing. simpl. repeat split; eauto.
  - unfold apply_modified. cbn [foldl]. fold (apply_modified to_number objects).
    assert ((StreamResults.update to_number "MODIFIED" o results).1 !! "__proto__" = None)
      as Hproto' by (by apply update_keeps_prototype).
    destruct (update_modified_merges to_number o results u existing Hstored)
      as [Hsame|[Hu Hmerged]].
    + destruct (IH _ existing v Hproto' Hsame Hprop)
        as (item & Hitem & Hsome & Hval & Hkind & Hp).
      exists item. repeat split; try done.
      intros Hnone. apply Hval. intros object Hin. apply Hnone. by right.
    + destruct (Object_assign_keeps existing (set_actionType "MODIFIED" o) p v Hprop)
        as ([w Hw] & Hkeep & Hk).
      destruct (IH _ _ w Hproto' Hmerged Hw)
        as (item & Hitem & Hsome & Hval & Hkind & Hp).
      exists item. split; [done|]. split; [done|]. split; [|split; [|done]].
      * intros Hnone.
        assert (w = v) as ->.
        { specialize (Hkeep (Hnone o (list_elem_of_here _ _) Hu)).
          rewrite Hkeep in Hw. by injection Hw. }
        apply Hval. intros object Hin. apply Hnone. by right.
      * intros Hsomek. by apply Hkind, Hk.
Qed.

Lemma X16_witness :
  exists item : KubeObject,
    apply_modified exact_number [pod "1" "6"]
                   {["1" := mkObj (Some "Pod") (mkMeta "1" (Some "5")) None
                                  {["status" := "Running"]}]} !! "1" = Some item
    /\ props item !! "status" = Some "Running".
Proof.
  destruct (X16_modified_never_removes
              exact_number [pod "1" "6"]
              {["1" := mkObj (Some "Pod") (mkMeta "1" (Some "5")) None
                             {["status" := "Running"]}]}
              "1"
              (mkObj (Some "Pod") (mkMeta "1" (Some "5")) None {["status" := "Running"]})
              "status" "Running"
              (lookup_singleton_ne "1" "__proto__" _ ltac:(discriminate))
              (lookup_singleton_eq _ _) (lookup_singleton_eq _ _))
    as (item & Hitem & _ & Hval & _ & _).
  exists item. split; [exact Hitem|]. apply Hval.
  intros object ->%list_elem_of_singleton _. reflexivity.
Defined.

(** ** The single-resource reconciler *)

Lemma on_frames_live (frames : list StreamResults.WatchEvent) :
  forall (u : string) (timers : nat) (cancelled pending : bool) (seen : list KubeObject),
    StreamResult.delivered
      (on_frames frames
                 (StreamResult.mkState
                    cancelled
                    (Some (Stream.mkState u (Some (ConnectStream.mkConn false true true))
                                          false timers))
                    pending seen))
    = seen ++ (StreamResults.ev_object <$> frames).
Proof.
  induction frames as [|f frames IH]; intros u timers cancelled pending seen.
  - simpl. by rewrite app_nil_r.
  - unfold on_frames. cbn [foldl].
    assert (Hstep :
              (StreamResult.stream_event
                 (Stream.EvMessage (Some f))
                 (StreamResult.mkState
                    cancelled
                    (Some (Stream.mkState u (Some (ConnectStream.mkConn false true true))
                                          false timers))
                    pending seen)).1
              = StreamResult.mkState
                  cancelled
                  (Some (Stream.mkState u (Some (ConnectStream.mkConn false true true))
                                        false timers))
                  pending (seen ++ [StreamResults.ev_object f])) by reflexivity.
    rewrite Hstep. unfold on_frames in IH. rewrite IH.
    rewrite fmap_cons. by rewrite <- app_assoc.
Qed.

(** X17.  [streamResult] hands the object of the first request to the
    callback and opens the watch; from then on the object of every frame is
    handed on as it is and in order, whatever its type or version.  When the
    request fails, or resolves after the handle was called, nothing is
    handed on and no socket is opened. *)
Theorem X17_streamResult_passes_objects
        (watchUrl : string) (has_errCb : bool) (item : KubeObject)
        (frames : list StreamResults.WatchEvent) (err : ApiError) :
  (StreamResult.run_resolved watchUrl item true StreamResult.start.1).2
  = [NewWebSocket watchUrl true]
  /\ StreamResult.delivered
       (on_frames frames (StreamResult.run_resolved watchUrl item true
                                                     StreamResult.start.1).1)
     = item :: (StreamResults.ev_object <$> frames)
  /\ StreamResult.run_rejected has_errCb err StreamResult.start.1
     = (StreamResult.mkState false None false [],
        ConsoleError "Error in api request" :: (if has_errCb then [ErrCb err] else []))
  /\ StreamResult.run_resolved watchUrl item true
                               (StreamResult.cancel StreamResult.start.1).1
     = (StreamResult.mkState true None false [], []).
Proof.
  split; [reflexivity|]. split; [|by split].
  unfold StreamResult.run_resolved, StreamResult.start, Stream.start, Stream.connect.
  simpl. apply (on_frames_live frames watchUrl 0 false false [item]).
Qed.

(** ** The router *)

Section RouterFacts.
Import RepeatStreamFunc.
Variable endpoints : nat.
Variable has_errCb : bool.

(** A step starts the stream of the next endpoint or none. *)
Lemma sys_step_started (ev : Event) (s : System) :
  (omap started (sys_step endpoints has_errCb ev s).2 = []
   /\ endpointIndex (router (sys_step endpoints has_errCb ev s).1)
      = endpointIndex (router s))
  \/ (omap started (sys_step endpoints has_errCb ev s).2 = [endpointIndex (router s)]
      /\ endpointIndex (router (sys_step endpoints has_errCb ev s).1)
         = S (endpointIndex (router s))).
Proof.
  destruct ev as [i|i err|i| |]; simpl.
  - left. by destruct (candidates s !! i) as [[[] []]|].
  - destruct (candidates s !! i) as [[[] c]|]; try (by left).
    destruct (isCancelled (router s)) eqn:Hlive.
    { left. by rewrite cancel_after_cancel. }
    destruct (decide (status err = Some 404
                      /\ (endpointIndex (router s) < endpoints)%nat)) as [[H404 Hnext]|Hno].
    + right. by rewrite cancel_switches.
    + left. rewrite cancel_propagates; [by destruct has_errCb|done|].
      destruct (decide (status err = Some 404)) as [H404|H404]; [|by right].
      left. apply Nat.le_ngt. intros Hnext. by apply Hno.
  - left. by destruct (candidates s !! i) as [[[] c]|].
  - left. unfold resume. by destruct (awaiting (router s)).
  - left. unfold returned_cancel. by destruct (streamCancel (router s)).
Qed.

Lemma sys_trace_started (evs : list Event) :
  forall s : System,
    exists n : nat,
      endpointIndex (router (sys_run endpoints has_errCb evs s))
      = (endpointIndex (router s) + n)%nat
      /\ omap started (sys_trace endpoints has_errCb evs s)
         = seq (endpointIndex (router s)) n.
Proof.
  induction evs as [|ev evs IH]; intros s; simpl.
  - exists 0%nat. by rewrite Nat.add_0_r.
  - destruct (IH (sys_step endpoints has_errCb ev s).1) as (n & Hn & Hseq).
    rewrite omap_app, Hseq, Hn.
    destruct (sys_step_started ev s) as [[-> ->]|[-> ->]].
    + by exists n.
    + exists (S n). split; [lia|reflexivity].
Qed.

(** Once the returned function was called the router starts nothing and
    calls no error callback. *)
Lemma sys_trace_cancelled (evs : list Event) :
  forall s : System,
    isCancelled (router s) = true ->
    omap started (sys_trace endpoints has_errCb evs s) = []
    /\ filter is_CallErrCb (sys_trace endpoints has_errCb evs s) = [].
Proof.
  induction evs as [|ev evs IH]; intros s Hcan; simpl; [done|].
  assert (Hstep : omap started (sys_step endpoints has_errCb ev s).2 = []
                  /\ filter is_CallErrCb (sys_step endpoints has_errCb ev s).2 = []
                  /\ isCancelled (router (sys_step endpoints has_errCb ev s).1) = true).
  { destruct ev as [i|i err|i| |]; simpl.
    - by destruct (candidates s !! i) as [[[] []]|].
    - destruct (candidates s !! i) as [[[] c]|]; try done.
      by rewrite cancel_after_cancel.
    - by destruct (candidates s !! i) as [[[] c]|].
    - unfold resume. by destruct (awaiting (router s)).
    - unfold returned_cancel. by destruct (streamCancel (router s)). }
  destruct Hstep as (Hs & He & Hc). destruct (IH _ Hc) as [IHs IHe].
  by rewrite omap_app, filter_app, Hs, He, IHs, IHe.
Qed.
End RouterFacts.

(** X18.  After the function that [repeatStreamFunc] returned has been
    called, the router starts no stream and calls no error callback,
    whatever its streams report afterwards. *)
Theorem X18_router_cancel_is_final
        (endpoints : nat) (has_errCb : bool) (s : RepeatStreamFunc.System)
        (evs : list RepeatStreamFunc.Event) :
  omap started
       (sys_trace endpoints has_errCb evs
                  (RepeatStreamFunc.sys_step endpoints has_errCb
                                             RepeatStreamFunc.ReturnedCancel s).1) = []
  /\ filter is_CallErrCb
            (sys_trace endpoints has_errCb evs
                       (RepeatStreamFunc.sys_step endpoints has_errCb
                                                  RepeatStreamFunc.ReturnedCancel s).1) = [].
Proof.
  apply sys_trace_cancelled. simpl. unfold RepeatStreamFunc.returned_cancel.
  by destruct (RepeatStreamFunc.streamCancel (RepeatStreamFunc.router s)).
Qed.

(** X19.  The router starts the streams of the endpoints in their order,
    each at most once and none skipped: over every sequence of events the
    streams started are those of the endpoints 0, 1, ... up to the one it
    has reached, and it never goes beyond the last endpoint. *)
Theorem X19_router_starts_in_order
        (endpoints : nat) (has_errCb : bool) (evs : list RepeatStreamFunc.Event)
        (Hsome : (0 < endpoints)%nat) :
  omap started ((RepeatStreamFunc.initial endpoints).2
                  ++ sys_trace endpoints has_errCb evs (RepeatStreamFunc.initial endpoints).1)
  = seq 0 (RepeatStreamFunc.endpointIndex
             (RepeatStreamFunc.router
                (RepeatStreamFunc.sys_run endpoints has_errCb evs
                                          (RepeatStreamFunc.initial endpoints).1)))
  /\ (RepeatStreamFunc.endpointIndex
        (RepeatStreamFunc.router
           (RepeatStreamFunc.sys_run endpoints has_errCb evs
                                     (RepeatStreamFunc.initial endpoints).1))
      <= endpoints)%nat.
Proof.
  split.
  - destruct (sys_trace_started endpoints has_errCb evs (RepeatStreamFunc.initial endpoints).1)
      as (n & Hn & Hseq).
    rewrite omap_app, Hseq, Hn.
    unfold RepeatStreamFunc.initial, RepeatStreamFunc.start, RepeatStreamFunc.runStreamFunc.
    assert (Hlt : (0 <? endpoints)%nat = true) by by apply Nat.ltb_lt.
    rewrite Hlt. simpl. reflexivity.
  - pose proof (run_inv endpoints has_errCb evs _ (initial_inv endpoints Hsome))
      as (_ & Hbound & _). lia.
Qed.

Lemma X19_witness :
  omap started ((RepeatStreamFunc.initial 2).2
                  ++ sys_trace 2 true
                               [RepeatStreamFunc.RequestRejected 0 not_found;
                                RepeatStreamFunc.RequestRejected 1 not_found]
                               (RepeatStreamFunc.initial 2).1)
  = [0%nat; 1%nat].
Proof.
  exact (proj1 (X19_router_starts_in_order
                  2 true [RepeatStreamFunc.RequestRejected 0 not_found;
                          RepeatStreamFunc.RequestRejected 1 not_found]
                  (Nat.lt_0_succ 1))).
Defined.

(** ** The multiplexer *)

Section ManagerFacts.
Import WebSocketManager.
Variable throws : Listener -> Update -> bool.
Variable json_ok : string -> bool.

Lemma forEach_invokes (set : list Listener) (update : Update) (e : Effect) :
  e ∈ (forEach throws set update).1 ->
  exists l : Listener, l ∈ set /\ e = Invoke l update.
Proof.
  induction set as [|x set IH]; simpl; [by intros H%elem_of_nil|].
  destruct (throws x update).
  - intros ->%list_elem_of_singleton. exists x. by split; [left|].
  - destruct (forEach throws set update) as [out thrown]. simpl in *.
    intros [->|Hin]%elem_of_cons.
    + exists x. by split; [left|].
    + destruct (IH Hin) as (l & Hl & ->). exists l. by split; [right|].
Qed.




Lemma handle_message_connecting (parsed : Parsed) (st : State) :
  connecting (handleWebSocketMessage throws json_ok parsed st).1 = connecting st.
Proof.
  unfold handleWebSocketMessage, handleCompletionMessage.
  destruct parsed as [| | |frame]; simpl; try done.
  destruct (frame_key frame) as [key|]; simpl; [|done].
  repeat case_bool_decide; simpl; try done.
  destruct (decode_update json_ok frame); simpl; [|done].
  destruct (listeners st !! key); simpl; [|done].
  by destruct (forEach _ _ _).
Qed.

(** A subscribe opens a socket only when none is open or being opened, and
    then one is being opened. *)
Lemma subscribe_opens (c p q : string) (l : Listener) (st : State) :
  busy (subscribe c p q l st).1 = true
  /\ filter is_OpenSocket (subscribe c p q l st).2
     = if busy st then [] else [OpenSocket].
Proof.
  unfold subscribe, connect, busy, socket_open. simpl.
  destruct (bool_decide (socket st = Some OPEN)) eqn:Hopen; simpl.
  { by rewrite Hopen. }
  destruct (connecting st) eqn:Hc; simpl; rewrite ?Hopen, ?Hc; simpl; try done.
Qed.
End ManagerFacts.

(** X20.  A frame is handed only to the listeners registered under its own
    key: whenever a listener is called, the message is a JSON object with a
    cluster and a path, it is not a COMPLETE frame, its key is not
    completed, the listener is registered under that key, and what it
    receives is the decoded payload of the frame. *)
Theorem X20_only_registered_listeners_are_called
        (throws : WebSocketManager.Listener -> WebSocketManager.Update -> bool)
        (json_ok : string -> bool)
        (parsed : WebSocketManager.Parsed) (st : WebSocketManager.State)
        (l : WebSocketManager.Listener) (update : WebSocketManager.Update)
        (Hcalled : WebSocketManager.Invoke l update
                   ∈ (WebSocketManager.handleWebSocketMessage throws json_ok parsed st).2) :
  exists (frame : WebSocketManager.Frame) (key : string),
    parsed = WebSocketManager.JsonObject frame
    /\ WebSocketManager.frame_key frame = Some key
    /\ WebSocketManager.type frame <> Some "COMPLETE"
    /\ (key ∉ WebSocketManager.completedPaths st)
    /\ WebSocketManager.decode_update json_ok frame = Some update
    /\ registered st key l.
Proof.
  unfold WebSocketManager.handleWebSocketMessage in Hcalled.
  destruct parsed as [| | |frame]; simpl in Hcalled;
    try (apply list_elem_of_singleton in Hcalled; discriminate);
    try (by apply elem_of_nil in Hcalled).
  destruct (WebSocketManager.frame_key frame) as [key|] eqn:Hkey;
    [|by apply elem_of_nil in Hcalled].
  case_bool_decide as Htype.
  { unfold WebSocketManager.handleCompletionMessage in Hcalled. simpl in Hcalled.
    destruct (WebSocketManager.socket_open st);
      [apply list_elem_of_singleton in Hcalled; discriminate
      |by apply elem_of_nil in Hcalled]. }
  case_bool_decide as Hdone; [by apply elem_of_nil in Hcalled|].
  destruct (WebSocketManager.decode_update json_ok frame) as [u|] eqn:Hupd;
    [|apply list_elem_of_singleton in Hcalled; discriminate].
  destruct (WebSocketManager.listeners st !! key) as [set|] eqn:Hset;
    [|by apply elem_of_nil in Hcalled].
  pose proof (forEach_invokes throws set u (WebSocketManager.Invoke l update)) as Hinv.
  destruct (WebSocketManager.forEach throws set u) as [out thrown]. simpl in *.
  apply elem_of_app in Hcalled as [Hin|Hin].
  - destruct (Hinv Hin) as (l' & Hl' & Heq). injection Heq as -> ->.
    exists frame, key. repeat split; try done. by exists set.
  - destruct thrown; [apply list_elem_of_singleton in Hin; discriminate
                     |by apply elem_of_nil in Hin].
Qed.

Lemma X20_witness :
  exists (frame : WebSocketManager.Frame) (key : string),
    WebSocketManager.JsonObject (pods_frame (Some "MODIFIED") None)
    = WebSocketManager.JsonObject frame
    /\ WebSocketManager.frame_key frame = Some key
    /\ WebSocketManager.type frame <> Some "COMPLETE"
    /\ (key ∉ WebSocketManager.completedPaths (two_listeners (Some WebSocketManager.OPEN)))
    /\ WebSocketManager.decode_update any_json frame
       = Some (WebSocketManager.WholeFrame (pods_frame (Some "MODIFIED") None))
    /\ registered (two_listeners (Some WebSocketManager.OPEN)) key 2%nat.
Proof.
  apply (X20_only_registered_listeners_are_called
           quiet any_json
           (WebSocketManager.JsonObject (pods_frame (Some "MODIFIED") None))
           (two_listeners (Some WebSocketManager.OPEN)) 2%nat
           (WebSocketManager.WholeFrame (pods_frame (Some "MODIFIED") None))).
  vm_compute. right. left.
Defined.

Section ManagerRuns.
Import WebSocketManager.
Variable throws : Listener -> Update -> bool.
Variable json_ok : string -> bool.

(** X21.  After the socket has dropped while keys are registered, the
    manager schedules one reconnect after a second, the reconnect opens one
    new socket, and when that socket is open the registry and the completed
    keys are as before the drop; the manager sends no frame at any of these
    steps, so no key is requested again on the new socket. *)
Theorem X21_reconnect_sends_no_request (st : State)
        (Hsome : size (listeners st) <> 0%nat) :
  run throws json_ok [OnClose; ReconnectTimer; OnOpen] st
  = (mkState (Some OPEN) false (listeners st) (completedPaths st),
     [ [LogInfo "WebSocket closed, attempting reconnect..."; SetTimeoutConnect 1000];
       [OpenSocket];
       [] ]).
Proof.
  unfold run, step, handleWebSocketClose, connect, onopen, socket_open. simpl.
  by rewrite bool_decide_eq_false_2.
Qed.

(** X22.  What the manager sends.  A REQUEST frame is sent only by a
    subscribe whose connection has resolved, and it names the subscribed
    cluster, path and query.  Every other frame sent is a CLOSE frame; it is
    sent only while the socket held is open, and only by an unsubscribe that
    removes the last listener of its key or in answer to a COMPLETE frame. *)
Theorem X22_frames_sent (op : Op) (st : State) (msg : WebSocketMessage)
        (Hsent : Send msg ∈ (step throws json_ok op st).2) :
  (exists (c p q : string) (u : option string),
      op = SubscribeConnected c p q u
      /\ msg = mkMsg c p q (JS.or_empty u) REQUEST)
  \/ (msg_type msg = CLOSE
      /\ socket_open st = true
      /\ ((exists key, last_unsubscribe key op st = true)
          \/ (exists frame, op = OnMessage (JsonObject frame)
                            /\ type frame = Some "COMPLETE"))).
Proof.
  destruct op as [c p q l|c p q u|k l u p q|parsed| | | | |rs];
    unfold step, onopen, onerror, subscribe_connected in Hsent; simpl in Hsent.
  - unfold subscribe, connect in Hsent.
    destruct (socket_open _), (connecting _); simpl in Hsent;
      repeat (apply elem_of_cons in Hsent as [Hsent|Hsent]; try discriminate);
      by apply elem_of_nil in Hsent.
  - left. apply list_elem_of_singleton in Hsent. injection Hsent as ->.
    by exists c, p, q, u.
  - right. destruct (listeners st !! k) as [set|] eqn:Hset.
    + destruct (decide (Set_delete l set = [])) as [Hlast|Hlast].
      * rewrite (unsubscribe_last _ _ _ _ _ _ _ Hset Hlast) in Hsent.
        assert (Send msg ∈ (if socket_open st
                            then [Send (mkMsg (JS.split_colon_first k) p q
                                              (JS.or_empty u) CLOSE)]
                            else [])) as Hclose.
        { simpl in Hsent. destruct (bool_decide _ && bool_decide _); simpl in Hsent;
            [|done].
          apply elem_of_app in Hsent as [Hin|Hin]; [done|].
          apply list_elem_of_singleton in Hin. discriminate. }
        destruct (socket_open st); [|by apply elem_of_nil in Hclose].
        apply list_elem_of_singleton in Hclose. injection Hclose as ->.
        repeat split; try done. left. exists k. simpl. rewrite Hset.
        by rewrite !bool_decide_eq_true_2.
      * rewrite (unsubscribe_not_last _ _ _ _ _ _ _ Hset Hlast) in Hsent.
        by apply elem_of_nil in Hsent.
    + rewrite (unsubscribe_unknown _ _ _ _ _ _ Hset) in Hsent.
      destruct (bool_decide _ && bool_decide _); simpl in Hsent;
        [apply list_elem_of_singleton in Hsent; discriminate
        |by apply elem_of_nil in Hsent].
  - right. unfold handleWebSocketMessage in Hsent.
    destruct parsed as [| | |frame]; simpl in Hsent;
      try (apply list_elem_of_singleton in Hsent; discriminate);
      try (by apply elem_of_nil in Hsent).
    destruct (frame_key frame) as [key|] eqn:Hkey;
      [|by apply elem_of_nil in Hsent].
    case_bool_decide as Htype.
    { unfold handleCompletionMessage in Hsent. simpl in Hsent.
      destruct (socket_open st); [|by apply elem_of_nil in Hsent].
      apply list_elem_of_singleton in Hsent. injection Hsent as ->.
      repeat split; try done. right. by exists frame. }
    case_bool_decide as Hdone; [by apply elem_of_nil in Hsent|].
    destruct (decode_update json_ok frame) as [upd|];
      [|apply list_elem_of_singleton in Hsent; discriminate].
    destruct (listeners st !! key) as [set|]; [|by apply elem_of_nil in Hsent].
    pose proof (forEach_invokes throws set upd (Send msg)) as Hinv.
    destruct (forEach throws set upd) as [out thrown]. simpl in *.
    apply elem_of_app in Hsent as [Hin|Hin].
    + destruct (Hinv Hin) as (l' & _ & Heq). discriminate.
    + destruct thrown; [apply list_elem_of_singleton in Hin; discriminate
                       |by apply elem_of_nil in Hin].
  - by apply elem_of_nil in Hsent.
  - apply list_elem_of_singleton in Hsent. discriminate.
  - unfold handleWebSocketClose in Hsent. simpl in Hsent.
    apply elem_of_cons in Hsent as [Hsent|Hsent]; [discriminate|].
    destruct (bool_decide _); [by apply elem_of_nil in Hsent|].
    apply list_elem_of_singleton in Hsent. discriminate.
  - unfold connect in Hsent.
    destruct (socket_open st), (connecting st); simpl in Hsent;
      repeat (apply elem_of_cons in Hsent as [Hsent|Hsent]; try discriminate);
      by apply elem_of_nil in Hsent.
  - by apply elem_of_nil in Hsent.
Qed.


(** X24.  Frames from the server never change who is subscribed, the socket
    or the connecting flag, whatever they hold and whether or not a listener
    throws; a key once marked completed stays marked. *)
Theorem X24_messages_keep_the_registry (ops : list Op) (st : State)
        (Hmessages : forallb is_OnMessage ops = true) :
  listeners (run throws json_ok ops st).1 = listeners st
  /\ socket (run throws json_ok ops st).1 = socket st
  /\ connecting (run throws json_ok ops st).1 = connecting st
  /\ completedPaths st ⊆ completedPaths (run throws json_ok ops st).1.
Proof.
  revert st Hmessages. induction ops as [|op ops IH]; intros st Hall; [done|].
  simpl in Hall. apply andb_true_iff in Hall as [Hop Hall].
  destruct op as [| | |parsed| | | | |]; try discriminate.
  pose proof (handle_message_keeps throws json_ok parsed st) as (Hl & Hs & Hc).
  pose proof (handle_message_connecting throws json_ok parsed st) as Hg.
  specialize (IH (handleWebSocketMessage throws json_ok parsed st).1 Hall).
  simpl. destruct (handleWebSocketMessage throws json_ok parsed st) as [st1 out1].
  simpl in *. destruct (run throws json_ok ops st1) as [st2 outs]. simpl in *.
  destruct IH as (IHl & IHs & IHg & IHc).
  rewrite IHl, IHs, IHg, Hl, Hs, Hg. repeat split; try done. set_solver.
Qed.

(** X25.  Any number of subscribe calls made before the socket opens share
    one connection attempt: they open one socket when none is open or being
    opened, and none otherwise; afterwards a socket is open or being
    opened. *)
Theorem X25_subscribes_share_one_socket (ops : list Op) (st : State)
        (Hsubscribes : forallb is_Subscribe ops = true)
        (Hsome : ops <> []) :
  filter is_OpenSocket (concat (run throws json_ok ops st).2)
  = (if busy st then [] else [OpenSocket])
  /\ busy (run throws json_ok ops st).1 = true.
Proof.
  assert (forall (ops : list Op) (st : State),
             forallb is_Subscribe ops = true -> busy st = true ->
             filter is_OpenSocket (concat (run throws json_ok ops st).2) = []
             /\ busy (run throws json_ok ops st).1 = true) as Hbusy.
  { clear. intros ops. induction ops as [|op ops IH]; intros st Hall Hb; [done|].
    simpl in Hall. apply andb_true_iff in Hall as [Hop Hall].
    destruct op as [c p q l| | | | | | | |]; try discriminate.
    pose proof (subscribe_opens c p q l st) as [Hb1 Hopen]. rewrite Hb in Hopen.
    specialize (IH (subscribe c p q l st).1 Hall Hb1).
    simpl. destruct (subscribe c p q l st) as [st1 out1]. simpl in *.
    destruct (run throws json_ok ops st1) as [st2 outs]. simpl in *.
    destruct IH as [IHo IHb]. by rewrite filter_app, Hopen, IHo. }
  destruct ops as [|op ops]; [done|].
  simpl in Hsubscribes. apply andb_true_iff in Hsubscribes as [Hop Hall].
  destruct op as [c p q l| | | | | | | |]; try discriminate.
  pose proof (subscribe_opens c p q l st) as [Hb1 Hopen].
  specialize (Hbusy ops (subscribe c p q l st).1 Hall Hb1).
  simpl. destruct (subscribe c p q l st) as [st1 out1]. simpl in *.
  destruct (run throws json_ok ops st1) as [st2 outs]. simpl in *.
  destruct Hbusy as [IHo IHb]. rewrite filter_app, Hopen, IHo.
  by rewrite app_nil_r.
Qed.
End ManagerRuns.

Lemma X21_witness :
  WebSocketManager.run quiet any_json
    [WebSocketManager.OnClose; WebSocketManager.ReconnectTimer; WebSocketManager.OnOpen]
    (one_listener (Some WebSocketManager.OPEN))
  = (WebSocketManager.mkState (Some WebSocketManager.OPEN) false
       (WebSocketManager.listeners (one_listener (Some WebSocketManager.OPEN)))
       (WebSocketManager.completedPaths (one_listener (Some WebSocketManager.OPEN))),
     [ [WebSocketManager.LogInfo "WebSocket closed, attempting reconnect...";
        WebSocketManager.SetTimeoutConnect 1000];
       [WebSocketManager.OpenSocket];
       [] ]).
Proof.
  apply (X21_reconnect_sends_no_request quiet any_json
           (one_listener (Some WebSocketManager.OPEN))).
  vm_compute. discriminate.
Defined.

Lemma X22_witness :
  (exists (c p q : string) (u : option string),
      WebSocketManager.SubscribeConnected "c1" "/api/v1/pods" "" None
      = WebSocketManager.SubscribeConnected c p q u
      /\ WebSocketManager.mkMsg "c1" "/api/v1/pods" "" "" WebSocketManager.REQUEST
         = WebSocketManager.mkMsg c p q (JS.or_empty u) WebSocketManager.REQUEST)
  \/ (WebSocketManager.msg_type
        (WebSocketManager.mkMsg "c1" "/api/v1/pods" "" "" WebSocketManager.REQUEST)
      = WebSocketManager.CLOSE
      /\ WebSocketManager.socket_open (one_listener (Some WebSocketManager.OPEN)) = true
      /\ ((exists key,
              last_unsubscribe key
                (WebSocketManager.SubscribeConnected "c1" "/api/v1/pods" "" None)
                (one_listener (Some WebSocketManager.OPEN)) = true)
          \/ (exists frame,
                 WebSocketManager.SubscribeConnected "c1" "/api/v1/pods" "" None
                 = WebSocketManager.OnMessage (WebSocketManager.JsonObject frame)
                 /\ WebSocketManager.type frame = Some "COMPLETE"))).
Proof.
  apply (X22_frames_sent quiet any_json
           (WebSocketManager.SubscribeConnected "c1" "/api/v1/pods" "" None)
           (one_listener (Some WebSocketManager.OPEN))).
  simpl. left.
Defined.


Lemma X24_witness :
  WebSocketManager.listeners
    (WebSocketManager.run first_throws any_json
       [ WebSocketManager.OnMessage
           (WebSocketManager.JsonObject (pods_frame (Some "MODIFIED") None));
         WebSocketManager.OnMessage WebSocketManager.SyntaxError;
         WebSocketManager.OnMessage
           (WebSocketManager.JsonObject (pods_frame (Some "COMPLETE") None)) ]
       (two_listeners (Some WebSocketManager.OPEN))).1
  = WebSocketManager.listeners (two_listeners (Some WebSocketManager.OPEN)).
Proof.
  apply (X24_messages_keep_the_registry first_throws any_json
           [ WebSocketManager.OnMessage
               (WebSocketManager.JsonObject (pods_frame (Some "MODIFIED") None));
             WebSocketManager.OnMessage WebSocketManager.SyntaxError;
             WebSocketManager.OnMessage
               (WebSocketManager.JsonObject (pods_frame (Some "COMPLETE") None)) ]
           (two_listeners (Some WebSocketManager.OPEN))).
  reflexivity.
Defined.

Lemma X25_witness :
  filter is_OpenSocket
    (concat (WebSocketManager.run quiet any_json
               [ WebSocketManager.Subscribe "c1" "/api/v1/pods" "" 1%nat;
                 WebSocketManager.Subscribe "c1" "/api/v1/nodes" "" 2%nat;
                 WebSocketManager.Subscribe "c2" "/api/v1/pods" "" 3%nat ]
               WebSocketManager.initial).2)
  = [WebSocketManager.OpenSocket].
Proof.
  apply (X25_subscribes_share_one_socket quiet any_json
           [ WebSocketManager.Subscribe "c1" "/api/v1/pods" "" 1%nat;
             WebSocketManager.Subscribe "c1" "/api/v1/nodes" "" 2%nat;
             WebSocketManager.Subscribe "c2" "/api/v1/pods" "" 3%nat ]
           WebSocketManager.initial); [reflexivity|discriminate].
Defined.
